(** * Tidsapp: the punch ledger, its approval form, the staff register and the
    daily payroll report of [app.py], as a shallow embedding.

    The program is a Streamlit script over three SQLite tables.  Every run of
    a view is modelled as one function from the database before the run (and
    the widget values of that run) to the database after it together with
    what the view showed.  Tables are lists of rows in rowid order.  The
    table [shifts], which only [schedule_view] reads and writes, is kept
    beside the database of users and punches.

    Modelling boundaries, all of them library code outside the repository:
    - a TEXT timestamp column always holds [isoformat] of a naive datetime, so
      the row stores the datetime itself and the two textual renderings that
      the queries compare ([isoformat] of Python, [datetime()] of SQLite) are
      computed from it;
    - [int(...)] and [pd.to_datetime(...)] on the text of a widget are not
      re-implemented: a text field arrives as empty, as text the parser
      raises on, or as the parsed value; a text that [pd.to_datetime] reads
      without raising as anything but a naive timestamp of microsecond
      precision (NaT for the text NaT itself, a timestamp with a UTC offset,
      a timestamp with nanoseconds) is not among the inputs of the model, and
      no column of the model holds what the save would store for it;
    - [pd.to_datetime] on a column of stored texts guesses one format from
      the first text and raises on a text of another format: of the texts
      [isoformat] writes, those with a fraction of a second and those without
      do not parse together;
    - [hashlib.sha256] is not re-implemented: the handlers take the digest;
    - float64 columns of pandas are exact rationals ([Q]); [.round(2)] gives
      the nearest hundredth, and where the exact value lies midway between
      two hundredths the choice between them, which float64 arithmetic makes
      in the code, is a parameter of the model ([Float64]). *)

From Stdlib Require Import ZArith QArith Qround Qminmax Qabs Lqa.
From Stdlib Require Import List String Ascii Bool Lia Permutation Sorted.
Import ListNotations.

Local Open Scope Z_scope.

(** ** Calendar dates and wall-clock timestamps *)

Module Calendar.

Record date := mkDate { year : Z; month : Z; day : Z }.

Record datetime := mkDatetime {
  on : date;
  hour : Z;
  minute : Z;
  second : Z;
  microsecond : Z
}.

Definition date_eqb (a b : date) : bool :=
  (year a =? year b) && (month a =? month b) && (day a =? day b).

(** Python's [datetime] module: [_is_leap], [_days_before_year],
    [_days_in_month], [_days_before_month], [_ymd2ord]. *)
Definition is_leap (y : Z) : bool :=
  (y mod 4 =? 0) && (negb (y mod 100 =? 0) || (y mod 400 =? 0)).

Definition days_before_year (y : Z) : Z :=
  let p := y - 1 in p * 365 + p / 4 - p / 100 + p / 400.

Definition days_in_month (y m : Z) : Z :=
  if (m =? 2) && is_leap y then 29
  else nth (Z.to_nat m) [0; 31; 28; 31; 30; 31; 30; 31; 31; 30; 31; 30; 31] 0.

Definition days_before_month (y m : Z) : Z :=
  nth (Z.to_nat m) [0; 0; 31; 59; 90; 120; 151; 181; 212; 243; 273; 304; 334] 0
  + (if (2 <? m) && is_leap y then 1 else 0).

Definition ymd2ord (d : date) : Z :=
  days_before_year (year d) + days_before_month (year d) (month d) + day d.

(** Microseconds since the start of day 0 of the proleptic calendar; the
    difference of two of them is the [timedelta] between the datetimes. *)
Definition to_micros (t : datetime) : Z :=
  (((ymd2ord (on t) * 24 + hour t) * 60 + minute t) * 60 + second t) * 1000000
  + microsecond t.

(** [(b - a).total_seconds()]. *)
Definition total_seconds (a b : datetime) : Q :=
  inject_Z (to_micros b - to_micros a) / 1000000.

(** [datetime.combine(d, time.min)]. *)
Definition combine_min (d : date) : datetime := mkDatetime d 0 0 0 0.

(** The modifier ['+1 day'] of SQLite on a calendar date. *)
Definition next_day (d : date) : date :=
  if day d <? days_in_month (year d) (month d)
  then mkDate (year d) (month d) (day d + 1)
  else if month d <? 12
       then mkDate (year d) (month d + 1) 1
       else mkDate (year d + 1) 1 1.

(** *** Textual renderings *)

Definition digit (n : Z) : ascii := ascii_of_nat (48 + Z.to_nat (n mod 10)).

(** [n] in decimal on exactly [w] digits, zero padded ([%0wd]). *)
Fixpoint zpad (w : nat) (n : Z) : string :=
  match w with
  | O => EmptyString
  | S w' => (zpad w' (n / 10) ++ String (digit n) EmptyString)%string
  end.

Definition date_text (d : date) : string :=
  (zpad 4 (year d) ++ "-" ++ zpad 2 (month d) ++ "-" ++ zpad 2 (day d))%string.

Definition hms_text (t : datetime) : string :=
  (zpad 2 (hour t) ++ ":" ++ zpad 2 (minute t) ++ ":" ++ zpad 2 (second t))%string.

(** [date.isoformat()]: [YYYY-MM-DD]. *)
Definition date_isoformat (d : date) : string := date_text d.

(** [datetime.isoformat()]: [YYYY-MM-DDTHH:MM:SS], followed by [.ffffff] when
    the microsecond is not zero.  The separator is the letter T. *)
Definition isoformat (t : datetime) : string :=
  (date_text (on t) ++ "T" ++ hms_text t
   ++ (if Z.eqb (microsecond t) 0 then EmptyString
       else "." ++ zpad 6 (microsecond t)))%string.

(** SQLite's [datetime(X)] on a stored timestamp: [YYYY-MM-DD HH:MM:SS], the
    separator is a space and the fraction of the second is dropped. *)
Definition sqlite_datetime (t : datetime) : string :=
  (date_text (on t) ++ " " ++ hms_text t)%string.

(** SQLite's [datetime(X, '+1 day')] on the text of a date: midnight of the
    following day. *)
Definition sqlite_datetime_plus_1_day (d : date) : string :=
  sqlite_datetime (combine_min (next_day d)).

End Calendar.
Export Calendar.

(** ** The store: tables [users] and [punches] of [init_db] *)

Inductive role := Admin | Manager | Employee.

Definition role_eqb (a b : role) : bool :=
  match a, b with
  | Admin, Admin | Manager, Manager | Employee, Employee => true
  | _, _ => false
  end.

(** [users]: id INTEGER PRIMARY KEY AUTOINCREMENT, username TEXT UNIQUE NOT
    NULL, full_name, password_hash, role (one of the three), hourly_rate REAL,
    pin TEXT DEFAULT NULL.  Only [username] carries a uniqueness constraint. *)
Record user_row := mkUser {
  u_id : Z;
  username : string;
  full_name : string;
  password_hash : string;
  u_role : role;
  hourly_rate : Q;
  pin : option string
}.

(** [punches]: id, user_id, clock_in TEXT NOT NULL, clock_out TEXT, note TEXT,
    location TEXT, approved INTEGER DEFAULT 0. *)
Record punch_row := mkPunch {
  p_id : Z;
  user_id : Z;
  clock_in : datetime;
  clock_out : option datetime;
  note : option string;
  location : option string;
  approved : Z
}.

Record db := mkDb { users : list user_row; punches : list punch_row }.

(** The rowid an AUTOINCREMENT key gives to the next row: one more than the
    largest ever used.  No view deletes from [users] or [punches], so that is
    the largest id present. *)
Definition next_rowid (ids : list Z) : Z := 1 + fold_right Z.max 0 ids.

(** [UPDATE punches SET ... WHERE id=?]. *)
Definition update_punches (d : db) (id : Z) (f : punch_row -> punch_row) : db :=
  mkDb (users d) (map (fun p => if p_id p =? id then f p else p) (punches d)).

Definition set_clock_in (t : datetime) (p : punch_row) : punch_row :=
  mkPunch (p_id p) (user_id p) t (clock_out p) (note p) (location p) (approved p).

Definition set_clock_out (t : datetime) (p : punch_row) : punch_row :=
  mkPunch (p_id p) (user_id p) (clock_in p) (Some t) (note p) (location p) (approved p).

Definition set_approved (a : Z) (p : punch_row) : punch_row :=
  mkPunch (p_id p) (user_id p) (clock_in p) (clock_out p) (note p) (location p) a.

(** [ensure_seed_admin] on the empty database of [init_db]; the digests are
    the SHA-256 of admin123, chef123 and server123. *)
Definition seeded : db :=
  mkDb
    [ mkUser 1 "admin" "System Admin"
        "240be518fabd2724ddb6f04eeb1da5967448d7e831c08c8fa822809f74c720a9"
        Admin 0 (Some "0000"%string);
      mkUser 2 "anna" "Anna Andersson"
        "fa0990ab6f2ecfd562611cedad67152e8c1117f91c22d15094d1e242314243af"
        Manager 165 (Some "1111"%string);
      mkUser 3 "erik" "Erik Ek"
        "14bf075c90460abf992eded5e80766dc474229ecc33a72b63e6844cce4a5f32c"
        Employee 145 (Some "2222"%string) ]
    [].

(** ** What a run of a view leaves behind *)

Inductive exception :=
| ValueError       (* int() on text that is no integer; pd.to_datetime on a
                      column whose texts are not of one format *)
| ParserError      (* pd.to_datetime on text that is no timestamp *)
| OverflowError    (* sqlite3: a Python int that does not fit INTEGER *)
| IntegrityError.  (* sqlite3: a constraint of the schema is violated *)

Inductive feedback :=
| Quiet                       (* nothing was saved, nothing was reported *)
| Warned                      (* st.warning: the role is not allowed *)
| Caption                     (* st.caption: nothing in the interval *)
| Success                     (* st.success, then st.rerun *)
| Fel (e : exception)         (* st.error(f"Fel: {e}") of the except clause *)
| Raised (e : exception).     (* the exception leaves the view *)

Definition feedback_is_success (f : feedback) : bool :=
  match f with Success => true | _ => false end.

(** The principal of [st.session_state["user"]]. *)
Record principal := mkPrincipal { me : Z; my_role : role }.

(** A text widget as its handler consumes it: empty (falsy), text the parser
    raises on, or text the parser turns into a value.  For a timestamp field
    the value is a naive timestamp of microsecond precision: a text that
    [pd.to_datetime] reads as anything else without raising (NaT, a UTC
    offset, nanoseconds) is none of the three and is not an input of the
    model. *)
Inductive field (A : Type) :=
| Blank
| Unparsable
| Parsed (a : A).
Arguments Blank {A}.
Arguments Unparsable {A}.
Arguments Parsed {A} a.

(** A small error monad for the body of a [with get_conn() as conn:] block:
    an exception abandons the block and the connection rolls back. *)
Definition attempt (A : Type) : Type := (exception + A)%type.
Definition ret {A} (a : A) : attempt A := inr a.
Definition raise {A} (e : exception) : attempt A := inl e.
Definition bind {A B} (m : attempt A) (k : A -> attempt B) : attempt B :=
  match m with inl e => inl e | inr a => k a end.
Notation "x <- m ;; k" := (bind m (fun x => k))
  (at level 61, m at next level, right associativity).

Definition int (s : field Z) : attempt Z :=
  match s with Parsed i => ret i | _ => raise ValueError end.

(** [pd.to_datetime(text)] on the text of a widget, for the texts above. *)
Definition to_datetime (s : field datetime) : attempt datetime :=
  match s with Parsed t => ret t | _ => raise ParserError end.

(** A Python int as a parameter of [cur.execute]: sqlite3 binds it as a 64-bit
    signed INTEGER and raises OverflowError when it does not fit. *)
Definition fits_int64 (i : Z) : Prop := - 2 ^ 63 <= i < 2 ^ 63.

Definition bind_integer (i : Z) : attempt Z :=
  if (- 2 ^ 63 <=? i) && (i <? 2 ^ 63) then ret i else raise OverflowError.

(** ** Stämpelklocka: [clock_view], lines 181-221 *)

Inductive button := NoButton | StamplaIN | StamplaUT.

Definition is_open (p : punch_row) : bool :=
  match clock_out p with None => true | Some _ => false end.

(** [SELECT id, clock_in FROM punches WHERE user_id=? AND clock_out IS NULL
    ORDER BY id DESC LIMIT 1]. *)
Definition newest (best : option punch_row) (p : punch_row)
  : option punch_row :=
  match best with
  | None => Some p
  | Some b => if p_id b <? p_id p then Some p else best
  end.

Definition active_punch (d : db) (uid : Z) : option punch_row :=
  fold_left newest
    (filter (fun p => (user_id p =? uid) && is_open p) (punches d))
    None.

Definition newline : string := String (ascii_of_nat 10) EmptyString.

(** [COALESCE(col,'') || ?] with the parameter [f"\n{text}" if text else ""]. *)
Definition appended (col : option string) (text : string) : option string :=
  Some ((match col with Some s => s | None => EmptyString end)
        ++ (if String.eqb text EmptyString then EmptyString
            else newline ++ text))%string.

Definition stamp_out (now : datetime) (text place : string) (p : punch_row)
  : punch_row :=
  mkPunch (p_id p) (user_id p) (clock_in p) (Some now)
          (appended (note p) text) (appended (location p) place) (approved p).

(** [INSERT INTO punches (user_id, clock_in, note, location)]: clock_out is
    NULL and approved takes its default 0. *)
Definition stamp_in (d : db) (uid : Z) (now : datetime) (text place : string)
  : db :=
  mkDb (users d)
       (punches d ++
        [mkPunch (next_rowid (map p_id (punches d))) uid now None
                 (Some text) (Some place) 0]).

(** Only one of the two buttons is drawn in a run: Stämpla UT when the user
    has an active punch, Stämpla IN otherwise.  A click on the button that is
    not drawn is not delivered. *)
Definition clock_view (d : db) (user : principal) (text place : string)
                      (now : datetime) (pressed : button) : db * feedback :=
  match active_punch d (me user) with
  | Some a =>
      match pressed with
      | StamplaUT =>
          (update_punches d (p_id a) (stamp_out now text place), Success)
      | _ => (d, Quiet)
      end
  | None =>
      match pressed with
      | StamplaIN => (stamp_in d (me user) now text place, Success)
      | _ => (d, Quiet)
      end
  end.

(** ** Personalregister: the save handler of [staff_view], lines 312-357 *)

Inductive mode := Ny | Uppdatera.

(** The widgets of the form.  [pw_digest] is [None] for an empty password and
    the SHA-256 digest of the password otherwise. *)
Record person_form := mkForm {
  f_mode : mode;
  f_username : string;
  f_full_name : string;
  f_role : role;
  f_hourly : Q;
  f_pin : string;
  f_pw_digest : option string
}.

(** [hash_pw("changeme")]. *)
Definition changeme_digest : string :=
  "057ba03d6c44104863dc7361fe4578965d1887360f90a0895882e58a6248fc86".

(** [pin or None]. *)
Definition pin_or_none (s : string) : option string :=
  if String.eqb s EmptyString then None else Some s.

(** [INSERT INTO users ...]: the UNIQUE constraint on username is the only
    one the values of the form can violate. *)
Definition insert_user (d : db) (f : person_form) : attempt db :=
  if existsb (fun u => String.eqb (username u) (f_username f)) (users d)
  then raise IntegrityError
  else ret (mkDb (users d ++
                  [mkUser (next_rowid (map u_id (users d)))
                          (f_username f) (f_full_name f)
                          (match f_pw_digest f with
                           | Some h => h
                           | None => changeme_digest
                           end)
                          (f_role f) (f_hourly f) (pin_or_none (f_pin f))])
                 (punches d)).

(** [UPDATE users SET full_name=?, role=?, hourly_rate=?, pin=? [,
    password_hash=?] WHERE username=?]. *)
Definition update_user (d : db) (f : person_form) : db :=
  mkDb (map (fun u =>
               if String.eqb (username u) (f_username f)
               then mkUser (u_id u) (username u) (f_full_name f)
                           (match f_pw_digest f with
                            | Some h => h
                            | None => password_hash u
                            end)
                           (f_role f) (f_hourly f) (pin_or_none (f_pin f))
               else u)
            (users d))
       (punches d).

Definition staff_view (d : db) (user : principal) (f : person_form)
                      (spara_person : bool) : db * feedback :=
  if negb (role_eqb (my_role user) Admin) then (d, Warned)
  else if negb spara_person then (d, Quiet)
  else match f_mode f with
       | Ny =>
           match insert_user d f with
           | inl e => (d, Raised e)
           | inr d' => (d', Success)
           end
       | Uppdatera => (update_user d f, Success)
       end.

(** ** Queries over a date interval, shared by approvals and reports *)

(** A row of [punches p LEFT JOIN users u ON p.user_id=u.id]: the columns of
    [u] are NULL together when no user has that id. *)
Definition joined : Type := (punch_row * option user_row)%type.

Definition find_user (d : db) (uid : Z) : option user_row :=
  find (fun u => u_id u =? uid) (users d).

Definition left_join (d : db) : list joined :=
  map (fun p => (p, find_user d (user_id p))) (punches d).

(** [WHERE datetime(p.clock_in) >= ? AND datetime(p.clock_in) <
    datetime(?,'+1 day')] with the parameters
    [datetime.combine(start, time.min).isoformat()] and [end.isoformat()].
    SQLite compares the texts byte by byte. *)
Definition in_interval (start stop : date) (t : datetime) : bool :=
  String.leb (isoformat (combine_min start)) (sqlite_datetime t)
  && String.ltb (sqlite_datetime t) (sqlite_datetime_plus_1_day stop).

Definition where_interval (start stop : date) (rows : list joined)
  : list joined :=
  filter (fun r => in_interval start stop (clock_in (fst r))) rows.

(** *** Sorting, for the ORDER BY clauses *)

Section Sorting.
Context {A : Type} (leb : A -> A -> bool).

Fixpoint insert_sorted (x : A) (l : list A) : list A :=
  match l with
  | [] => [x]
  | y :: l' => if leb x y then x :: l else y :: insert_sorted x l'
  end.

(** Stable insertion sort. *)
Definition sort_by (l : list A) : list A := fold_right insert_sorted [] l.
End Sorting.

(** *** [pd.to_datetime] on the timestamp columns of a frame *)

(** Whether [isoformat] wrote the fraction of the second. *)
Definition has_fraction (t : datetime) : bool := negb (microsecond t =? 0).

(** The first element of a column that is not NULL: pandas guesses the format
    of the whole column from it. *)
Fixpoint first_text (col : list (option datetime)) : option datetime :=
  match col with
  | [] => None
  | Some t :: _ => Some t
  | None :: rest => first_text rest
  end.

(** [pd.to_datetime(column)] succeeds when every text of the column is of the
    format of its first text, and raises ValueError otherwise; NULL becomes
    NaT whatever the format.  Of the texts [isoformat] writes, one with the
    fraction of the second and one without are of different formats. *)
Definition column_parses (col : list (option datetime)) : bool :=
  match first_text col with
  | None => true
  | Some t =>
      forallb (fun x => match x with
                        | None => true
                        | Some u => Bool.eqb (has_fraction u) (has_fraction t)
                        end) col
  end.

(** [df["clock_in"] = pd.to_datetime(df["clock_in"])], then the same on
    [clock_out] (lines 397-398 and line 450): the frame with its two columns
    parsed, or the ValueError of the column that does not parse.  The rows of
    the model hold the timestamps already, so the frame is returned as it
    is. *)
Definition to_datetime_columns (df : list joined) : attempt (list joined) :=
  if column_parses (map (fun r => Some (clock_in (fst r))) df)
     && column_parses (map (fun r => clock_out (fst r)) df)
  then ret df
  else raise ValueError.

(** ** Godkänn tider: [approvals_view], lines 364-421 *)

(** [ORDER BY p.clock_in DESC]. *)
Definition latest_first (a b : punch_row) : bool :=
  String.leb (isoformat (clock_in b)) (isoformat (clock_in a)).

(** [ORDER BY p.clock_in DESC] on the joined rows. *)
Definition joined_latest_first (a b : joined) : bool :=
  latest_first (fst a) (fst b).

(** The data frame that [pd.read_sql_query] returns, lines 374-385. *)
Definition approvals_query (d : db) (start stop : date) : list joined :=
  sort_by joined_latest_first (where_interval start stop (left_join d)).

(** The body of the [with] block of the save handler, lines 410-417.  Each
    [cur.execute] binds the row id, which raises when it does not fit. *)
Definition adjust_transaction (d : db) (sel_id : field Z)
    (new_in new_out : field datetime) (approve : bool) : attempt db :=
  d1 <- match new_in with
        | Blank => ret d
        | _ => t <- to_datetime new_in ;;
               i <- int sel_id ;;
               j <- bind_integer i ;;
               ret (update_punches d j (set_clock_in t))
        end ;;
  d2 <- match new_out with
        | Blank => ret d1
        | _ => t <- to_datetime new_out ;;
               i <- int sel_id ;;
               j <- bind_integer i ;;
               ret (update_punches d1 j (set_clock_out t))
        end ;;
  i <- int sel_id ;;
  j <- bind_integer i ;;
  ret (update_punches d2 j (set_approved (if approve then 1 else 0))).

(** Lines 408-421: [if st.button("Spara ändring") and sel_id: try ... except
    Exception as e: st.error(...)]. *)
Definition adjust (d : db) (spara_andring : bool) (sel_id : field Z)
    (new_in new_out : field datetime) (approve : bool) : db * feedback :=
  if negb spara_andring then (d, Quiet)
  else match sel_id with
       | Blank => (d, Quiet)
       | _ =>
           match adjust_transaction d sel_id new_in new_out approve with
           | inl e => (d, Fel e)
           | inr d' => (d', Success)
           end
       end.

(** The view: the role check, the query, the caption of an empty frame, the
    parse of the two timestamp columns (lines 397-398, outside any [try], so
    its exception leaves the view before the form is drawn), then the
    form. *)
Definition approvals_view (d : db) (user : principal) (start stop : date)
    (spara_andring : bool) (sel_id : field Z)
    (new_in new_out : field datetime) (approve : bool) : db * feedback :=
  if negb (role_eqb (my_role user) Manager || role_eqb (my_role user) Admin)
  then (d, Warned)
  else match approvals_query d start stop with
       | [] => (d, Caption)
       | df =>
           match to_datetime_columns df with
           | inl e => (d, Raised e)
           | inr _ => adjust d spara_andring sel_id new_in new_out approve
           end
       end.

(** ** Rapporter: [reports_view], lines 428-465 *)

Definition name_of (r : joined) : option string := option_map full_name (snd r).

(** [ORDER BY u.full_name, p.clock_in]: NULL names first, then byte order of
    the name, then byte order of the stored clock_in text. *)
Definition order_leb (a b : joined) : bool :=
  match name_of a, name_of b with
  | None, None => String.leb (isoformat (clock_in (fst a))) (isoformat (clock_in (fst b)))
  | None, Some _ => true
  | Some _, None => false
  | Some x, Some y =>
      match String.compare x y with
      | Lt => true
      | Gt => false
      | Eq => String.leb (isoformat (clock_in (fst a))) (isoformat (clock_in (fst b)))
      end
  end.

(** The data frame that [pd.read_sql_query] returns. *)
Definition report_query (d : db) (start stop : date) : list joined :=
  sort_by order_leb (where_interval start stop (left_join d)).

(** [.round(2)] of numpy on a float64 column multiplies by 100, rounds to the
    nearest integer ([rint]) and divides by 100.  On the exact value the
    nearest integer is determined unless the value lies midway between two
    integers; there the code returns the one that the float64 quotient and
    product happen to fall next to (a shift of 3654 s, 1.015 h, is reported
    as 1.01, one of 54 s, 0.015 h, as 0.02).  The model does not derive that
    choice: it is the parameter [midway_up], asked with the value times
    100. *)
Class Float64 := { midway_up : Q -> bool }.

Definition round_nearest {F : Float64} (q : Q) : Z :=
  let f := Qfloor q in
  match Qcompare (q - inject_Z f)%Q (1 # 2)%Q with
  | Lt => f
  | Gt => f + 1
  | Eq => if midway_up q then f + 1 else f
  end.

Definition round2 {F : Float64} (q : Q) : Q :=
  inject_Z (round_nearest (q * 100)) / 100.

(** [(clock_out - clock_in).dt.total_seconds()/3600], NaN for a NULL
    clock_out. *)
Definition elapsed_hours (p : punch_row) : option Q :=
  option_map (fun out => (total_seconds (clock_in p) out / 3600)%Q) (clock_out p).

Definition fillna (v : Q) (x : option Q) : Q :=
  match x with Some q => q | None => v end.

(** Column [hours]. *)
Definition hours {F : Float64} (r : joined) : Q :=
  round2 (fillna 0 (elapsed_hours (fst r))).

(** Column [date]: [df["clock_in"].dt.date]. *)
Definition date_of (r : joined) : date := on (clock_in (fst r)).

(** The key of [groupby(["full_name","date"])]; rows whose name is NULL are
    dropped by [groupby]. *)
Definition key : Type := (string * date)%type.

Definition key_of (r : joined) : option key :=
  option_map (fun u => (full_name u, date_of r)) (snd r).

Definition key_eqb (a b : key) : bool :=
  String.eqb (fst a) (fst b) && date_eqb (snd a) (snd b).

Definition date_leb (a b : date) : bool :=
  ymd2ord a <=? ymd2ord b.

Definition key_leb (a b : key) : bool :=
  match String.compare (fst a) (fst b) with
  | Lt => true
  | Gt => false
  | Eq => date_leb (snd a) (snd b)
  end.

Definition in_group (k : key) (r : joined) : bool :=
  match key_of r with Some k' => key_eqb k k' | None => false end.

Fixpoint keys_of (rows : list joined) : list key :=
  match rows with
  | [] => []
  | r :: rest =>
      match key_of r with
      | Some k => k :: keys_of rest
      | None => keys_of rest
      end
  end.

Fixpoint distinct (ks : list key) : list key :=
  match ks with
  | [] => []
  | k :: rest =>
      if existsb (key_eqb k) (distinct rest) then distinct rest
      else k :: distinct rest
  end.

(** The groups of [groupby], in sorted key order. *)
Definition group_keys (rows : list joined) : list key :=
  sort_by key_leb (distinct (keys_of rows)).

Definition Qsum (l : list Q) : Q := fold_right Qplus 0%Q l.

(** ["max"] of a column; a group is never empty. *)
Definition Qmax_list (l : list Q) : Q :=
  match l with
  | [] => 0%Q
  | x :: rest => fold_left Qmax rest x
  end.

Definition rates (g : list joined) : list Q :=
  flat_map (fun r => match snd r with
                     | Some u => [hourly_rate u]
                     | None => []
                     end) g.

Record daily_row := mkDaily {
  d_full_name : string;
  d_date : date;
  d_hours : Q;
  d_hourly_rate : Q;
  d_ot_hours : Q;
  d_reg_hours : Q;
  d_pay : Q
}.

(** One row of [daily]: the [agg] of the group of [k], then the three
    derived columns. *)
Definition daily_of {F : Float64} (df : list joined) (k : key) : daily_row :=
  let g := filter (in_group k) df in
  let h := Qsum (map hours g) in
  let rate := Qmax_list (rates g) in
  let ot := Qmax (h - 8)%Q 0%Q in
  let reg := (h - ot)%Q in
  mkDaily (fst k) (snd k) h rate ot reg
          (reg * rate + ot * rate * (3 # 2))%Q.

(** What the view shows. *)
Inductive report :=
| IngenData                           (* st.caption: nothing in the interval *)
| Summering (daily : list daily_row)  (* the frame [daily], drawn and exported *)
| ReportRaised (e : exception).       (* the exception leaves the view *)

Definition reports_view {F : Float64} (d : db) (start stop : date) : report :=
  let df := report_query d start stop in
  match df with
  | [] => IngenData
  | _ :: _ =>
      match to_datetime_columns df with
      | inl e => ReportRaised e
      | inr df => Summering (map (daily_of df) (group_keys df))
      end
  end.

(** ** Runs of the application *)

(** One run of a view that writes to [users] or [punches], by any principal
    and with any widget values.  [reports_view] writes nothing. *)
Inductive step : db -> db -> Prop :=
| step_clock d user text place now pressed :
    step d (fst (clock_view d user text place now pressed))
| step_staff d user f pressed :
    step d (fst (staff_view d user f pressed))
| step_approvals d user start stop pressed sel_id new_in new_out approve :
    step d (fst (approvals_view d user start stop pressed sel_id new_in
                                new_out approve)).

(** The databases the application can be in: [main] seeds the empty database
    once, then views run one after the other. *)
Inductive reachable : db -> Prop :=
| reachable_seeded : reachable seeded
| reachable_step d d' : reachable d -> step d d' -> reachable d'.

(** The punches of a worker that have no clock-out. *)
Definition open_punches (d : db) (uid : Z) : list punch_row :=
  filter (fun p => (user_id p =? uid) && is_open p) (punches d).

(** ** Vocabulary of the statements *)

(** The approved flag of the punch with a given id. *)
Definition approved_of (d : db) (id : Z) : option Z :=
  option_map approved (find (fun p => p_id p =? id) (punches d)).

(** What a saved adjustment leaves in the row it names: each supplied
    timestamp overwrites its column, the flag is the checkbox. *)
Definition adjusted (new_in new_out : field datetime) (approve : bool)
                    (p : punch_row) : punch_row :=
  mkPunch (p_id p) (user_id p)
          (match new_in with Parsed t => t | _ => clock_in p end)
          (match new_out with Parsed t => Some t | _ => clock_out p end)
          (note p) (location p)
          (if approve then 1 else 0).

(** The hours of one worker on one day among the rows of the report query. *)
Definition worker_hours {F : Float64} (d : db) (start stop : date)
                        (u : user_row) (day : date) : Q :=
  Qsum (map hours
            (filter (fun r => (user_id (fst r) =? u_id u)
                              && date_eqb (date_of r) day)
                    (report_query d start stop))).

Definition key_of_row (row : daily_row) : key := (d_full_name row, d_date row).

(** The workers of the register who go by a name. *)
Definition namesakes (d : db) (name : string) : list user_row :=
  filter (fun u => String.eqb (full_name u) name) (users d).

(** A punch of a worker with its clock-in on a day, among the rows of the
    report query. *)
Definition punch_of (d : db) (start stop : date) (u : user_row) (day : date)
                    (r : joined) : Prop :=
  In r (report_query d start stop)
  /\ user_id (fst r) = u_id u /\ date_of r = day.

(** A frame whose clock-in texts are all written with, or all without, the
    fraction of the second, and whose clock-out texts likewise: what
    [to_datetime_columns] asks for. *)
Definition one_precision (df : list joined) : Prop :=
  (forall r r', In r df -> In r' df ->
      has_fraction (clock_in (fst r)) = has_fraction (clock_in (fst r')))
  /\ (forall r r' out out', In r df -> In r' df ->
        clock_out (fst r) = Some out -> clock_out (fst r') = Some out' ->
        has_fraction out = has_fraction out').

(** Whether a run of [approvals_view] gets as far as drawing its form. *)
Definition form_is_drawn (d : db) (user : principal) (start stop : date)
  : bool :=
  (role_eqb (my_role user) Manager || role_eqb (my_role user) Admin)
  && match approvals_query d start stop with
     | [] => false
     | df => match to_datetime_columns df with
             | inl _ => false
             | inr _ => true
             end
     end.

(** *** A week in March *)

(** The shifts of this week are whole minutes, none of them midway between
    two hundredths of an hour: what the examples say of them holds whichever
    way such a value is rounded. *)

Definition admin : principal := mkPrincipal 1 Admin.
Definition anna : principal := mkPrincipal 2 Manager.
Definition erik : principal := mkPrincipal 3 Employee.

Definition monday : date := mkDate 2024 3 4.
Definition tuesday : date := mkDate 2024 3 5.
Definition clock (d : date) (h m : Z) : datetime := mkDatetime d h m 0 0.

(** Erik clocks in on Tuesday morning. *)
Definition erik_at_work : db :=
  fst (clock_view seeded erik "" "" (clock tuesday 9 0) StamplaIN).

(** Anna approves that punch. *)
Definition erik_approved : db :=
  fst (approvals_view erik_at_work anna monday tuesday true
                      (Parsed 1) Blank Blank true).

(** Erik clocks out in the evening. *)
Definition erik_gone_home : db :=
  fst (clock_view erik_at_work erik "" "" (clock tuesday 18 0) StamplaUT).

(** Erik comes back the same evening and clocks in again. *)
Definition erik_back : db :=
  fst (clock_view erik_gone_home erik "" "" (clock tuesday 19 0) StamplaIN).

(** A second worker named Erik Ek, paid 200, is registered; on Tuesday the
    first works 09:00-14:00 and the second 10:00-15:00. *)
Definition namesake_form : person_form :=
  mkForm Ny "erik2" "Erik Ek" Employee 200 "" None.

Definition namesake : principal := mkPrincipal 4 Employee.

Definition two_eriks : db :=
  let d0 := fst (staff_view seeded admin namesake_form true) in
  let d1 := fst (clock_view d0 erik "" "" (clock tuesday 9 0) StamplaIN) in
  let d2 := fst (clock_view d1 namesake "" "" (clock tuesday 10 0) StamplaIN) in
  let d3 := fst (clock_view d2 erik "" "" (clock tuesday 14 0) StamplaUT) in
  fst (clock_view d3 namesake "" "" (clock tuesday 15 0) StamplaUT).

Definition erik_row : user_row :=
  mkUser 3 "erik" "Erik Ek"
         "14bf075c90460abf992eded5e80766dc474229ecc33a72b63e6844cce4a5f32c"
         Employee 145 (Some "2222"%string).

Definition namesake_row : user_row :=
  mkUser 4 "erik2" "Erik Ek" changeme_digest Employee 200 None.

Definition erik_shift : joined :=
  (mkPunch 1 3 (clock tuesday 9 0) (Some (clock tuesday 14 0))
           (Some ""%string) (Some ""%string) 0,
   Some erik_row).

Definition namesake_shift : joined :=
  (mkPunch 2 4 (clock tuesday 10 0) (Some (clock tuesday 15 0))
           (Some ""%string) (Some ""%string) 0,
   Some namesake_row).

(** A third Erik Ek, paid 300, joins them and works 11:00-16:00 that day. *)
Definition third_form : person_form :=
  mkForm Ny "erik3" "Erik Ek" Employee 300 "" None.

Definition third : principal := mkPrincipal 5 Employee.

Definition three_eriks : db :=
  let d0 := fst (staff_view two_eriks admin third_form true) in
  let d1 := fst (clock_view d0 third "" "" (clock tuesday 11 0) StamplaIN) in
  fst (clock_view d1 third "" "" (clock tuesday 16 0) StamplaUT).

Definition third_row : user_row :=
  mkUser 5 "erik3" "Erik Ek" changeme_digest Employee 300 None.

(** Erik leaves after an hour and a minute: 3660 s, 1.01666... h. *)
Definition erik_short_shift : db :=
  fst (clock_view erik_at_work erik "" "" (clock tuesday 10 1) StamplaUT).

(** Erik's punches are stamped by [datetime.now()] with its microseconds: in
    at 09:00:00.333333, out at 17:00:00.5, in again at 18:00:00.25.  Anna
    then corrects the first clock-in to 09:00 in the form, which stores it
    without a fraction. *)
Definition stamped_by_the_clock : db :=
  let d0 := fst (clock_view seeded erik "" ""
                            (mkDatetime tuesday 9 0 0 333333) StamplaIN) in
  let d1 := fst (clock_view d0 erik "" ""
                            (mkDatetime tuesday 17 0 0 500000) StamplaUT) in
  fst (clock_view d1 erik "" "" (mkDatetime tuesday 18 0 0 250000) StamplaIN).

Definition corrected_in_the_form : db :=
  fst (approvals_view stamped_by_the_clock anna monday tuesday true
                      (Parsed 1) (Parsed (clock tuesday 9 0)) Blank true).

(** Bo is registered with the pin that Erik already has; a second form tries
    Erik's username. *)
Definition bo_form : person_form :=
  mkForm Ny "bo" "Bo Berg" Employee 150 "2222" None.

Definition erik_again_form : person_form :=
  mkForm Ny "erik" "Erik Ek" Employee 150 "3333" None.

(** At most one punch without clock-out per worker. *)
Definition one_open_each (d : db) : Prop :=
  forall uid, (List.length (open_punches d uid) <= 1)%nat.

(** ** The rest of the views *)

(** *** Dates that Python and SQLite can hold *)

(** A date of the proleptic Gregorian calendar, years 1 to 9999: the values
    of Python's [date]. *)
Definition valid_date (d : date) : Prop :=
  1 <= year d <= 9999 /\ 1 <= month d <= 12
  /\ 1 <= day d <= days_in_month (year d) (month d).

(** The values of Python's naive [datetime]. *)
Definition valid_datetime (t : datetime) : Prop :=
  valid_date (on t) /\ 0 <= hour t <= 23 /\ 0 <= minute t <= 59
  /\ 0 <= second t <= 59 /\ 0 <= microsecond t <= 999999.

(** Calendar order, year first. *)
Definition date_lt (a b : date) : Prop :=
  year a < year b
  \/ (year a = year b
      /\ (month a < month b \/ (month a = month b /\ day a < day b))).

Definition date_le (a b : date) : Prop := date_lt a b \/ a = b.

(** The day before, as [d - timedelta(days=1)] gives it. *)
Definition prev_day (d : date) : date :=
  if 1 <? day d then mkDate (year d) (month d) (day d - 1)
  else if 1 <? month d
       then mkDate (year d) (month d - 1) (days_in_month (year d) (month d - 1))
       else mkDate (year d - 1) 12 31.

(** [d + timedelta(days=n)] and [d - timedelta(days=n)] for a count [n]. *)
Definition plus_days (n : nat) (d : date) : date := Nat.iter n next_day d.
Definition minus_days (n : nat) (d : date) : date := Nat.iter n prev_day d.

(** [date.weekday()]: Monday is 0. *)
Definition weekday (d : date) : Z := (ymd2ord d + 6) mod 7.

(** *** Dagens stämplingar, the table under the punch clock, lines 223-239 *)

(** [WHERE p.user_id=? AND datetime(p.clock_in) >= ? AND datetime(p.clock_in)
    < ?] with the parameters [day_start.isoformat()] and
    [day_end.isoformat()], where [day_end = day_start + timedelta(days=1)]. *)
Definition on_day (today : date) (t : datetime) : bool :=
  String.leb (isoformat (combine_min today)) (sqlite_datetime t)
  && String.ltb (sqlite_datetime t) (isoformat (combine_min (next_day today))).

(** The frame of the table; it is drawn unless it is empty. *)
Definition todays_punches (d : db) (user : principal) (today : date)
  : list punch_row :=
  sort_by latest_first
    (filter (fun p => (user_id p =? me user) && on_day today (clock_in p))
            (punches d)).

(** *** The table of the approval form, lines 374-401 *)

(** [duration_hours]: 0.0 for a row without clock-out, else the elapsed
    hours. *)
Definition duration_hours (r : joined) : Q :=
  match clock_out (fst r) with
  | None => 0
  | Some out => total_seconds (clock_in (fst r)) out / 3600
  end.

(** Column [Timmar]: [df.apply(duration_hours, axis=1).round(2)]. *)
Definition timmar {F : Float64} (r : joined) : Q := round2 (duration_hours r).

(** The frame of the approval table, drawn when the query returned a row:
    the two timestamp columns are parsed (lines 397-398), then each row gets
    its Timmar (line 399). *)
Definition approvals_table {F : Float64} (d : db) (start stop : date)
  : attempt (list (joined * Q)) :=
  df <- to_datetime_columns (approvals_query d start stop) ;;
  ret (map (fun r => (r, timmar r)) df).

(** *** Inloggning: [get_user_by_username], [get_user_by_pin], [login_ui],
    lines 96-168 *)

(** [SELECT ... FROM users WHERE username=?], [fetchone]. *)
Definition get_user_by_username (d : db) (name : string) : option user_row :=
  find (fun u => String.eqb (username u) name) (users d).

(** [pin=?] is not true of a NULL pin. *)
Definition pin_is (text : string) (u : user_row) : bool :=
  match pin u with
  | Some q => String.eqb q text
  | None => false
  end.

(** [SELECT ... FROM users WHERE pin=?], [fetchone]: the table is scanned in
    rowid order and the first match is returned. *)
Definition get_user_by_pin (d : db) (text : string) : option user_row :=
  find (pin_is text) (users d).

Inductive login_button := NoLogin | LoggaIn | LoggaInViaPIN.

Inductive login_result :=
| Entered (who : principal)   (* session_state["user"] is set, then rerun *)
| WrongCredentials            (* Felaktigt användarnamn eller lösenord. *)
| InvalidPin                  (* Ogiltig PIN. *)
| Waiting.                    (* no button was pressed *)

(** [typed_digest] is [hash_pw(password)] of the password field. *)
Definition login_ui (d : db) (name typed_digest pin_text : string)
                    (pressed : login_button) : login_result :=
  match pressed with
  | LoggaIn =>
      match get_user_by_username d name with
      | Some u =>
          if String.eqb (password_hash u) typed_digest
          then Entered (mkPrincipal (u_id u) (u_role u))
          else WrongCredentials
      | None => WrongCredentials
      end
  | LoggaInViaPIN =>
      match get_user_by_pin d pin_text with
      | Some u => Entered (mkPrincipal (u_id u) (u_role u))
      | None => InvalidPin
      end
  | NoLogin => Waiting
  end.

(** [ensure_seed_admin]: the three seed users, when the table is empty. *)
Definition ensure_seed_admin (d : db) : db :=
  match users d with
  | [] => mkDb (users seeded) (punches d)
  | _ :: _ => d
  end.

(** *** Schema: [schedule_view], lines 246-305 *)

(** A value of [st.time_input], as [strftime("%H:%M")] stores it. *)
Record time_of_day := mkTimeOfDay { tod_hour : Z; tod_minute : Z }.

Definition hm_text (t : time_of_day) : string :=
  (zpad 2 (tod_hour t) ++ ":" ++ zpad 2 (tod_minute t))%string.

(** [shifts]: id INTEGER PRIMARY KEY AUTOINCREMENT, user_id INTEGER,
    shift_date TEXT, start_time TEXT, end_time TEXT, position, location. *)
Record shift_row := mkShift {
  sh_id : Z;
  sh_user_id : option Z;
  sh_date : date;
  sh_start : time_of_day;
  sh_end : time_of_day;
  sh_position : string;
  sh_location : string
}.

(** The table with its AUTOINCREMENT counter: rows are deleted from this
    table, so the largest rowid ever used is kept beside them. *)
Record shift_table := mkShifts { sh_rows : list shift_row; sh_seq : Z }.

(** [start_of_week = base - timedelta(days=base.weekday())] and the seven
    days from it. *)
Definition start_of_week (base : date) : date :=
  minus_days (Z.to_nat (weekday base)) base.

Definition week_days (base : date) : list date :=
  map (fun i => plus_days i (start_of_week base)) (seq 0 7).

(** [SELECT id, full_name, role FROM users ORDER BY full_name]; rows of one
    name stay in rowid order. *)
Definition users_by_name (d : db) : list user_row :=
  sort_by (fun a b => String.leb (full_name a) (full_name b)) (users d).

(** [users_df.loc[users_df["full_name"]==person, "id"].iloc[0]]: the id of
    the first row of that name, IndexError when there is none. *)
Definition id_of_person (d : db) (person : string) : option Z :=
  option_map u_id
    (find (fun u => String.eqb (full_name u) person) (users_by_name d)).

(** [WHERE date(s.shift_date) >= ? AND date(s.shift_date) <= ?] with the
    parameters [days[0].isoformat()] and [days[-1].isoformat()]. *)
Definition in_week (base : date) (s : shift_row) : bool :=
  String.leb (date_isoformat (start_of_week base)) (date_text (sh_date s))
  && String.leb (date_text (sh_date s))
                (date_isoformat (plus_days 6 (start_of_week base))).

(** [ORDER BY s.shift_date, s.start_time]. *)
Definition shift_order (a b : shift_row) : bool :=
  match String.compare (date_text (sh_date a)) (date_text (sh_date b)) with
  | Lt => true
  | Gt => false
  | Eq => String.leb (hm_text (sh_start a)) (hm_text (sh_start b))
  end.

(** The frame of the week: the shifts of the week with the name of their
    worker ([LEFT JOIN users u ON s.user_id=u.id]). *)
Definition week_table (d : db) (t : shift_table) (base : date)
  : list (shift_row * option string) :=
  map (fun s => (s, match sh_user_id s with
                    | Some i => option_map full_name (find_user d i)
                    | None => None
                    end))
      (sort_by shift_order (filter (in_week base) (sh_rows t))).

Inductive schedule_click :=
| Titta
| SparaSkift (person position place : string) (day : date)
             (start_t end_t : time_of_day)
| RaderaValda (sel : list Z).

Inductive schedule_shown :=
| Nekad          (* st.warning: Manager or Admin only *)
| SkiftSparat    (* Skift sparat. *)
| IndexFel       (* IndexError leaves the view, nothing is committed *)
| IngaSkift      (* Inga skift inlagda för vald vecka. *)
| Veckan         (* the week is drawn *)
| Raderat.       (* Raderat. *)

(** [st.multiselect] returns options only: the ids drawn in the week. *)
Definition multiselect (options sel : list Z) : list Z :=
  filter (fun i => existsb (Z.eqb i) options) sel.

(** [executemany("DELETE FROM shifts WHERE id=?", ...)]. *)
Definition delete_shifts (t : shift_table) (ids : list Z) : shift_table :=
  mkShifts (filter (fun s => negb (existsb (Z.eqb (sh_id s)) ids)) (sh_rows t))
           (sh_seq t).

(** [INSERT INTO shifts (...)]: the rowid is one more than the largest ever
    used. *)
Definition insert_shift (t : shift_table) (uid : Z) (day : date)
    (start_t end_t : time_of_day) (position place : string) : shift_table :=
  mkShifts (sh_rows t ++
            [mkShift (sh_seq t + 1) (Some uid) day start_t end_t position place])
           (sh_seq t + 1).

Definition schedule_view (d : db) (t : shift_table) (user : principal)
    (base : date) (c : schedule_click) : shift_table * schedule_shown :=
  if negb (role_eqb (my_role user) Manager || role_eqb (my_role user) Admin)
  then (t, Nekad)
  else
    match c with
    | SparaSkift person position place day start_t end_t =>
        match id_of_person d person with
        | Some uid =>
            (insert_shift t uid day start_t end_t position place, SkiftSparat)
        | None => (t, IndexFel)
        end
    | _ =>
        match week_table d t base with
        | [] => (t, IngaSkift)
        | shown =>
            match c with
            | RaderaValda sel =>
                match multiselect (map (fun r => sh_id (fst r)) shown) sel with
                | [] => (t, Veckan)
                | ids => (delete_shifts t ids, Raderat)
                end
            | _ => (t, Veckan)
            end
        end
    end.

(** *** Huvudapp: [main], lines 472-511 *)

Record app_state := mkApp {
  store : db;
  schedule : shift_table;
  session : option principal
}.

(** The widgets of the login page. *)
Record login_form := mkLogin {
  l_username : string;
  l_typed_digest : string;
  l_pin : string;
  l_pressed : login_button
}.

(** The entry of the sidebar menu that is selected, with the widgets of its
    view. *)
Inductive menu :=
| Stampelklocka (text place : string) (now : datetime) (pressed : button)
| Schema (base : date) (c : schedule_click)
| GodkannTider (start stop : date) (pressed : bool) (sel_id : field Z)
               (new_in new_out : field datetime) (approve : bool)
| Rapporter (start stop : date)
| Personal (f : person_form) (pressed : bool)
| LoggaUt.

(** One run of the script.  Without a session only the login page is drawn;
    with one, only the selected view. *)
Definition main (a : app_state) (l : login_form) (choice : menu)
  : app_state :=
  let d := ensure_seed_admin (store a) in
  match session a with
  | None =>
      match login_ui d (l_username l) (l_typed_digest l) (l_pin l)
                     (l_pressed l) with
      | Entered who => mkApp d (schedule a) (Some who)
      | _ => mkApp d (schedule a) None
      end
  | Some user =>
      match choice with
      | Stampelklocka text place now pressed =>
          mkApp (fst (clock_view d user text place now pressed))
                (schedule a) (Some user)
      | Schema base c =>
          mkApp d (fst (schedule_view d (schedule a) user base c)) (Some user)
      | GodkannTider start stop pressed sel_id new_in new_out approve =>
          mkApp (fst (approvals_view d user start stop pressed sel_id new_in
                                     new_out approve))
                (schedule a) (Some user)
      | Rapporter _ _ => mkApp d (schedule a) (Some user)
      | Personal f pressed =>
          mkApp (fst (staff_view d user f pressed)) (schedule a) (Some user)
      | LoggaUt => mkApp d (schedule a) None
      end
  end.

(** The application before its first run: the empty database of [init_db],
    no shift, nobody logged in. *)
Definition fresh : app_state := mkApp (mkDb [] []) (mkShifts [] 0) None.

(** The states the application goes through. *)
Inductive runs : app_state -> Prop :=
| runs_fresh : runs fresh
| runs_main a l choice : runs a -> runs (main a l choice).

(** Calendar order as a comparison. *)
Definition date_compare (a b : date) : comparison :=
  match year a ?= year b with
  | Eq => match month a ?= month b with
          | Eq => day a ?= day b
          | c => c
          end
  | c => c
  end.

(** Every clock-in of the ledger is a datetime of Python. *)
Definition valid_ledger (d : db) : Prop :=
  forall p, In p (punches d) -> valid_datetime (clock_in p).

(** The keys of the two tables are keys: user ids, usernames and punch ids
    are without repetition, the register is not empty and no stored pin is
    the empty text. *)
Definition keys_are_unique (d : db) : Prop :=
  NoDup (map u_id (users d))
  /\ NoDup (map username (users d))
  /\ NoDup (map p_id (punches d))
  /\ users d <> []
  /\ (forall u, In u (users d) -> pin u <> Some EmptyString).

(** Every punch belongs to a worker of the register, and so does the
    session. *)
Definition linked (a : app_state) : Prop :=
  (forall who, session a = Some who ->
               In (me who) (map u_id (users (store a))))
  /\ (forall p, In p (punches (store a)) ->
                In (user_id p) (map u_id (users (store a)))).

(** Whether the row of the join has a worker. *)
Definition has_worker (r : joined) : bool :=
  match snd r with Some _ => true | None => false end.

Definition last_date : date := mkDate 9999 12 31.
Definition first_date : date := mkDate 1 1 1.

(** Shift ids are unique, all of them at most the counter, and every shift
    is assigned to a worker of the register. *)
Definition schedule_is_sound (a : app_state) : Prop :=
  NoDup (map sh_id (sh_rows (schedule a)))
  /\ (forall s, In s (sh_rows (schedule a)) ->
                1 <= sh_id s <= sh_seq (schedule a))
  /\ 0 <= sh_seq (schedule a)
  /\ (forall s, In s (sh_rows (schedule a)) ->
                exists uid, sh_user_id s = Some uid
                            /\ In uid (map u_id (users (store a)))).

(** Two shifts of Erik, one in the week of 5 March and one a week later. *)
Definition two_shifts : shift_table :=
  mkShifts [mkShift 1 (Some 3) tuesday (mkTimeOfDay 10 0) (mkTimeOfDay 18 0)
                    "Bar" "Matsal";
            mkShift 2 (Some 3) (mkDate 2024 3 12) (mkTimeOfDay 10 0)
                    (mkTimeOfDay 18 0) "Bar" "Matsal"] 2.

(** Anna logs in, plans a shift for Erik, and deletes it again. *)
Definition anna_plans : app_state :=
  main (main fresh (mkLogin "" "" "1111" LoggaInViaPIN) LoggaUt)
       (mkLogin "" "" "" NoLogin)
       (Schema tuesday (SparaSkift "Erik Ek" "Bar" "Matsal" tuesday
                                   (mkTimeOfDay 10 0) (mkTimeOfDay 18 0))).

Definition anna_deletes : app_state :=
  main anna_plans (mkLogin "" "" "" NoLogin) (Schema tuesday (RaderaValda [1])).

(** * Properties *)

(** ** The calendar *)

Example isoformat_sample :
  isoformat (mkDatetime (mkDate 2024 3 5) 9 0 7 0) = "2024-03-05T09:00:07"%string
  /\ isoformat (mkDatetime (mkDate 2024 3 5) 9 0 7 120) = "2024-03-05T09:00:07.000120"%string
  /\ sqlite_datetime (mkDatetime (mkDate 2024 3 5) 9 0 7 120) = "2024-03-05 09:00:07"%string
  /\ sqlite_datetime_plus_1_day (mkDate 2024 2 29) = "2024-03-01 00:00:00"%string
  /\ sqlite_datetime_plus_1_day (mkDate 2023 12 31) = "2024-01-01 00:00:00"%string
  /\ ymd2ord (mkDate 2024 3 5) = 738950.
Proof. repeat split; reflexivity. Qed.

(** ** Rows and updates *)

Lemma db_eta (d : db) : mkDb (users d) (punches d) = d.
Proof. now destruct d. Qed.

Lemma map_fixed {A : Type} (f : A -> A) (l : list A) :
  (forall x, In x l -> f x = x) -> map f l = l.
Proof.
  induction l as [|a l IH]; intros H; simpl; [reflexivity|].
  rewrite H by now left.
  f_equal. apply IH. intros x Hx. apply H. now right.
Qed.

Lemma set_approved_same (p : punch_row) : set_approved (approved p) p = p.
Proof. now destruct p. Qed.

Lemma find_map_keeping_id (g : punch_row -> punch_row) (id : Z)
      (l : list punch_row) :
  (forall p, p_id (g p) = p_id p) ->
  find (fun p => p_id p =? id) (map g l)
  = option_map g (find (fun p => p_id p =? id) l).
Proof.
  intros Hg. induction l as [|a l IH]; simpl; [reflexivity|].
  rewrite Hg. destruct (p_id a =? id); [reflexivity | exact IH].
Qed.

Lemma find_app_some {A : Type} (f : A -> bool) (l l' : list A) (x : A) :
  find f l = Some x -> find f (l ++ l') = Some x.
Proof.
  induction l as [|a l IH]; simpl; [discriminate|].
  destruct (f a); [trivial | exact IH].
Qed.

(** The flag of a row after [UPDATE punches SET ... WHERE id=i], for an
    update [f] that keeps ids. *)
Lemma approved_of_update (d : db) (i id : Z) (f : punch_row -> punch_row) :
  (forall p, p_id (f p) = p_id p) ->
  approved_of (update_punches d i f) id
  = option_map (fun p => approved (if p_id p =? i then f p else p))
               (find (fun p => p_id p =? id) (punches d)).
Proof.
  intros Hf. unfold approved_of, update_punches. simpl.
  rewrite find_map_keeping_id.
  - now destruct (find _ (punches d)).
  - intros p. destruct (p_id p =? i); [apply Hf | reflexivity].
Qed.

Lemma find_id (id : Z) (l : list punch_row) (p : punch_row) :
  find (fun q => p_id q =? id) l = Some p -> p_id p = id.
Proof.
  intros H. apply find_some in H. destruct H as [_ H]. now apply Z.eqb_eq.
Qed.

Lemma find_app_none {A : Type} (f : A -> bool) (l l' : list A) :
  find f l = None -> find f (l ++ l') = find f l'.
Proof.
  induction l as [|a l IH]; simpl; [reflexivity|].
  destruct (f a); [discriminate | exact IH].
Qed.

Lemma update_punches_twice (d : db) (i : Z) (f g : punch_row -> punch_row) :
  (forall p, p_id (f p) = p_id p) ->
  update_punches (update_punches d i f) i g
  = update_punches d i (fun p => g (f p)).
Proof.
  intros Hf. unfold update_punches. simpl. f_equal.
  rewrite map_map. apply map_ext. intros p.
  destruct (p_id p =? i) eqn:E.
  - now rewrite Hf, E.
  - now rewrite E.
Qed.

(** ** The approval form *)

Lemma feedback_is_success_true (f : feedback) :
  feedback_is_success f = true -> f = Success.
Proof. now destruct f. Qed.

Lemma bind_integer_fits (i : Z) : fits_int64 i -> bind_integer i = ret i.
Proof.
  unfold fits_int64, bind_integer. intros [Hlo Hhi].
  apply Z.leb_le in Hlo. apply Z.ltb_lt in Hhi. now rewrite Hlo, Hhi.
Qed.

Lemma bind_integer_overflows (i : Z) :
  ~ fits_int64 i -> bind_integer i = raise OverflowError.
Proof.
  unfold fits_int64, bind_integer. intros H.
  destruct (- 2 ^ 63 <=? i) eqn:Elo; [|reflexivity].
  destruct (i <? 2 ^ 63) eqn:Ehi; [|reflexivity].
  apply Z.leb_le in Elo. apply Z.ltb_lt in Ehi. now contradiction H.
Qed.

Lemma bind_integer_ret (i j : Z) :
  bind_integer i = inr j -> j = i /\ fits_int64 i.
Proof.
  unfold fits_int64, bind_integer.
  destruct (- 2 ^ 63 <=? i) eqn:Elo; [|discriminate].
  destruct (i <? 2 ^ 63) eqn:Ehi; [|discriminate].
  apply Z.leb_le in Elo. apply Z.ltb_lt in Ehi.
  intros E. injection E as <-. auto.
Qed.

Lemma fits_int64_dec (i : Z) : fits_int64 i \/ ~ fits_int64 i.
Proof. unfold fits_int64. lia. Qed.

(** A save whose row id is an integer that SQLite can bind and whose
    timestamps, where supplied, are timestamps, commits: the named row
    becomes [adjusted]. *)
Lemma adjust_saves (d : db) (i : Z) (new_in new_out : field datetime)
      (approve : bool) :
  fits_int64 i -> new_in <> Unparsable -> new_out <> Unparsable ->
  adjust d true (Parsed i) new_in new_out approve
  = (update_punches d i (adjusted new_in new_out approve), Success).
Proof.
  intros Hi Hin Hout. unfold adjust, adjust_transaction.
  cbn [negb int to_datetime bind ret].
  destruct new_in as [| |tin]; [|contradiction|];
    destruct new_out as [| |tout]; try contradiction;
    cbn [int to_datetime bind ret];
    rewrite !(bind_integer_fits i Hi); cbn [bind ret];
    rewrite ?update_punches_twice by (intros p; reflexivity);
    reflexivity.
Qed.

(** Any other run of the form leaves the database as it was. *)
Lemma adjust_else_unchanged (d : db) (pressed : bool) (sel_id : field Z)
      (new_in new_out : field datetime) (approve : bool) :
  snd (adjust d pressed sel_id new_in new_out approve) <> Success ->
  fst (adjust d pressed sel_id new_in new_out approve) = d.
Proof.
  unfold adjust. destruct pressed; simpl; [|reflexivity].
  destruct sel_id; [reflexivity| |];
    (destruct (adjust_transaction _ _ _ _ _); simpl; [reflexivity|congruence]).
Qed.

Lemma adjust_success_shape (d : db) (pressed : bool) (sel_id : field Z)
      (new_in new_out : field datetime) (approve : bool) :
  snd (adjust d pressed sel_id new_in new_out approve) = Success ->
  exists i, fits_int64 i /\ pressed = true /\ sel_id = Parsed i
            /\ new_in <> Unparsable /\ new_out <> Unparsable.
Proof.
  unfold adjust, adjust_transaction.
  destruct pressed; cbn [negb]; [|discriminate].
  destruct sel_id as [| |i]; [discriminate| |].
  - destruct new_in, new_out; cbn; discriminate.
  - intros H. exists i.
    destruct (fits_int64_dec i) as [Hi|Hi].
    + split; [exact Hi|]. split; [reflexivity|]. split; [reflexivity|].
      destruct new_in, new_out; cbn [int to_datetime bind ret raise snd] in H;
        rewrite ?(bind_integer_fits i Hi) in H;
        cbn [bind ret raise snd] in H;
        try discriminate; split; discriminate.
    + exfalso.
      destruct new_in, new_out; cbn [int to_datetime bind ret raise snd] in H;
        try discriminate;
        rewrite !(bind_integer_overflows i Hi) in H; discriminate.
Qed.

(** A save that reports an error found text that does not parse or a row id
    that SQLite cannot bind. *)
Lemma adjust_error_shape (d : db) (pressed : bool) (sel_id : field Z)
      (new_in new_out : field datetime) (approve : bool) (e : exception) :
  snd (adjust d pressed sel_id new_in new_out approve) = Fel e ->
  sel_id = Unparsable \/ new_in = Unparsable \/ new_out = Unparsable
  \/ exists i, sel_id = Parsed i /\ ~ fits_int64 i.
Proof.
  intros H.
  destruct pressed; [|discriminate].
  destruct sel_id as [| |i]; [discriminate|now left|].
  destruct new_in as [| |tin]; [|now right; left|];
    (destruct new_out as [| |tout]; [|now right; right; left|]);
    (destruct (fits_int64_dec i) as [Hi|Hi];
     [rewrite adjust_saves in H by (assumption || discriminate); discriminate
     |right; right; right; now exists i]).
Qed.

(** C1, as amended: a save with no new clock-in, no new clock-out and the
    approve box unticked, on a row id that SQLite can bind (as the id of
    every stored row is), rewrites nothing but the approved flag of the named
    row, which it sets to 0; every other field and every other row is as
    before, and when the row was unapproved already the database is
    identical to the one before the call. *)
Theorem adjust_no_fields_resets_flag (d : db) (i : Z) :
  fits_int64 i ->
  adjust d true (Parsed i) Blank Blank false
  = (mkDb (users d)
          (map (fun p => if p_id p =? i then set_approved 0 p else p)
               (punches d)),
     Success)
  /\ ((forall p, In p (punches d) -> p_id p = i -> approved p = 0) ->
      adjust d true (Parsed i) Blank Blank false = (d, Success)).
Proof.
  intros Hi.
  assert (E0 : adjust d true (Parsed i) Blank Blank false
               = (mkDb (users d)
                       (map (fun p => if p_id p =? i then set_approved 0 p
                                      else p)
                            (punches d)),
                  Success)).
  { unfold adjust, adjust_transaction.
    cbn [negb int bind ret]. rewrite (bind_integer_fits i Hi).
    reflexivity. }
  split; [exact E0|].
  intros H. rewrite E0.
  rewrite map_fixed; [now rewrite db_eta|].
  intros p Hp. destruct (p_id p =? i) eqn:E; [|reflexivity].
  apply Z.eqb_eq in E. rewrite <- (H p Hp E). apply set_approved_same.
Qed.

Lemma adjust_no_fields_resets_flag_witness :
  fits_int64 1
  /\ map (fun p => (p_id p, clock_in p, clock_out p, approved p))
         (punches erik_approved)
     = [(1, clock tuesday 9 0, None, 1)]
  /\ map (fun p => (p_id p, clock_in p, clock_out p, approved p))
         (punches (fst (adjust erik_approved true (Parsed 1) Blank Blank
                               false)))
     = [(1, clock tuesday 9 0, None, 0)]
  /\ adjust erik_at_work true (Parsed 1) Blank Blank false
     = (erik_at_work, Success).
Proof.
  assert (H1 : fits_int64 1) by (unfold fits_int64; lia).
  split; [exact H1|]. split; [reflexivity|]. split.
  - rewrite (proj1 (adjust_no_fields_resets_flag erik_approved 1 H1)).
    reflexivity.
  - apply (proj2 (adjust_no_fields_resets_flag erik_at_work 1 H1)).
    intros p [<-|[]] _. reflexivity.
Defined.

(** C1, as stated, fails: the approved punch of [erik_approved] is
    unapproved by a save that supplies no field. *)
Lemma adjust_no_fields_changes_record :
  map approved (punches erik_approved) = [1]
  /\ map approved
         (punches (fst (adjust erik_approved true (Parsed 1) Blank Blank false)))
     = [0].
Proof. split; reflexivity. Qed.

Lemma staff_view_keeps_punches d user f pressed :
  punches (fst (staff_view d user f pressed)) = punches d.
Proof.
  unfold staff_view.
  destruct (negb _); [reflexivity|].
  destruct (negb pressed); [reflexivity|].
  destruct (f_mode f); [|reflexivity].
  unfold insert_user. now destruct (existsb _ _).
Qed.

(** C2, as amended: clocking in or out never changes the approved flag of a
    record (a record is created unapproved), the staff form does not touch
    punches, and a committed adjustment sets the flag of the row it names to
    the approve box, ticked or not, leaving the flag of every other row. *)
Theorem approved_flag_follows_checkbox :
  (forall d user text place now pressed id a,
      approved_of d id = Some a ->
      approved_of (fst (clock_view d user text place now pressed)) id = Some a)
  /\ (forall d user text place now pressed id a,
      approved_of d id = None ->
      approved_of (fst (clock_view d user text place now pressed)) id = Some a ->
      a = 0)
  /\ (forall d user f pressed,
      punches (fst (staff_view d user f pressed)) = punches d)
  /\ (forall d pressed sel_id new_in new_out approve id a,
      approved_of d id = Some a ->
      let r := adjust d pressed sel_id new_in new_out approve in
      (snd r = Success ->
       approved_of (fst r) id
       = Some (match sel_id with
               | Parsed i => if id =? i then (if approve then 1 else 0) else a
               | _ => a
               end))
      /\ (snd r <> Success -> fst r = d)).
Proof.
  split; [|split; [|split]].
  - intros d user text place now pressed id a H.
    unfold clock_view.
    destruct (active_punch d (me user)) as [b|]; destruct pressed; simpl;
      try exact H.
    + rewrite approved_of_update by reflexivity.
      unfold approved_of in H.
      destruct (find _ (punches d)) as [p|]; [|discriminate].
      simpl in *. now destruct (p_id p =? p_id b).
    + unfold approved_of in *. simpl.
      destruct (find _ (punches d)) as [p|] eqn:E; [|discriminate].
      now rewrite (find_app_some _ _ _ _ E).
  - intros d user text place now pressed id a H.
    unfold clock_view.
    destruct (active_punch d (me user)) as [b|]; destruct pressed; simpl;
      try (rewrite H; discriminate).
    + rewrite approved_of_update by reflexivity.
      unfold approved_of in H.
      destruct (find _ (punches d)) as [p|]; simpl in *; discriminate.
    + unfold approved_of in *. simpl.
      destruct (find _ (punches d)) as [p|] eqn:E; [discriminate|].
      rewrite (find_app_none _ _ _ E). simpl.
      destruct (_ =? id); simpl; congruence.
  - apply staff_view_keeps_punches.
  - intros d pressed sel_id new_in new_out approve id a H r. subst r.
    split; [|apply adjust_else_unchanged].
    intros Hs.
    destruct (adjust_success_shape _ _ _ _ _ _ Hs)
      as (i & Hi & -> & -> & Hin & Hout).
    rewrite adjust_saves by assumption. simpl.
    rewrite approved_of_update by reflexivity.
    unfold approved_of in H.
    destruct (find _ (punches d)) as [p|] eqn:E; [|discriminate].
    simpl in *. rewrite (find_id _ _ _ E).
    destruct (id =? i); simpl; congruence.
Qed.

(** C2, as stated, fails: Erik's punch goes from approved back to unapproved
    when the form is saved with the approve box unticked. *)
Lemma approved_flag_can_be_cleared :
  reachable erik_approved
  /\ approved_of erik_approved 1 = Some 1
  /\ approved_of
       (fst (approvals_view erik_approved anna monday tuesday true
                            (Parsed 1) Blank Blank false)) 1
     = Some 0.
Proof.
  split; [|split; reflexivity].
  apply reachable_step with (d := erik_at_work).
  - apply reachable_step with (d := seeded); [constructor|].
    apply step_clock.
  - apply (step_approvals erik_at_work anna monday tuesday true
                          (Parsed 1) Blank Blank true).
Qed.

(** C3, as amended: the save handler compares no timestamps.  Whenever the
    row id is an integer that SQLite can bind (64 bits, signed) and the
    supplied timestamps parse, the save commits and overwrites the columns
    with what was supplied, whatever the order of the resulting clock-in and
    clock-out.  A save fails only on text that does not parse or on a row id
    that does not fit 64 bits, never on the order of the timestamps: a row id
    that does not fit makes every save fail with OverflowError, and after a
    failed save (as after every run that does not commit) the database is
    unchanged. *)
Theorem adjust_never_validates_order (d : db) (i : Z)
        (new_in new_out : field datetime) (approve : bool) :
  fits_int64 i -> new_in <> Unparsable -> new_out <> Unparsable ->
  adjust d true (Parsed i) new_in new_out approve
  = (mkDb (users d)
          (map (fun p => if p_id p =? i
                         then adjusted new_in new_out approve p else p)
               (punches d)),
     Success)
  /\ (forall pressed sel_id tin tout e,
         snd (adjust d pressed sel_id tin tout approve) = Fel e ->
         (sel_id = Unparsable \/ tin = Unparsable \/ tout = Unparsable
          \/ exists j, sel_id = Parsed j /\ ~ fits_int64 j)
         /\ fst (adjust d pressed sel_id tin tout approve) = d)
  /\ (forall j tin tout,
         ~ fits_int64 j -> tin <> Unparsable -> tout <> Unparsable ->
         adjust d true (Parsed j) tin tout approve = (d, Fel OverflowError)).
Proof.
  intros Hi Hin Hout. split; [now apply adjust_saves|]. split.
  - intros pressed sel_id tin tout e H. split.
    + exact (adjust_error_shape _ _ _ _ _ _ _ H).
    + apply adjust_else_unchanged. rewrite H. discriminate.
  - intros j tin tout Hj Htin Htout. unfold adjust, adjust_transaction.
    destruct tin as [| |tin]; [|contradiction|];
      (destruct tout as [| |tout]; [|contradiction|]);
      cbn [negb int to_datetime bind ret];
      rewrite !(bind_integer_overflows j Hj); reflexivity.
Qed.

Lemma adjust_never_validates_order_witness :
  fits_int64 1
  /\ (Blank : field datetime) <> Unparsable
  /\ Parsed (clock tuesday 8 0) <> Unparsable
  /\ map (fun p => (clock_in p, clock_out p))
         (punches (fst (adjust erik_at_work true (Parsed 1) Blank
                               (Parsed (clock tuesday 8 0)) false)))
     = [(clock tuesday 9 0, Some (clock tuesday 8 0))]
  /\ adjust erik_at_work true (Parsed (2 ^ 63)) Blank
            (Parsed (clock tuesday 8 0)) false
     = (erik_at_work, Fel OverflowError).
Proof.
  assert (H1 : fits_int64 1) by (unfold fits_int64; lia).
  split; [exact H1|]. split; [discriminate|]. split; [discriminate|].
  split.
  - rewrite (proj1 (adjust_never_validates_order erik_at_work 1 Blank
                      (Parsed (clock tuesday 8 0)) false H1
                      ltac:(discriminate) ltac:(discriminate))).
    reflexivity.
  - reflexivity.
Defined.

(** C3, as stated, fails: Erik clocked in at 09:00; a save with new clock-out
    08:00 of the same day is accepted and leaves a closed record whose
    clock-out precedes its clock-in. *)
Lemma adjust_accepts_clock_out_before_clock_in :
  snd (adjust erik_at_work true (Parsed 1) Blank (Parsed (clock tuesday 8 0))
              false) = Success
  /\ exists p out,
       punches (fst (adjust erik_at_work true (Parsed 1) Blank
                            (Parsed (clock tuesday 8 0)) false)) = [p]
       /\ clock_out p = Some out
       /\ to_micros out < to_micros (clock_in p).
Proof.
  split; [reflexivity|].
  eexists; eexists. split; [reflexivity|]. split; [reflexivity|].
  vm_compute. reflexivity.
Qed.

(** ** The punch clock *)

Lemma newest_some (l : list punch_row) (b : punch_row) :
  exists a, fold_left newest l (Some b) = Some a /\ (a = b \/ In a l).
Proof.
  revert b. induction l as [|p l IH]; intros b; simpl.
  - exists b. auto.
  - destruct (p_id b <? p_id p).
    + destruct (IH p) as (a & E & Ha). exists a. split; [exact E|].
      right. destruct Ha as [Ha|Ha]; [now left | now right].
    + destruct (IH b) as (a & E & Ha). exists a. split; [exact E|].
      destruct Ha as [Ha|Ha]; [now left | now right; right].
Qed.

Lemma active_punch_none (d : db) (uid : Z) :
  active_punch d uid = None -> open_punches d uid = [].
Proof.
  unfold active_punch, open_punches.
  destruct (filter _ (punches d)) as [|p l]; [reflexivity|].
  simpl. destruct (newest_some l p) as (a & -> & _). discriminate.
Qed.

Lemma active_punch_some (d : db) (uid : Z) (a : punch_row) :
  active_punch d uid = Some a ->
  In a (punches d) /\ user_id a = uid /\ clock_out a = None.
Proof.
  unfold active_punch. intros H.
  assert (Ha : In a (filter (fun p => (user_id p =? uid) && is_open p)
                            (punches d))).
  { destruct (filter _ (punches d)) as [|p l]; [discriminate|].
    simpl in H. destruct (newest_some l p) as (a' & E & Hin).
    rewrite E in H. injection H as <-.
    destruct Hin as [->|Hin]; [now left | now right]. }
  apply filter_In in Ha. destruct Ha as [Hin Hb].
  apply andb_true_iff in Hb. destruct Hb as [Hu Ho].
  split; [exact Hin|]. split; [now apply Z.eqb_eq|].
  unfold is_open in Ho. now destruct (clock_out a).
Qed.

Lemma append_empty (s : string) : (s ++ "")%string = s.
Proof. induction s as [|c s IH]; simpl; [reflexivity | now rewrite IH]. Qed.

(** What [COALESCE(col,'') || ?] holds: the prior content first, then the
    text that was typed, a line feed between the two when text was typed. *)
Lemma appended_keeps_prior (col : option string) (text : string) :
  exists sep,
    appended col text
    = Some ((match col with Some s => s | None => EmptyString end)
            ++ sep ++ text)%string
    /\ (sep = EmptyString \/ sep = newline).
Proof.
  unfold appended. destruct (String.eqb_spec text EmptyString) as [->|_].
  - exists EmptyString. split; [reflexivity | now left].
  - exists newline. split; [reflexivity | now right].
Qed.

(** C9: when the user has an open punch [a], Stämpla UT rewrites that row
    only: its clock-out becomes the current time, its note and location
    become the prior content (the empty text for NULL) followed by the
    supplied text, and clock-in, owner and flag stay. *)
Theorem clock_out_appends_note_and_location
        (d : db) (user : principal) (text place : string) (now : datetime)
        (a : punch_row) :
  active_punch d (me user) = Some a ->
  let r := clock_view d user text place now StamplaUT in
  snd r = Success
  /\ In a (punches d) /\ user_id a = me user /\ clock_out a = None
  /\ users (fst r) = users d
  /\ punches (fst r)
     = map (fun p => if p_id p =? p_id a
                     then stamp_out now text place p else p) (punches d)
  /\ In (stamp_out now text place a) (punches (fst r))
  /\ clock_out (stamp_out now text place a) = Some now
  /\ (exists sep,
         note (stamp_out now text place a)
         = Some ((match note a with Some s => s | None => EmptyString end)
                 ++ sep ++ text)%string
         /\ (sep = EmptyString \/ sep = newline))
  /\ (exists sep,
         location (stamp_out now text place a)
         = Some ((match location a with Some s => s | None => EmptyString end)
                 ++ sep ++ place)%string
         /\ (sep = EmptyString \/ sep = newline))
  /\ clock_in (stamp_out now text place a) = clock_in a
  /\ user_id (stamp_out now text place a) = user_id a
  /\ approved (stamp_out now text place a) = approved a.
Proof.
  intros H r. subst r. unfold clock_view. rewrite H. simpl.
  destruct (active_punch_some _ _ _ H) as (Hin & Hu & Ho).
  repeat (split; [first [reflexivity | assumption]|]).
  split.
  { apply in_map_iff. exists a. now rewrite Z.eqb_refl. }
  split; [reflexivity|].
  split; [apply appended_keeps_prior|].
  split; [apply appended_keeps_prior|].
  repeat split.
Qed.

Lemma clock_out_appends_note_and_location_witness :
  active_punch erik_at_work (me erik)
  = Some (mkPunch 1 3 (clock tuesday 9 0) None (Some ""%string)
                  (Some ""%string) 0)
  /\ map (fun p => (clock_out p, note p, location p))
         (punches (fst (clock_view erik_at_work erik "late" "Bar"
                                   (clock tuesday 18 0) StamplaUT)))
     = [(Some (clock tuesday 18 0),
         Some (newline ++ "late")%string, Some (newline ++ "Bar")%string)].
Proof.
  split; [reflexivity|].
  pose proof (clock_out_appends_note_and_location erik_at_work erik
                "late" "Bar" (clock tuesday 18 0) _ eq_refl) as H.
  cbv zeta in H. destruct H as (_ & _ & _ & _ & _ & H & _).
  rewrite H. reflexivity.
Defined.

(** ** The staff register *)

Lemma existsb_username (us : list user_row) (name : string) :
  existsb (fun u => String.eqb (username u) name) us = true
  <-> exists u, In u us /\ username u = name.
Proof.
  rewrite existsb_exists. split; intros (u & Hu & E); exists u;
    (split; [exact Hu|]); now apply String.eqb_eq.
Qed.

(** C4, as amended: in mode Ny the only conflict the register detects is on
    the username.  With a username that no row has, the save appends exactly
    one row, whose pin is the one of the form even when another worker
    already has it, and changes no existing row; with a username that a row
    has, the insert raises and the register is unchanged. *)
Theorem create_conflicts_on_username_only
        (d : db) (user : principal) (f : person_form) :
  my_role user = Admin -> f_mode f = Ny ->
  ((forall u, In u (users d) -> username u <> f_username f) ->
   staff_view d user f true
   = (mkDb (users d ++
            [mkUser (next_rowid (map u_id (users d)))
                    (f_username f) (f_full_name f)
                    (match f_pw_digest f with
                     | Some h => h
                     | None => changeme_digest
                     end)
                    (f_role f) (f_hourly f) (pin_or_none (f_pin f))])
           (punches d),
      Success))
  /\ ((exists u, In u (users d) /\ username u = f_username f) ->
      staff_view d user f true = (d, Raised IntegrityError)).
Proof.
  intros Hr Hm. unfold staff_view, insert_user. rewrite Hr, Hm. simpl.
  split; intros H.
  - destruct (existsb _ (users d)) eqn:E; [|reflexivity].
    apply existsb_username in E. destruct E as (u & Hu & E).
    now destruct (H u Hu).
  - apply existsb_username in H. now rewrite H.
Qed.

Lemma create_conflicts_on_username_only_witness :
  my_role admin = Admin /\ f_mode bo_form = Ny
  /\ map pin (users (fst (staff_view seeded admin bo_form true)))
     = [Some "0000"; Some "1111"; Some "2222"; Some "2222"]%string
  /\ staff_view seeded admin erik_again_form true
     = (seeded, Raised IntegrityError).
Proof.
  split; [reflexivity|]. split; [reflexivity|]. split.
  - rewrite (proj1 (create_conflicts_on_username_only seeded admin bo_form
                      eq_refl eq_refl)).
    + reflexivity.
    + intros u Hu. simpl in Hu.
      destruct Hu as [<-|[<-|[<-|[]]]]; discriminate.
  - apply (proj2 (create_conflicts_on_username_only seeded admin
                    erik_again_form eq_refl eq_refl)).
    eexists. split; [right; right; left; reflexivity | reflexivity].
Defined.

(** C4, as stated, fails: the register takes a new worker whose pin is
    Erik's, and has one row more afterwards. *)
Lemma create_accepts_duplicate_pin :
  existsb (fun u => match pin u with
                    | Some s => String.eqb s (f_pin bo_form)
                    | None => false
                    end) (users seeded) = true
  /\ snd (staff_view seeded admin bo_form true) = Success
  /\ List.length (users seeded) = 3%nat
  /\ List.length (users (fst (staff_view seeded admin bo_form true))) = 4%nat.
Proof. repeat split; reflexivity. Qed.

(** ** At most one open punch per worker *)

Lemma open_punches_update (d : db) (i uid : Z) (f : punch_row -> punch_row) :
  (forall p, user_id (f p) = user_id p) ->
  (forall p, is_open (f p) = true -> is_open p = true) ->
  (List.length (open_punches (update_punches d i f) uid)
   <= List.length (open_punches d uid))%nat.
Proof.
  intros Hu Ho. unfold open_punches, update_punches. simpl.
  induction (punches d) as [|p l IH]; simpl; [lia|].
  destruct (p_id p =? i).
  - rewrite Hu. destruct (user_id p =? uid); simpl; [|exact IH].
    destruct (is_open (f p)) eqn:E.
    + rewrite (Ho p E). simpl. lia.
    + destruct (is_open p); simpl; lia.
  - destruct ((user_id p =? uid) && is_open p); simpl; lia.
Qed.

Lemma open_punches_stamp_in (d : db) (uid uid' : Z) (now : datetime)
      (text place : string) :
  open_punches (stamp_in d uid now text place) uid'
  = open_punches d uid'
    ++ (if uid =? uid'
        then [mkPunch (next_rowid (map p_id (punches d))) uid now None
                      (Some text) (Some place) 0]
        else []).
Proof.
  unfold open_punches, stamp_in. simpl. rewrite filter_app. simpl.
  now destruct (uid =? uid').
Qed.

Lemma clock_view_keeps_one_open d user text place now pressed :
  one_open_each d ->
  one_open_each (fst (clock_view d user text place now pressed)).
Proof.
  intros H uid. unfold clock_view.
  destruct (active_punch d (me user)) as [a|] eqn:E;
    destruct pressed; simpl; try apply H.
  - etransitivity; [apply open_punches_update|apply H].
    + reflexivity.
    + intros p. discriminate.
  - rewrite open_punches_stamp_in, length_app.
    destruct (me user =? uid) eqn:Eu; simpl.
    + apply Z.eqb_eq in Eu. subst uid.
      rewrite (active_punch_none _ _ E). simpl. lia.
    + specialize (H uid). lia.
Qed.

Lemma adjust_keeps_one_open d pressed sel_id new_in new_out approve :
  one_open_each d ->
  one_open_each (fst (adjust d pressed sel_id new_in new_out approve)).
Proof.
  intros H.
  destruct (feedback_is_success
              (snd (adjust d pressed sel_id new_in new_out approve))) eqn:Es.
  - apply feedback_is_success_true in Es.
    destruct (adjust_success_shape _ _ _ _ _ _ Es)
      as (i & Hfit & -> & -> & Hi & Ho).
    rewrite adjust_saves by assumption. simpl. intros uid.
    etransitivity; [apply open_punches_update|apply H].
    + reflexivity.
    + intros p. unfold adjusted, is_open. simpl.
      destruct new_out; [trivial|trivial|discriminate].
  - rewrite adjust_else_unchanged; [exact H|].
    intros E. rewrite E in Es. discriminate.
Qed.

Lemma step_keeps_one_open (d d' : db) :
  step d d' -> one_open_each d -> one_open_each d'.
Proof.
  intros [d0 user text place now pressed
         | d0 user f pressed
         | d0 user start stop pressed sel_id new_in new_out approve] H.
  - now apply clock_view_keeps_one_open.
  - intros uid. unfold open_punches.
    rewrite staff_view_keeps_punches.
    apply H.
  - unfold approvals_view.
    destruct (negb _); [exact H|].
    destruct (approvals_query _ _ _); [exact H|].
    destruct (to_datetime_columns _); [exact H|].
    now apply adjust_keeps_one_open.
Qed.

Lemma reachable_one_open (d : db) : reachable d -> one_open_each d.
Proof.
  induction 1 as [|d d' _ IH Hs].
  - intros uid. simpl. lia.
  - exact (step_keeps_one_open d d' Hs IH).
Qed.

(** A click on Stämpla IN while the worker has an open punch reaches a run
    that draws Stämpla UT only: nothing is written and nothing is reported. *)
Lemma clock_in_while_open_is_idle d user text place now p :
  In p (open_punches d (me user)) ->
  clock_view d user text place now StamplaIN = (d, Quiet).
Proof.
  intros Hp. unfold clock_view.
  destruct (active_punch d (me user)) eqn:E; [reflexivity|].
  rewrite (active_punch_none _ _ E) in Hp. destruct Hp.
Qed.

(** C5, as amended: in every state the application reaches, each worker has
    at most one punch without clock-out; a clock-in by a worker who has an
    open punch writes no record, and it is refused without any error (the
    run reports nothing), the button not being offered. *)
Theorem one_open_punch_per_worker (d : db) :
  reachable d ->
  (forall uid, (List.length (open_punches d uid) <= 1)%nat)
  /\ (forall user text place now p,
         In p (open_punches d (me user)) ->
         clock_view d user text place now StamplaIN = (d, Quiet)).
Proof.
  intros H. split.
  - exact (reachable_one_open d H).
  - intros user text place now p. apply clock_in_while_open_is_idle.
Qed.

Lemma one_open_punch_per_worker_witness :
  reachable erik_at_work
  /\ List.length (open_punches erik_at_work 3) = 1%nat
  /\ clock_view erik_at_work erik "" "" (clock tuesday 9 30) StamplaIN
     = (erik_at_work, Quiet).
Proof.
  assert (R : reachable erik_at_work).
  { apply reachable_step with (d := seeded); [constructor | apply step_clock]. }
  split; [exact R|]. split; [reflexivity|].
  apply (proj2 (one_open_punch_per_worker erik_at_work R) erik
               EmptyString EmptyString (clock tuesday 9 30)
               (mkPunch 1 3 (clock tuesday 9 0) None (Some ""%string)
                        (Some ""%string) 0)).
  left. reflexivity.
Defined.

(** C5, as stated, fails on the error: Erik, who has an open punch, clicks
    Stämpla IN again; the run raises and reports nothing, and the ledger
    still holds his one punch. *)
Lemma second_clock_in_raises_nothing :
  reachable erik_at_work
  /\ List.length (open_punches erik_at_work (me erik)) = 1%nat
  /\ snd (clock_view erik_at_work erik "" "" (clock tuesday 9 30) StamplaIN)
     = Quiet
  /\ fst (clock_view erik_at_work erik "" "" (clock tuesday 9 30) StamplaIN)
     = erik_at_work.
Proof.
  split; [|repeat split; reflexivity].
  apply reachable_step with (d := seeded); [constructor | apply step_clock].
Qed.

(** ** The report: sorting and grouping *)

Section SortingFacts.
Context {A : Type} (leb : A -> A -> bool).

Lemma insert_sorted_perm (x : A) (l : list A) :
  Permutation (x :: l) (insert_sorted leb x l).
Proof.
  induction l as [|y l IH]; simpl; [reflexivity|].
  destruct (leb x y); [reflexivity|].
  rewrite perm_swap. now constructor.
Qed.

Lemma sort_by_perm (l : list A) : Permutation l (sort_by leb l).
Proof.
  induction l as [|x l IH]; simpl; [constructor|].
  rewrite <- insert_sorted_perm. now constructor.
Qed.

Lemma sort_by_in (l : list A) (x : A) : In x (sort_by leb l) <-> In x l.
Proof.
  split; apply Permutation_in;
    [symmetry|]; apply sort_by_perm.
Qed.
End SortingFacts.

Lemma date_eqb_eq (a b : date) : date_eqb a b = true <-> a = b.
Proof.
  unfold date_eqb. destruct a as [y m d], b as [y' m' d']. simpl.
  rewrite !andb_true_iff, !Z.eqb_eq. split.
  - intros [[-> ->] ->]. reflexivity.
  - intros E. injection E as -> -> ->. auto.
Qed.

Lemma key_eqb_eq (a b : key) : key_eqb a b = true <-> a = b.
Proof.
  unfold key_eqb. destruct a as [n d], b as [n' d']. simpl.
  rewrite andb_true_iff, String.eqb_eq, date_eqb_eq. split.
  - intros [-> ->]. reflexivity.
  - intros E. injection E as -> ->. auto.
Qed.

Lemma key_eqb_refl (k : key) : key_eqb k k = true.
Proof. now apply key_eqb_eq. Qed.

Lemma in_keys_of (rows : list joined) (k : key) :
  In k (keys_of rows) <-> exists r, In r rows /\ key_of r = Some k.
Proof.
  induction rows as [|r rows IH]; simpl.
  - split; [intros [] | intros (r & [] & _)].
  - destruct (key_of r) as [k'|] eqn:E; simpl; rewrite IH; split.
    + intros [->|(r' & Hr & Hk)]; [exists r | exists r']; auto.
    + intros (r' & [<-|Hr] & Hk); [left; congruence | right; eauto].
    + intros (r' & Hr & Hk). eauto.
    + intros (r' & [<-|Hr] & Hk); [congruence | eauto].
Qed.

Lemma existsb_key (k : key) (ks : list key) :
  existsb (key_eqb k) ks = true <-> In k ks.
Proof.
  rewrite existsb_exists. split.
  - intros (k' & Hk & E). apply key_eqb_eq in E. now subst.
  - intros H. exists k. split; [exact H | apply key_eqb_refl].
Qed.

Lemma distinct_in (ks : list key) (k : key) : In k (distinct ks) <-> In k ks.
Proof.
  revert k. induction ks as [|k' ks IH]; intros k; simpl; [reflexivity|].
  destruct (existsb (key_eqb k') (distinct ks)) eqn:E; simpl; rewrite IH.
  - apply existsb_key, IH in E. split; [auto|]. intros [<-|H]; auto.
  - reflexivity.
Qed.

Lemma distinct_nodup (ks : list key) : NoDup (distinct ks).
Proof.
  induction ks as [|k ks IH]; simpl; [constructor|].
  destruct (existsb (key_eqb k) (distinct ks)) eqn:E; [exact IH|].
  constructor; [|exact IH].
  intros H. apply existsb_key in H. congruence.
Qed.

Lemma group_keys_in (rows : list joined) (k : key) :
  In k (group_keys rows) <-> exists r, In r rows /\ key_of r = Some k.
Proof.
  unfold group_keys. now rewrite sort_by_in, distinct_in, in_keys_of.
Qed.

Lemma group_keys_nodup (rows : list joined) : NoDup (group_keys rows).
Proof.
  unfold group_keys.
  eapply Permutation_NoDup; [apply sort_by_perm | apply distinct_nodup].
Qed.

(** ** The timestamp columns of a frame *)

Lemma first_text_in (col : list (option datetime)) (t : datetime) :
  first_text col = Some t -> In (Some t) col.
Proof.
  induction col as [|[u|] col IH]; simpl; [discriminate| |].
  - intros E. injection E as ->. now left.
  - intros E. right. now apply IH.
Qed.

Lemma first_text_none (col : list (option datetime)) (t : datetime) :
  first_text col = None -> ~ In (Some t) col.
Proof.
  induction col as [|[u|] col IH]; simpl; [auto|discriminate|].
  intros E [H|H]; [discriminate | now apply IH].
Qed.

(** A column parses exactly when its texts are of one precision. *)
Lemma column_parses_iff (col : list (option datetime)) :
  column_parses col = true
  <-> forall t u, In (Some t) col -> In (Some u) col ->
                  has_fraction t = has_fraction u.
Proof.
  unfold column_parses. destruct (first_text col) as [t0|] eqn:E.
  - rewrite forallb_forall. split.
    + intros H t u Ht Hu.
      apply H in Ht. apply H in Hu.
      apply Bool.eqb_prop in Ht. apply Bool.eqb_prop in Hu. congruence.
    + intros H [u|] Hu; [|reflexivity].
      rewrite (H u t0 Hu (first_text_in _ _ E)). apply Bool.eqb_reflx.
  - split; [|reflexivity]. intros _ t u Ht _.
    now destruct (first_text_none _ t E).
Qed.

Lemma to_datetime_columns_iff (df : list joined) :
  to_datetime_columns df = inr df <-> one_precision df.
Proof.
  unfold to_datetime_columns, one_precision.
  destruct (column_parses (map (fun r => Some (clock_in (fst r))) df))
    eqn:E1;
    destruct (column_parses (map (fun r => clock_out (fst r)) df)) eqn:E2;
    cbn [andb].
  - split; [intros _|reflexivity].
    pose proof (proj1 (column_parses_iff _) E1) as P1.
    pose proof (proj1 (column_parses_iff _) E2) as P2.
    clear E1 E2.
    split.
    + intros r r' Hr Hr'. apply P1.
      * apply in_map_iff. now exists r.
      * apply in_map_iff. now exists r'.
    + intros r r' out out' Hr Hr' Ho Ho'. apply P2.
      * apply in_map_iff. exists r. auto.
      * apply in_map_iff. exists r'. auto.
  - split; [discriminate|]. intros [_ H]. exfalso.
    assert (C : column_parses (map (fun r => clock_out (fst r)) df) = true).
    { apply column_parses_iff. intros t u Ht Hu.
      apply in_map_iff in Ht. destruct Ht as (r & Er & Hr).
      apply in_map_iff in Hu. destruct Hu as (r' & Er' & Hr').
      now apply (H r r' t u). }
    congruence.
  - split; [discriminate|]. intros [H _]. exfalso.
    assert (C : column_parses (map (fun r => Some (clock_in (fst r))) df)
                = true).
    { apply column_parses_iff. intros t u Ht Hu.
      apply in_map_iff in Ht. destruct Ht as (r & Er & Hr).
      apply in_map_iff in Hu. destruct Hu as (r' & Er' & Hr').
      injection Er as <-. injection Er' as <-. now apply H. }
    congruence.
  - split; [discriminate|]. intros [H _]. exfalso.
    assert (C : column_parses (map (fun r => Some (clock_in (fst r))) df)
                = true).
    { apply column_parses_iff. intros t u Ht Hu.
      apply in_map_iff in Ht. destruct Ht as (r & Er & Hr).
      apply in_map_iff in Hu. destruct Hu as (r' & Er' & Hr').
      injection Er as <-. injection Er' as <-. now apply H. }
    congruence.
Qed.

(** The parse either returns the frame or raises ValueError. *)
Lemma to_datetime_columns_cases (df : list joined) :
  (to_datetime_columns df = inr df /\ one_precision df)
  \/ (to_datetime_columns df = inl ValueError /\ ~ one_precision df).
Proof.
  pose proof (to_datetime_columns_iff df) as H.
  unfold to_datetime_columns in *.
  destruct (_ && _).
  - left. split; [reflexivity|]. now apply H.
  - right. split; [reflexivity|]. intros C. apply H in C. discriminate.
Qed.

Lemma one_precision_same_rows (df df' : list joined) :
  (forall r, In r df' -> In r df) -> one_precision df -> one_precision df'.
Proof.
  intros Hin [H1 H2]. split.
  - intros r r' Hr Hr'. apply H1; now apply Hin.
  - intros r r' out out' Hr Hr'. apply H2; now apply Hin.
Qed.

(** ** The report: what the view shows *)

Lemma reports_view_cases {F : Float64} (d : db) (start stop : date) :
  let df := report_query d start stop in
  (df = [] /\ reports_view d start stop = IngenData)
  \/ (df <> [] /\ one_precision df
      /\ reports_view d start stop
         = Summering (map (daily_of df) (group_keys df)))
  \/ (df <> [] /\ ~ one_precision df
      /\ reports_view d start stop = ReportRaised ValueError).
Proof.
  intros df. unfold reports_view. fold df.
  destruct df as [|r df'] eqn:E; [now left|]. right.
  destruct (to_datetime_columns_cases (r :: df')) as [[-> H]|[-> H]].
  - left. split; [discriminate|]. auto.
  - right. split; [discriminate|]. auto.
Qed.

Lemma reports_view_rows {F : Float64} (d : db) (start stop : date)
      (rows : list daily_row) :
  reports_view d start stop = Summering rows ->
  rows = map (daily_of (report_query d start stop))
             (group_keys (report_query d start stop))
  /\ report_query d start stop <> []
  /\ one_precision (report_query d start stop).
Proof.
  intros E.
  destruct (reports_view_cases d start stop) as [[_ C]|[(H1 & H2 & C)|(_ & _ & C)]];
    rewrite C in E; try discriminate.
  injection E as <-. auto.
Qed.

Lemma reports_view_keys {F : Float64} (d : db) (start stop : date)
      (rows : list daily_row) :
  reports_view d start stop = Summering rows ->
  map key_of_row rows = group_keys (report_query d start stop).
Proof.
  intros E. apply reports_view_rows in E. destruct E as [-> _].
  rewrite map_map.
  rewrite <- (map_id (group_keys _)) at 2.
  apply map_ext. now intros [n dy].
Qed.

Lemma in_reports_view {F : Float64} (d : db) (start stop : date)
      (rows : list daily_row) (row : daily_row) :
  reports_view d start stop = Summering rows -> In row rows ->
  In (key_of_row row) (group_keys (report_query d start stop))
  /\ row = daily_of (report_query d start stop) (key_of_row row).
Proof.
  intros E H. apply reports_view_rows in E. destruct E as [-> _].
  apply in_map_iff in H. destruct H as (k & <- & Hk).
  now destruct k.
Qed.

Lemma in_group_iff (k : key) (r : joined) :
  in_group k r = true
  <-> exists u, snd r = Some u /\ full_name u = fst k
                /\ on (clock_in (fst r)) = snd k.
Proof.
  unfold in_group, key_of, date_of. destruct (snd r) as [u|]; simpl.
  - rewrite key_eqb_eq. split.
    + intros ->. exists u. auto.
    + intros (u' & E & Hn & Hd). injection E as <-.
      destruct k. simpl in *. congruence.
  - split; [discriminate | intros (u & E & _); discriminate].
Qed.

Lemma key_of_iff (k : key) (r : joined) :
  key_of r = Some k <-> in_group k r = true.
Proof.
  unfold in_group. destruct (key_of r) as [k'|]; [|split; discriminate].
  rewrite key_eqb_eq. split; congruence.
Qed.

(** ** The report: hours *)

Lemma hours_of_open {F : Float64} (r : joined) :
  clock_out (fst r) = None -> (hours r == 0)%Q.
Proof. intros H. unfold hours, elapsed_hours. rewrite H. reflexivity. Qed.

Lemma Qsum_all_zero (l : list Q) :
  (forall q, In q l -> (q == 0)%Q) -> (Qsum l == 0)%Q.
Proof.
  induction l as [|a l IH]; intros H; simpl; [reflexivity|].
  rewrite (H a) by now left. rewrite IH; [reflexivity|].
  intros q Hq. apply H. now right.
Qed.

(** C6, as amended: when the query returns no punch the view shows its
    caption and no row; when the clock-in texts it returns are not all of one
    precision, or its clock-out texts are not, the parse of line 450 raises
    ValueError and the view shows no row either.  Otherwise the report is
    drawn, and it has exactly one row per (full name, date) pair for which
    the query returns at least one punch, open or closed, of a worker with
    that full name and with that clock-in date, and no other row; a pair all
    of whose punches are open has its row too, with 0 hours. *)
Theorem reports_view_one_row_per_name_and_date {F : Float64}
        (d : db) (start stop : date) :
  let df := report_query d start stop in
  (reports_view d start stop = IngenData <-> df = [])
  /\ ((exists rows, reports_view d start stop = Summering rows)
      <-> df <> [] /\ one_precision df)
  /\ (reports_view d start stop = ReportRaised ValueError
      <-> df <> [] /\ ~ one_precision df)
  /\ (forall rows,
        reports_view d start stop = Summering rows ->
        NoDup (map key_of_row rows)
        /\ (forall name day,
               In (name, day) (map key_of_row rows)
               <-> exists r u, In r df
                               /\ snd r = Some u /\ full_name u = name
                               /\ on (clock_in (fst r)) = day)
        /\ (forall row,
               In row rows ->
               (forall r, In r df ->
                          in_group (key_of_row row) r = true ->
                          clock_out (fst r) = None) ->
               (d_hours row == 0)%Q)).
Proof.
  intros df.
  pose proof (reports_view_cases d start stop) as C. fold df in C.
  split; [|split; [|split]].
  - destruct C as [[H ->]|[(H & _ & ->)|(H & _ & ->)]];
      split; try discriminate; try contradiction; auto.
  - destruct C as [[H ->]|[(H & H' & ->)|(H & H' & ->)]]; split.
    + intros (rows & E). discriminate.
    + intros [N _]. contradiction.
    + auto.
    + intros _. eauto.
    + intros (rows & E). discriminate.
    + intros [_ N]. contradiction.
  - destruct C as [[H ->]|[(H & H' & ->)|(H & H' & ->)]]; split;
      try discriminate; auto.
    + intros [N _]. contradiction.
    + intros [_ N]. contradiction.
  - intros rows E. rewrite (reports_view_keys _ _ _ _ E). fold df.
    split; [apply group_keys_nodup|]. split.
    + intros name day. rewrite group_keys_in. split.
      * intros (r & Hr & Hk). apply key_of_iff, in_group_iff in Hk.
        destruct Hk as (u & Hu & Hn & Hd). exists r, u. auto.
      * intros (r & u & Hr & Hu & Hn & Hd). exists r. split; [exact Hr|].
        apply key_of_iff, in_group_iff. exists u. auto.
    + intros row Hrow Hopen.
      destruct (in_reports_view _ _ _ _ _ E Hrow) as [_ Er]. rewrite Er.
      cbn [d_hours daily_of].
      apply Qsum_all_zero. intros q Hq.
      apply in_map_iff in Hq. destruct Hq as (r & <- & Hr).
      apply filter_In in Hr. destruct Hr as [Hr Hg].
      apply hours_of_open. now apply Hopen.
Qed.

(** C6, as stated, fails three times.  When the ledger holds Erik's open
    punch and nothing else, the report of Monday to Tuesday has a row for
    him.  When workers 3 and 4, both named Erik Ek, each have a closed punch
    on Tuesday, the report has one row, not one per worker.  And when Erik's
    closed punch of Tuesday has a clock-in typed in the form, stored without
    a fraction of a second, beside a clock-in stamped by the clock with one,
    the view raises and the report has no row at all. *)
Lemma reports_view_lists_open_only_pair :
  map clock_out (punches erik_at_work) = [None]
  /\ (forall F : Float64,
      exists rows,
        reports_view erik_at_work monday tuesday = Summering rows
        /\ map key_of_row rows = [("Erik Ek"%string, tuesday)])
  /\ map (fun p => (user_id p, on (clock_in p), is_open p)) (punches two_eriks)
     = [(3, tuesday, false); (4, tuesday, false)]
  /\ (forall F : Float64,
      exists rows,
        reports_view two_eriks monday tuesday = Summering rows
        /\ map key_of_row rows = [("Erik Ek"%string, tuesday)])
  /\ map (fun p => (user_id p, isoformat (clock_in p), is_open p))
         (punches corrected_in_the_form)
     = [(3, "2024-03-05T09:00:00"%string, false);
        (3, "2024-03-05T18:00:00.250000"%string, true)]
  /\ (forall F : Float64,
      reports_view corrected_in_the_form monday tuesday
      = ReportRaised ValueError).
Proof.
  split; [vm_compute; reflexivity|].
  split; [intros F; eexists; split; vm_compute; reflexivity|].
  split; [vm_compute; reflexivity|].
  split; [intros F; eexists; split; vm_compute; reflexivity|].
  split; [vm_compute; reflexivity|].
  intros F. vm_compute. reflexivity.
Qed.

Lemma Qsum_hours_closed_only {F : Float64} (P : joined -> bool)
      (l : list joined) :
  (Qsum (map hours (filter P l))
   == Qsum (map hours
                (filter (fun r => P r && negb (is_open (fst r))) l)))%Q.
Proof.
  induction l as [|r l IH]; simpl; [reflexivity|].
  destruct (P r); simpl; [|exact IH].
  unfold is_open at 1. destruct (clock_out (fst r)) eqn:E; simpl.
  - now rewrite IH.
  - rewrite (hours_of_open r E), IH. ring.
Qed.

(** C7: a punch without clock-out has 0 in the hours column, and the hours
    of every row of the report are the sum over the closed punches of its
    group alone; the report takes no reading of the clock. *)
Theorem open_punch_contributes_no_hours {F : Float64}
        (d : db) (start stop : date) (rows : list daily_row)
        (row : daily_row) :
  reports_view d start stop = Summering rows -> In row rows ->
  (forall r, clock_out (fst r) = None -> (hours r == 0)%Q)
  /\ (d_hours row
      == Qsum (map hours
                   (filter (fun r => in_group (key_of_row row) r
                                     && negb (is_open (fst r)))
                           (report_query d start stop))))%Q
  /\ (d_ot_hours row == Qmax (d_hours row - 8) 0)%Q
  /\ (d_reg_hours row == d_hours row - d_ot_hours row)%Q.
Proof.
  intros Hrep Hrow. split; [exact hours_of_open|].
  destruct (in_reports_view _ _ _ _ _ Hrep Hrow) as [_ E].
  split; [|rewrite E; split; reflexivity].
  rewrite E at 1. cbn [d_hours daily_of]. apply Qsum_hours_closed_only.
Qed.

Lemma open_punch_contributes_no_hours_witness :
  map clock_out (punches erik_back)
  = [Some (clock tuesday 18 0); None]
  /\ forall F : Float64,
     exists rows,
       reports_view erik_back monday tuesday = Summering rows
       /\ map (fun row => Qred (d_hours row)) rows = [9%Q]
       /\ exists row, In row rows
            /\ (d_hours row
                == Qsum (map hours
                             (filter (fun r => in_group (key_of_row row) r
                                               && negb (is_open (fst r)))
                                     (report_query erik_back monday
                                                   tuesday))))%Q.
Proof.
  split; [vm_compute; reflexivity|]. intros F.
  eexists. split; [vm_compute; reflexivity|].
  split; [vm_compute; reflexivity|].
  eexists. split; [left; reflexivity|].
  match goal with
  | |- (d_hours ?row == _)%Q =>
      apply (proj1 (proj2 (open_punch_contributes_no_hours
                             erik_back monday tuesday [row] row
                             ltac:(vm_compute; reflexivity)
                             ltac:(left; reflexivity))))
  end.
Defined.

(** ** The report: rates and workers *)

Lemma Qmax_pick (x y : Q) : Qmax x y = x \/ Qmax x y = y.
Proof. unfold Qmax, GenericMinMax.gmax. destruct (x ?= y)%Q; auto. Qed.

Lemma fold_Qmax_spec (rest : list Q) (x : Q) :
  (fold_left Qmax rest x = x \/ In (fold_left Qmax rest x) rest)
  /\ (x <= fold_left Qmax rest x)%Q
  /\ (forall q, In q rest -> (q <= fold_left Qmax rest x)%Q).
Proof.
  revert x. induction rest as [|y rest IH]; intros x; simpl.
  - split; [now left|]. split; [apply Qle_refl | intros q []].
  - destruct (IH (Qmax x y)) as (Hin & Hx & Hall).
    split; [|split].
    + destruct Hin as [E|Hin]; [|now right; right].
      rewrite E. destruct (Qmax_pick x y) as [->| ->]; [now left | now right; left].
    + eapply Qle_trans; [apply Q.le_max_l | exact Hx].
    + intros q [<-|Hq]; [|now apply Hall].
      eapply Qle_trans; [apply Q.le_max_r | exact Hx].
Qed.

Lemma Qmax_list_spec (l : list Q) :
  l <> [] ->
  In (Qmax_list l) l /\ (forall q, In q l -> (q <= Qmax_list l)%Q).
Proof.
  destruct l as [|x rest]; [congruence|]. intros _. simpl.
  destruct (fold_Qmax_spec rest x) as (Hin & Hx & Hall). split.
  - destruct Hin as [->|Hin]; [now left | now right].
  - intros q [<-|Hq]; [exact Hx | now apply Hall].
Qed.

Lemma in_rates (g : list joined) (q : Q) :
  In q (rates g)
  <-> exists r u, In r g /\ snd r = Some u /\ q = hourly_rate u.
Proof.
  unfold rates. rewrite in_flat_map. split.
  - intros (r & Hr & Hq). destruct (snd r) as [u|] eqn:E; [|destruct Hq].
    destruct Hq as [<-|[]]. exists r, u. auto.
  - intros (r & u & Hr & E & ->). exists r. split; [exact Hr|].
    rewrite E. now left.
Qed.

Lemma report_query_in (d : db) (start stop : date) (r : joined) :
  In r (report_query d start stop) ->
  In (fst r) (punches d) /\ snd r = find_user d (user_id (fst r)).
Proof.
  unfold report_query, where_interval, left_join. intros H.
  apply sort_by_in, filter_In in H. destruct H as [H _].
  apply in_map_iff in H. destruct H as (p & <- & Hp). auto.
Qed.

Lemma report_query_user (d : db) (start stop : date) (r : joined)
      (u : user_row) :
  In r (report_query d start stop) -> snd r = Some u ->
  In u (users d) /\ u_id u = user_id (fst r).
Proof.
  intros Hr Hu. apply report_query_in in Hr. destruct Hr as [_ E].
  rewrite Hu in E. symmetry in E. apply find_some in E.
  destruct E as [Hin E]. split; [exact Hin | now apply Z.eqb_eq].
Qed.

Lemma find_user_unique (d : db) (u : user_row) :
  NoDup (map u_id (users d)) -> In u (users d) ->
  find_user d (u_id u) = Some u.
Proof.
  unfold find_user. induction (users d) as [|v us IH]; simpl; [intros _ []|].
  intros Hnd [->|Hin].
  - now rewrite Z.eqb_refl.
  - inversion Hnd as [|? ? Hv Hnd']; subst.
    destruct (u_id v =? u_id u) eqn:E; [|now apply IH].
    apply Z.eqb_eq in E. exfalso. apply Hv. rewrite E.
    now apply in_map.
Qed.

(** ** Rounding to hundredths *)

Lemma round_nearest_near {F : Float64} (x : Q) :
  (inject_Z (round_nearest x) - (1 # 2) <= x
   /\ x <= inject_Z (round_nearest x) + (1 # 2))%Q.
Proof.
  unfold round_nearest.
  pose proof (Qfloor_le x) as Hlo. pose proof (Qlt_floor x) as Hhi.
  rewrite inject_Z_plus in Hhi. change (inject_Z 1) with 1%Q in Hhi.
  destruct (Qcompare_spec (x - inject_Z (Qfloor x)) (1 # 2)) as [E|E|E].
  - destruct (midway_up x).
    + rewrite inject_Z_plus. change (inject_Z 1) with 1%Q. lra.
    + lra.
  - lra.
  - rewrite inject_Z_plus. change (inject_Z 1) with 1%Q. lra.
Qed.

Lemma round_nearest_nonneg {F : Float64} (x : Q) :
  (0 <= x)%Q -> 0 <= round_nearest x.
Proof.
  intros H. unfold round_nearest.
  assert (Hf : 0 <= Qfloor x).
  { change 0 with (Qfloor 0). now apply Qfloor_resp_le. }
  destruct (_ ?= _)%Q; [destruct (midway_up _)| |]; lia.
Qed.

Lemma round2_near {F : Float64} (q : Q) :
  (Qabs (round2 q - q) <= 1 # 200)%Q.
Proof.
  unfold round2. destruct (round_nearest_near (q * 100)) as [Hlo Hhi].
  apply Qabs_Qle_condition. split.
  - apply Qle_minus_iff.
    setoid_replace (inject_Z (round_nearest (q * 100)) / 100 - q
                    + - - (1 # 200))%Q
      with ((inject_Z (round_nearest (q * 100)) + (1 # 2) - q * 100)
            * (1 # 100))%Q by (field; discriminate).
    apply Qmult_le_0_compat; lra.
  - apply Qle_minus_iff.
    setoid_replace ((1 # 200)
                    + - (inject_Z (round_nearest (q * 100)) / 100 - q))%Q
      with ((q * 100 - (inject_Z (round_nearest (q * 100)) - (1 # 2)))
            * (1 # 100))%Q by (field; discriminate).
    apply Qmult_le_0_compat; lra.
Qed.

Lemma round2_nonneg {F : Float64} (q : Q) : (0 <= q)%Q -> (0 <= round2 q)%Q.
Proof.
  intros H. unfold round2.
  assert (Hr : 0 <= round_nearest (q * 100)).
  { apply round_nearest_nonneg. apply Qmult_le_0_compat; lra. }
  apply Qle_shift_div_l; [reflexivity|].
  rewrite Qmult_0_l. change 0%Q with (inject_Z 0).
  now rewrite <- Zle_Qle.
Qed.

(** Two hundredths, one of them nearer than 0.005 to a value and the other
    no farther than 0.005 from it, are the same hundredth. *)
Lemma nearest_hundredth_unique (n m : Z) (h : Q) :
  (Qabs (inject_Z n / 100 - h) < 1 # 200)%Q ->
  (Qabs (inject_Z m / 100 - h) <= 1 # 200)%Q ->
  m = n.
Proof.
  intros Hn Hm.
  apply Qabs_Qlt_condition in Hn. apply Qabs_Qle_condition in Hm.
  unfold Qdiv in Hn, Hm. change (/ 100)%Q with (1 # 100)%Q in Hn, Hm.
  assert (L : (inject_Z (m - n) < inject_Z 1)%Q).
  { unfold Z.sub. rewrite inject_Z_plus, inject_Z_opp.
    change (inject_Z 1) with 1%Q. lra. }
  assert (U : (inject_Z (n - m) < inject_Z 1)%Q).
  { unfold Z.sub. rewrite inject_Z_plus, inject_Z_opp.
    change (inject_Z 1) with 1%Q. lra. }
  rewrite <- Zlt_Qlt in L, U. lia.
Qed.

Lemma total_seconds_nonneg (a b : datetime) :
  to_micros a <= to_micros b -> (0 <= total_seconds a b / 3600)%Q.
Proof.
  intros H. unfold total_seconds.
  apply Qle_shift_div_l; [reflexivity|]. rewrite Qmult_0_l.
  apply Qle_shift_div_l; [reflexivity|]. rewrite Qmult_0_l.
  change 0%Q with (inject_Z 0). rewrite <- Zle_Qle. lia.
Qed.

Lemma hours_nonneg {F : Float64} (r : joined) :
  (forall out, clock_out (fst r) = Some out ->
               to_micros (clock_in (fst r)) <= to_micros out) ->
  (0 <= hours r)%Q.
Proof.
  intros H. unfold hours, elapsed_hours.
  destruct (clock_out (fst r)) as [out|]; cbn [option_map fillna].
  - apply round2_nonneg, total_seconds_nonneg. now apply H.
  - apply round2_nonneg. apply Qle_refl.
Qed.

(** The hours of a closed punch: a whole number of hundredths, no farther
    than 0.005 from the elapsed hours, and the hundredth nearest to them
    whenever one hundredth is nearer than 0.005. *)
Lemma hours_of_closed {F : Float64} (r : joined) (out : datetime) :
  clock_out (fst r) = Some out ->
  let h := (total_seconds (clock_in (fst r)) out / 3600)%Q in
  (exists n : Z, hours r == inject_Z n / 100)%Q
  /\ (Qabs (hours r - h) <= 1 # 200)%Q
  /\ (forall n : Z, (Qabs (inject_Z n / 100 - h) < 1 # 200)%Q ->
                    (hours r == inject_Z n / 100)%Q).
Proof.
  intros E h.
  assert (Eh : hours r = round2 h).
  { unfold hours, elapsed_hours. now rewrite E. }
  rewrite Eh. split; [|split].
  - unfold round2. eexists. reflexivity.
  - apply round2_near.
  - intros n Hn.
    pose proof (round2_near h) as Hm. unfold round2 in *.
    now rewrite (nearest_hundredth_unique n _ h Hn Hm).
Qed.

(** C8, as amended: when the report is drawn, each closed punch has as hours
    its elapsed time in hours rounded to 2 decimals: a whole number of
    hundredths no farther than 0.005 from the elapsed hours, the nearest
    hundredth when there is one.  The rows of the report are per (full name
    of the worker, calendar date of the clock-in), whatever the date of the
    clock-out; a row's hours are the sum over its group, its overtime is
    max(0, hours - 8), its regular hours are hours minus overtime, its rate
    is the largest current hourly rate among the workers of the group and
    its pay is regular x rate + overtime x rate x 1.5.  When one worker
    alone has the full name, the group is that worker's punches and the rate
    is that worker's current rate. *)
Theorem daily_row_per_name_and_date {F : Float64}
        (d : db) (start stop : date) (rows : list daily_row)
        (row : daily_row) :
  reports_view d start stop = Summering rows -> In row rows ->
  let df := report_query d start stop in
  let g := filter (in_group (key_of_row row)) df in
  (forall r out,
      clock_out (fst r) = Some out ->
      let h := (total_seconds (clock_in (fst r)) out / 3600)%Q in
      (exists n : Z, hours r == inject_Z n / 100)%Q
      /\ (Qabs (hours r - h) <= 1 # 200)%Q
      /\ (forall n : Z, (Qabs (inject_Z n / 100 - h) < 1 # 200)%Q ->
                        (hours r == inject_Z n / 100)%Q))
  /\ (forall r, In r g <->
                In r df /\ exists u, snd r = Some u
                                     /\ full_name u = d_full_name row
                                     /\ on (clock_in (fst r)) = d_date row)
  /\ (d_hours row == Qsum (map hours g))%Q
  /\ (d_ot_hours row == Qmax 0 (d_hours row - 8))%Q
  /\ (d_reg_hours row == d_hours row - d_ot_hours row)%Q
  /\ (d_pay row == d_reg_hours row * d_hourly_rate row
                   + d_ot_hours row * d_hourly_rate row * (3 # 2))%Q
  /\ (forall r u, In r g -> snd r = Some u ->
                  (hourly_rate u <= d_hourly_rate row)%Q)
  /\ (exists r u, In r g /\ snd r = Some u /\ In u (users d)
                  /\ d_hourly_rate row = hourly_rate u)
  /\ (forall u,
         (forall v, In v (users d) -> full_name v = d_full_name row -> v = u) ->
         (forall r, In r g -> snd r = Some u)
         /\ d_hourly_rate row = hourly_rate u).
Proof.
  intros Hrep Hrow df g.
  destruct (in_reports_view _ _ _ _ _ Hrep Hrow) as [Hk E]. fold df in Hk, E.
  assert (Hg : forall r, In r g <->
                In r df /\ exists u, snd r = Some u
                                     /\ full_name u = d_full_name row
                                     /\ on (clock_in (fst r)) = d_date row).
  { intros r. unfold g. rewrite filter_In, in_group_iff. reflexivity. }
  assert (Hne : rates g <> []).
  { apply group_keys_in in Hk. destruct Hk as (r & Hr & Kr).
    apply key_of_iff in Kr.
    assert (Hin : In r g) by (unfold g; apply filter_In; auto).
    apply in_group_iff in Kr. destruct Kr as (u & Hu & _).
    intros Hnil.
    assert (H : In (hourly_rate u) (rates g))
      by (apply in_rates; exists r, u; auto).
    rewrite Hnil in H. destruct H. }
  destruct (Qmax_list_spec _ Hne) as [Hmax Hub].
  assert (Hrate : d_hourly_rate row = Qmax_list (rates g)).
  { rewrite E at 1. reflexivity. }
  split; [|split; [exact Hg|] ].
  { intros r out H. now apply hours_of_closed. }
  split; [rewrite E at 1; reflexivity|].
  split; [rewrite E; cbn [d_ot_hours d_hours daily_of]; apply Q.max_comm|].
  split; [rewrite E; reflexivity|].
  split; [rewrite E; reflexivity|].
  split.
  { intros r u Hr Hu. rewrite Hrate. apply Hub, in_rates. exists r, u. auto. }
  split.
  { rewrite <- Hrate in Hmax. apply in_rates in Hmax.
    destruct Hmax as (r & u & Hr & Hu & Eq). exists r, u.
    repeat split; try assumption.
    apply Hg in Hr. destruct Hr as [Hr _].
    exact (proj1 (report_query_user _ _ _ _ _ Hr Hu)). }
  intros u Huniq.
  assert (Hall : forall r, In r g -> snd r = Some u).
  { intros r Hr. apply Hg in Hr. destruct Hr as (Hr & v & Hv & Hn & _).
    rewrite Hv. f_equal. apply Huniq; [|exact Hn].
    exact (proj1 (report_query_user _ _ _ _ _ Hr Hv)). }
  split; [exact Hall|].
  rewrite <- Hrate in Hmax. apply in_rates in Hmax.
  destruct Hmax as (r & v & Hr & Hv & Eq).
  rewrite (Hall r Hr) in Hv. injection Hv as <-. exact Eq.
Qed.

(** Erik's shift of an hour and a minute, 3660 s or 1.01666... h, is reported
    as 1.02 h and paid 1.02 x 145; his shift of nine hours as 9 h, 8 regular
    and 1 overtime. *)
Lemma daily_row_per_name_and_date_witness :
  map (fun p => (user_id p, clock_in p, clock_out p))
      (punches erik_short_shift)
  = [(3, clock tuesday 9 0, Some (clock tuesday 10 1))]
  /\ map (fun p => (user_id p, clock_in p, clock_out p)) (punches erik_gone_home)
     = [(3, clock tuesday 9 0, Some (clock tuesday 18 0))]
  /\ (forall F : Float64,
      exists rows,
        reports_view erik_gone_home monday tuesday = Summering rows
        /\ map (fun row => (d_full_name row, d_date row, Qred (d_hours row),
                            Qred (d_hourly_rate row), Qred (d_ot_hours row),
                            Qred (d_reg_hours row), Qred (d_pay row)))
               rows
           = [("Erik Ek"%string, tuesday, 9, 145, 1, 8, 2755 # 2)%Q])
  /\ forall F : Float64,
     exists rows row,
       reports_view erik_short_shift monday tuesday = Summering rows
       /\ rows = [row]
       /\ (d_full_name row, d_date row, Qred (d_hours row),
           Qred (d_hourly_rate row), Qred (d_ot_hours row),
           Qred (d_reg_hours row), Qred (d_pay row))
          = ("Erik Ek"%string, tuesday, 51 # 50, 145, 0, 51 # 50, 1479 # 10)%Q
       /\ (forall r out,
              clock_out (fst r) = Some out ->
              (Qabs (hours r - total_seconds (clock_in (fst r)) out / 3600)
               <= 1 # 200)%Q)
       /\ (d_hours row
           == Qsum (map hours
                        (filter (in_group (key_of_row row))
                                (report_query erik_short_shift monday
                                              tuesday))))%Q
       /\ (d_pay row == d_reg_hours row * d_hourly_rate row
                        + d_ot_hours row * d_hourly_rate row * (3 # 2))%Q.
Proof.
  split; [vm_compute; reflexivity|]. split; [vm_compute; reflexivity|].
  split; [intros F; eexists; split; vm_compute; reflexivity|].
  intros F. eexists. eexists.
  split; [vm_compute; reflexivity|]. split; [reflexivity|].
  split; [vm_compute; reflexivity|].
  match goal with
  | |- _ /\ (d_hours ?row == _)%Q /\ _ =>
      pose proof (daily_row_per_name_and_date
                    erik_short_shift monday tuesday [row] row
                    ltac:(vm_compute; reflexivity)
                    ltac:(left; reflexivity)) as H
  end.
  cbv zeta in H.
  destruct H as (H1 & _ & H3 & _ & _ & H6 & _).
  split; [|split; [exact H3 | exact H6] ].
  intros r out Hr. exact (proj1 (proj2 (H1 r out Hr))).
Defined.

(** C8, as stated, fails: two workers are named Erik Ek, paid 145 and 200;
    each works five hours on Tuesday.  The report has one row for the two,
    with ten hours, two of them overtime, all paid at 200. *)
Lemma namesakes_share_hours_and_rate :
  map (fun u => (u_id u, full_name u, Qred (hourly_rate u))) (users two_eriks)
  = [(1, "System Admin"%string, 0%Q); (2, "Anna Andersson"%string, 165%Q);
     (3, "Erik Ek"%string, 145%Q); (4, "Erik Ek"%string, 200%Q)]
  /\ map (fun p => (user_id p, clock_in p, clock_out p)) (punches two_eriks)
     = [(3, clock tuesday 9 0, Some (clock tuesday 14 0));
        (4, clock tuesday 10 0, Some (clock tuesday 15 0))]
  /\ forall F : Float64,
     exists rows,
       reports_view two_eriks monday tuesday = Summering rows
       /\ map (fun row => (d_full_name row, d_date row, Qred (d_hours row),
                           Qred (d_hourly_rate row), Qred (d_ot_hours row),
                           Qred (d_reg_hours row), Qred (d_pay row)))
              rows
          = [("Erik Ek"%string, tuesday, 10, 200, 2, 8, 2200)%Q].
Proof.
  split; [vm_compute; reflexivity|]. split; [vm_compute; reflexivity|].
  intros F. eexists. split; vm_compute; reflexivity.
Qed.

(** ** The report: workers who share a name *)

Lemma filter_rows_of_key {F : Float64} (df : list joined) (k : key)
      (ks : list key) :
  NoDup ks -> In k ks ->
  filter (fun row => key_eqb (key_of_row row) k) (map (daily_of df) ks)
  = [daily_of df k].
Proof.
  induction ks as [|k' ks IH]; intros Hnd Hin; [destruct Hin|].
  inversion Hnd as [|? ? Hk' Hnd']; subst. cbn [map filter].
  assert (Ek : key_of_row (daily_of df k') = k') by now destruct k'.
  rewrite Ek. destruct (key_eqb k' k) eqn:E.
  - apply key_eqb_eq in E. subst k'. f_equal.
    clear IH Hin Hnd Hnd' Ek. induction ks as [|k'' ks IH]; [reflexivity|].
    cbn [map filter].
    assert (Ek : key_of_row (daily_of df k'') = k'') by now destruct k''.
    rewrite Ek. destruct (key_eqb k'' k) eqn:E.
    + apply key_eqb_eq in E. subst. exfalso. apply Hk'. now left.
    + apply IH. intros H. apply Hk'. now right.
  - destruct Hin as [->|Hin]; [now rewrite key_eqb_refl in E|].
    now apply IH.
Qed.

Lemma Qsum_filter_split {A : Type} (f : A -> Q) (P P1 P2 : A -> bool)
      (l : list A) :
  (forall x, In x l -> P x = P1 x || P2 x) ->
  (forall x, In x l -> P1 x && P2 x = false) ->
  (Qsum (map f (filter P l))
   == Qsum (map f (filter P1 l)) + Qsum (map f (filter P2 l)))%Q.
Proof.
  induction l as [|a l IH]; intros HP Hd; simpl; [reflexivity|].
  assert (IH' := IH (fun x Hx => HP x (or_intror Hx))
                    (fun x Hx => Hd x (or_intror Hx))).
  rewrite (HP a) by now left.
  specialize (Hd a (or_introl eq_refl)).
  destruct (P1 a), (P2 a); simpl in *; try discriminate;
    rewrite IH'; ring.
Qed.

Lemma filter_none {A : Type} (f : A -> bool) (l : list A) :
  (forall x, In x l -> f x = false) -> filter f l = [].
Proof.
  induction l as [|a l IH]; intros H; simpl; [reflexivity|].
  rewrite (H a) by now left. apply IH. intros x Hx. apply H. now right.
Qed.

Lemma NoDup_map_filter {A B : Type} (f : A -> B) (P : A -> bool)
      (l : list A) :
  NoDup (map f l) -> NoDup (map f (filter P l)).
Proof.
  induction l as [|a l IH]; simpl; [auto|].
  intros H. inversion H as [|? ? Ha Hl]; subst.
  destruct (P a); simpl; [|now apply IH].
  constructor; [|now apply IH].
  intros C. apply Ha. apply in_map_iff in C. destruct C as (x & E & Hx).
  apply filter_In in Hx. apply in_map_iff. exists x. tauto.
Qed.

(** Summing worker by worker over workers with distinct ids is summing over
    the rows of all of them. *)
Lemma Qsum_by_worker (h : joined -> Q) (P : joined -> bool)
      (us : list user_row) (df : list joined) :
  NoDup (map u_id us) ->
  (Qsum (map (fun u => Qsum (map h (filter (fun r =>
                                              (user_id (fst r) =? u_id u)
                                              && P r) df))) us)
   == Qsum (map h (filter (fun r =>
                             existsb (fun u => user_id (fst r) =? u_id u) us
                             && P r) df)))%Q.
Proof.
  induction us as [|u us IH]; intros Hnd.
  - cbn [map Qsum fold_right existsb].
    rewrite filter_none by reflexivity. reflexivity.
  - inversion Hnd as [|? ? Hu Hnd']; subst.
    cbn [map Qsum fold_right]. fold (Qsum (map (fun u0 =>
        Qsum (map h (filter (fun r => (user_id (fst r) =? u_id u0) && P r)
                            df))) us)).
    rewrite (IH Hnd'). symmetry. apply Qsum_filter_split.
    + intros r _. cbn [existsb].
      destruct (user_id (fst r) =? u_id u), (existsb _ us), (P r);
        reflexivity.
    + intros r _.
      destruct (user_id (fst r) =? u_id u) eqn:E1; [|reflexivity].
      destruct (existsb (fun u0 => user_id (fst r) =? u_id u0) us) eqn:E2;
        [|now rewrite andb_false_r].
      exfalso. apply Hu. apply Z.eqb_eq in E1.
      apply existsb_exists in E2. destruct E2 as (v & Hv & E2).
      apply Z.eqb_eq in E2. apply in_map_iff. exists v. split; [lia|exact Hv].
Qed.

Lemma in_namesakes (d : db) (name : string) (u : user_row) :
  In u (namesakes d name) <-> In u (users d) /\ full_name u = name.
Proof.
  unfold namesakes. now rewrite filter_In, String.eqb_eq.
Qed.

(** With distinct worker ids, the group of a name and a day is the punches
    of that day of the workers of that name. *)
Lemma group_of_namesakes (d : db) (start stop : date) (name : string)
      (day : date) (r : joined) :
  NoDup (map u_id (users d)) ->
  In r (report_query d start stop) ->
  in_group (name, day) r
  = existsb (fun u => user_id (fst r) =? u_id u) (namesakes d name)
    && date_eqb (date_of r) day.
Proof.
  intros Hnd Hr. apply eq_true_iff_eq.
  rewrite in_group_iff, andb_true_iff, existsb_exists, date_eqb_eq.
  cbn [fst snd]. unfold date_of. split.
  - intros (u & Hu & Hn & Hd).
    destruct (report_query_user _ _ _ _ _ Hr Hu) as [Hin Hid].
    split; [|exact Hd]. exists u. split.
    + apply in_namesakes. auto.
    + apply Z.eqb_eq. auto.
  - intros [(u & Hu & Hid) Hd]. apply Z.eqb_eq in Hid.
    apply in_namesakes in Hu. destruct Hu as [Hin Hn].
    exists u. split; [|auto].
    rewrite (proj2 (report_query_in _ _ _ _ Hr)), Hid.
    now apply find_user_unique.
Qed.

(** C10, as amended: when the report is drawn and worker ids are distinct,
    all the workers who share a full name and have a punch of one date among
    the rows of the query have one row in the report between them.  Its
    hours are the sum of the hours of all the workers of that name on that
    date, its rate is the largest of the rates of those of them who have a
    punch of that date; when exactly two workers have the name, the hours are
    the sum of the hours of the two (of their two punches, when each has
    one), and the rate is the larger of their two rates when both have a
    punch of that date.  The hours of a worker are those of the worker's
    closed punches, each its elapsed hours to the nearest hundredth. *)
Theorem namesakes_are_merged {F : Float64}
        (d : db) (start stop : date) (rows : list daily_row)
        (name : string) (day : date) :
  NoDup (map u_id (users d)) ->
  reports_view d start stop = Summering rows ->
  (exists u r, In u (namesakes d name) /\ punch_of d start stop u day r) ->
  exists row,
    filter (fun row => key_eqb (key_of_row row) (name, day)) rows = [row]
    /\ (d_hours row
        == Qsum (map (fun u => worker_hours d start stop u day)
                     (namesakes d name)))%Q
    /\ (forall u r, In u (namesakes d name) -> punch_of d start stop u day r ->
                    (hourly_rate u <= d_hourly_rate row)%Q)
    /\ (exists u r, In u (namesakes d name) /\ punch_of d start stop u day r
                    /\ d_hourly_rate row = hourly_rate u)
    /\ (forall u1 u2,
           namesakes d name = [u1; u2] ->
           u_id u1 <> u_id u2
           /\ (d_hours row == worker_hours d start stop u1 day
                              + worker_hours d start stop u2 day)%Q
           /\ (forall r1 r2,
                  filter (fun r => (user_id (fst r) =? u_id u1)
                                   && date_eqb (date_of r) day)
                         (report_query d start stop) = [r1] ->
                  filter (fun r => (user_id (fst r) =? u_id u2)
                                   && date_eqb (date_of r) day)
                         (report_query d start stop) = [r2] ->
                  (d_hours row == hours r1 + hours r2)%Q)
           /\ ((exists r1, punch_of d start stop u1 day r1) ->
               (exists r2, punch_of d start stop u2 day r2) ->
               (d_hourly_rate row
                == Qmax (hourly_rate u1) (hourly_rate u2))%Q))
    /\ (forall u,
           (worker_hours d start stop u day
            == Qsum (map hours
                         (filter (fun r => (user_id (fst r) =? u_id u)
                                           && date_eqb (date_of r) day
                                           && negb (is_open (fst r)))
                                 (report_query d start stop))))%Q)
    /\ (forall r out,
           clock_out (fst r) = Some out ->
           (Qabs (hours r - total_seconds (clock_in (fst r)) out / 3600)
            <= 1 # 200)%Q
           /\ (exists n : Z, hours r == inject_Z n / 100)%Q).
Proof.
  intros Hnd Hrep (u0 & r0 & Hu0 & Hr0 & Hid0 & Hd0).
  set (df := report_query d start stop) in *.
  set (k := (name, day)).
  assert (Hgroup : forall u r, In u (namesakes d name) ->
                     punch_of d start stop u day r ->
                     In r (filter (in_group k) df) /\ snd r = Some u).
  { intros u r Hu (Hr & Hid & Hd). apply in_namesakes in Hu.
    destruct Hu as [Hin Hn].
    assert (Hs : snd r = Some u).
    { rewrite (proj2 (report_query_in _ _ _ _ Hr)), Hid.
      now apply find_user_unique. }
    split; [|exact Hs]. apply filter_In. split; [exact Hr|].
    apply in_group_iff. exists u. auto. }
  assert (Hback : forall r u, In r (filter (in_group k) df) ->
                    snd r = Some u ->
                    In u (namesakes d name)
                    /\ punch_of d start stop u day r).
  { intros r u Hr Hs. apply filter_In in Hr. destruct Hr as [Hr Hg].
    apply in_group_iff in Hg. destruct Hg as (u' & Hs' & Hn & Hd).
    rewrite Hs in Hs'. injection Hs' as <-.
    destruct (report_query_user _ _ _ _ _ Hr Hs) as [Hin Hid].
    split; [apply in_namesakes; auto|].
    repeat split; auto. }
  destruct (Hgroup u0 r0 Hu0 (conj Hr0 (conj Hid0 Hd0))) as [Hg0 Hs0].
  assert (Hne : rates (filter (in_group k) df) <> []).
  { intros Hnil.
    assert (H : In (hourly_rate u0) (rates (filter (in_group k) df)))
      by (apply in_rates; exists r0, u0; auto).
    rewrite Hnil in H. destruct H. }
  destruct (Qmax_list_spec _ Hne) as [Hmax Hub].
  assert (Hsum : (Qsum (map hours (filter (in_group k) df))
                  == Qsum (map (fun u => worker_hours d start stop u day)
                               (namesakes d name)))%Q).
  { unfold worker_hours. fold df.
    rewrite (Qsum_by_worker hours (fun r => date_eqb (date_of r) day)
                            (namesakes d name) df)
      by (apply NoDup_map_filter; exact Hnd).
    rewrite (filter_ext_in (in_group k)
               (fun r => existsb (fun u => user_id (fst r) =? u_id u)
                                 (namesakes d name)
                         && date_eqb (date_of r) day) df);
      [reflexivity|].
    intros r Hr. now apply (group_of_namesakes d start stop). }
  exists (daily_of df k).
  split; [|split; [|split; [|split; [|split; [|split] ] ] ] ].
  - rewrite (proj1 (reports_view_rows _ _ _ _ Hrep)). fold df.
    apply filter_rows_of_key; [apply group_keys_nodup|].
    apply group_keys_in. exists r0. split; [exact Hr0|].
    apply key_of_iff. apply filter_In in Hg0. apply Hg0.
  - exact Hsum.
  - intros u r Hu Hp. destruct (Hgroup u r Hu Hp) as [Hg Hs].
    cbn [d_hourly_rate daily_of]. apply Hub, in_rates. exists r, u. auto.
  - apply in_rates in Hmax. destruct Hmax as (r & u & Hr & Hs & Eq).
    destruct (Hback r u Hr Hs) as [Hu Hp].
    exists u, r. auto.
  - intros u1 u2 E12.
    assert (Hne12 : u_id u1 <> u_id u2).
    { pose proof (NoDup_map_filter u_id
                    (fun u => String.eqb (full_name u) name) _ Hnd) as N.
      fold (namesakes d name) in N. rewrite E12 in N. cbn [map] in N.
      inversion N as [|? ? H1 _]; subst. intros C. apply H1. now left. }
    assert (Hh : (d_hours (daily_of df k)
                  == worker_hours d start stop u1 day
                     + worker_hours d start stop u2 day)%Q).
    { cbn [d_hours daily_of]. rewrite Hsum, E12.
      cbn [map Qsum fold_right]. ring. }
    split; [exact Hne12|]. split; [exact Hh|]. split.
    + intros r1 r2 E1 E2. rewrite Hh. unfold worker_hours. fold df.
      fold df in E1, E2. rewrite E1, E2. cbn [map Qsum fold_right]. ring.
    + intros (r1 & Hp1) (r2 & Hp2).
      assert (H1 : In u1 (namesakes d name)) by (rewrite E12; now left).
      assert (H2 : In u2 (namesakes d name))
        by (rewrite E12; right; now left).
      destruct (Hgroup u1 r1 H1 Hp1) as [Hg1 Hs1].
      destruct (Hgroup u2 r2 H2 Hp2) as [Hg2 Hs2].
      assert (L1 : (hourly_rate u1
                    <= Qmax_list (rates (filter (in_group k) df)))%Q)
        by (apply Hub, in_rates; exists r1, u1; auto).
      assert (L2 : (hourly_rate u2
                    <= Qmax_list (rates (filter (in_group k) df)))%Q)
        by (apply Hub, in_rates; exists r2, u2; auto).
      apply in_rates in Hmax. destruct Hmax as (r & u & Hr & Hs & Eq).
      destruct (Hback r u Hr Hs) as [Hu _].
      cbn [d_hourly_rate daily_of].
      rewrite E12 in Hu. destruct Hu as [<-|[<-|[]]].
      * rewrite Eq in *. symmetry. now apply Q.max_l.
      * rewrite Eq in *. symmetry. now apply Q.max_r.
  - intros u. unfold worker_hours.
    rewrite Qsum_hours_closed_only. reflexivity.
  - intros r out E.
    destruct (hours_of_closed r out E) as (Hn & Hc & _). auto.
Qed.

(** Erik (145) works 09:00-14:00 and his namesake (200) 10:00-15:00 on
    Tuesday: five hours each, one row of ten hours at 200. *)
Lemma namesakes_are_merged_witness :
  NoDup (map u_id (users two_eriks))
  /\ map (fun u => (u_id u, Qred (hourly_rate u)))
         (namesakes two_eriks "Erik Ek")
     = [(3, 145%Q); (4, 200%Q)]
  /\ forall F : Float64,
     Qred (worker_hours two_eriks monday tuesday erik_row tuesday) = 5%Q
     /\ Qred (worker_hours two_eriks monday tuesday namesake_row tuesday) = 5%Q
     /\ exists rows row,
       reports_view two_eriks monday tuesday = Summering rows
       /\ filter (fun row => key_eqb (key_of_row row)
                                     ("Erik Ek"%string, tuesday))
                 rows = [row]
       /\ Qred (d_hours row) = 10%Q
       /\ Qred (d_hourly_rate row) = 200%Q
       /\ (d_hours row
           == worker_hours two_eriks monday tuesday erik_row tuesday
              + worker_hours two_eriks monday tuesday namesake_row tuesday)%Q
       /\ (d_hours row == hours erik_shift + hours namesake_shift)%Q
       /\ (d_hourly_rate row == Qmax 145 200)%Q.
Proof.
  assert (Hnd : NoDup (map u_id (users two_eriks))).
  { vm_compute. repeat constructor; simpl; intuition discriminate. }
  split; [exact Hnd|]. split; [vm_compute; reflexivity|]. intros F.
  assert (Hrep : exists rows,
             reports_view two_eriks monday tuesday = Summering rows
             /\ map (fun row => (Qred (d_hours row), Qred (d_hourly_rate row)))
                    rows = [(10%Q, 200%Q)]).
  { eexists. split; vm_compute; reflexivity. }
  destruct Hrep as (rows & Hrep & Hnum).
  assert (Q : report_query two_eriks monday tuesday
              = [erik_shift; namesake_shift]) by (vm_compute; reflexivity).
  assert (N : namesakes two_eriks "Erik Ek" = [erik_row; namesake_row])
    by (vm_compute; reflexivity).
  assert (P1 : punch_of two_eriks monday tuesday erik_row tuesday erik_shift).
  { unfold punch_of. rewrite Q. split; [now left|]. split; reflexivity. }
  assert (P2 : punch_of two_eriks monday tuesday namesake_row tuesday
                        namesake_shift).
  { unfold punch_of. rewrite Q. split; [right; now left|].
    split; reflexivity. }
  destruct (namesakes_are_merged two_eriks monday tuesday rows
              "Erik Ek" tuesday Hnd Hrep)
    as (row & Hf & _ & _ & _ & H2 & _).
  { exists erik_row, erik_shift. split; [rewrite N; now left | exact P1]. }
  destruct (H2 erik_row namesake_row N) as (_ & Hh & Hone & Hr).
  split; [vm_compute; reflexivity|]. split; [vm_compute; reflexivity|].
  exists rows, row. split; [exact Hrep|]. split; [exact Hf|].
  assert (Hin : In row rows).
  { assert (H : In row [row]) by now left.
    rewrite <- Hf in H. apply filter_In in H. apply H. }
  apply (in_map (fun row => (Qred (d_hours row), Qred (d_hourly_rate row))))
    in Hin.
  rewrite Hnum in Hin. destruct Hin as [Hin|[]]. injection Hin as E1 E2.
  split; [now symmetry|]. split; [now symmetry|].
  split; [exact Hh|].
  split; [apply Hone; rewrite Q; reflexivity|].
  apply Hr; eauto.
Defined.

(** C10, as stated, fails: a third worker named Erik Ek, paid 300, works
    five hours on the Tuesday on which the first two work five hours each.
    The row of the name has fifteen hours at 300: not the sum of the hours
    of the first two workers, which is ten, nor the larger of their rates,
    which is 200. *)
Lemma third_namesake_joins_the_row :
  map (fun u => (u_id u, full_name u, Qred (hourly_rate u)))
      (users three_eriks)
  = [(1, "System Admin"%string, 0%Q); (2, "Anna Andersson"%string, 165%Q);
     (3, "Erik Ek"%string, 145%Q); (4, "Erik Ek"%string, 200%Q);
     (5, "Erik Ek"%string, 300%Q)]
  /\ map (fun p => (user_id p, clock_in p, clock_out p)) (punches three_eriks)
     = [(3, clock tuesday 9 0, Some (clock tuesday 14 0));
        (4, clock tuesday 10 0, Some (clock tuesday 15 0));
        (5, clock tuesday 11 0, Some (clock tuesday 16 0))]
  /\ Qred (Qmax (hourly_rate erik_row) (hourly_rate namesake_row)) = 200%Q
  /\ forall F : Float64,
     Qred (worker_hours three_eriks monday tuesday erik_row tuesday) = 5%Q
     /\ Qred (worker_hours three_eriks monday tuesday namesake_row tuesday)
        = 5%Q
     /\ exists rows,
          reports_view three_eriks monday tuesday = Summering rows
          /\ map (fun row => (d_full_name row, d_date row, Qred (d_hours row),
                              Qred (d_hourly_rate row)))
                 rows
             = [("Erik Ek"%string, tuesday, 15, 300)%Q].
Proof.
  split; [vm_compute; reflexivity|]. split; [vm_compute; reflexivity|].
  split; [vm_compute; reflexivity|]. intros F.
  split; [vm_compute; reflexivity|]. split; [vm_compute; reflexivity|].
  eexists. split; vm_compute; reflexivity.
Qed.

(** ** The lower bound of the interval *)

(** The lower bound of the query is Python's text, with the letter T, and the
    left side is SQLite's, with a space: on the start date itself the space
    sorts first, so a punch of the start date is not selected. *)
Example report_misses_the_start_date :
  map (fun p => on (clock_in p)) (punches erik_gone_home) = [tuesday]
  /\ in_interval tuesday tuesday (clock tuesday 9 0) = false
  /\ forall F : Float64,
     reports_view erik_gone_home tuesday tuesday = IngenData
     /\ exists row,
          reports_view erik_gone_home monday tuesday = Summering [row].
Proof.
  split; [vm_compute; reflexivity|]. split; [vm_compute; reflexivity|].
  intros F. split; [vm_compute; reflexivity|].
  eexists. vm_compute. reflexivity.
Qed.

(** ** Texts of dates, compared as SQLite compares them *)

Lemma ascii_compare_refl (c : ascii) : Ascii.compare c c = Eq.
Proof. unfold Ascii.compare. apply N.compare_refl. Qed.

Lemma compare_same_prefix (p a b : string) :
  String.compare (p ++ a) (p ++ b) = String.compare a b.
Proof.
  induction p as [|c p IH]; simpl; [reflexivity|].
  now rewrite ascii_compare_refl.
Qed.

Lemma compare_refl (s : string) : String.compare s s = Eq.
Proof.
  induction s as [|c s IH]; simpl; [reflexivity|].
  now rewrite ascii_compare_refl.
Qed.

(** Texts of one length are ordered by their first difference, whatever
    follows them. *)
Lemma compare_app_same_length (a1 a2 b1 b2 : string) :
  String.length a1 = String.length a2 ->
  String.compare (a1 ++ b1) (a2 ++ b2)
  = match String.compare a1 a2 with
    | Eq => String.compare b1 b2
    | c => c
    end.
Proof.
  revert a2. induction a1 as [|c a1 IH]; intros [|c' a2] H; simpl in *;
    try discriminate; [reflexivity|].
  destruct (Ascii.compare c c'); [|reflexivity|reflexivity].
  apply IH. now injection H.
Qed.

Lemma length_append (a b : string) :
  String.length (a ++ b) = (String.length a + String.length b)%nat.
Proof. induction a as [|c a IH]; simpl; [reflexivity | now rewrite IH]. Qed.

Lemma length_zpad (w : nat) (n : Z) : String.length (zpad w n) = w.
Proof.
  revert n. induction w as [|w IH]; intros n; simpl; [reflexivity|].
  rewrite length_append, IH. simpl. lia.
Qed.

Lemma digit_code (a : Z) :
  0 <= a <= 9 -> N_of_ascii (digit a) = Z.to_N (48 + a).
Proof.
  intros Ha.
  assert (Ea : a = 0 \/ a = 1 \/ a = 2 \/ a = 3 \/ a = 4 \/ a = 5 \/ a = 6
               \/ a = 7 \/ a = 8 \/ a = 9) by lia.
  destruct Ea as [->|[->|[->|[->|[->|[->|[->|[->|[->| ->]]]]]]]]];
    reflexivity.
Qed.

Lemma digit_compare (a b : Z) :
  0 <= a <= 9 -> 0 <= b <= 9 ->
  Ascii.compare (digit a) (digit b) = (a ?= b).
Proof.
  intros Ha Hb. unfold Ascii.compare.
  rewrite !digit_code by assumption.
  rewrite Z2N.inj_compare by lia.
  apply Z.add_compare_mono_l.
Qed.

Lemma digit_mod (n : Z) : digit n = digit (n mod 10).
Proof. unfold digit. now rewrite Z.mod_mod by lia. Qed.

Lemma zpad_compare (w : nat) (a b : Z) :
  0 <= a < 10 ^ Z.of_nat w -> 0 <= b < 10 ^ Z.of_nat w ->
  String.compare (zpad w a) (zpad w b) = (a ?= b).
Proof.
  revert a b. induction w as [|w IH]; intros a b Ha Hb.
  - change (10 ^ Z.of_nat 0) with 1 in *.
    assert (a = 0) by lia. assert (b = 0) by lia. now subst.
  - rewrite Nat2Z.inj_succ, Z.pow_succ_r in Ha, Hb by lia.
    cbn [zpad].
    rewrite compare_app_same_length by now rewrite !length_zpad.
    rewrite IH.
    2:{ split; [apply Z.div_pos; lia | apply Z.div_lt_upper_bound; lia]. }
    2:{ split; [apply Z.div_pos; lia | apply Z.div_lt_upper_bound; lia]. }
    cbn [String.compare]. 
    rewrite (digit_mod a), (digit_mod b).
    pose proof (Z.mod_pos_bound a 10 ltac:(lia)). pose proof (Z.mod_pos_bound b 10 ltac:(lia)).
    rewrite digit_compare by lia.
    pose proof (Z.div_mod a 10 ltac:(lia)). pose proof (Z.div_mod b 10 ltac:(lia)).
    destruct (Z.compare_spec (a / 10) (b / 10));
      [destruct (Z.compare_spec (a mod 10) (b mod 10))| |]; symmetry;
      rewrite ?Z.compare_eq_iff, ?Z.compare_lt_iff, ?Z.compare_gt_iff; lia.
Qed.

Lemma days_in_month_bounds (y m : Z) :
  1 <= m <= 12 -> 28 <= days_in_month y m <= 31.
Proof.
  intros Hm. unfold days_in_month.
  assert (E : m = 1 \/ m = 2 \/ m = 3 \/ m = 4 \/ m = 5 \/ m = 6 \/ m = 7
              \/ m = 8 \/ m = 9 \/ m = 10 \/ m = 11 \/ m = 12) by lia.
  destruct (is_leap y);
    destruct E as [->|[->|[->|[->|[->|[->|[->|[->|[->|[->|[->| ->]]]]]]]]]]];
    vm_compute; split; discriminate.
Qed.

Lemma append_assoc (a b c : string) : ((a ++ b) ++ c = a ++ (b ++ c))%string.
Proof. induction a as [|x a IH]; simpl; [reflexivity | now rewrite IH]. Qed.

Lemma valid_date_fits (d : date) :
  valid_date d ->
  0 <= year d < 10 ^ Z.of_nat 4 /\ 0 <= month d < 10 ^ Z.of_nat 2
  /\ 0 <= day d < 10 ^ Z.of_nat 2.
Proof.
  intros (Hy & Hm & Hd). pose proof (days_in_month_bounds (year d) _ Hm).
  change (10 ^ Z.of_nat 4) with 10000. change (10 ^ Z.of_nat 2) with 100.
  lia.
Qed.

Lemma length_date_text (d : date) : String.length (date_text d) = 10%nat.
Proof.
  unfold date_text. rewrite !length_append, !length_zpad. reflexivity.
Qed.

Lemma zpad_compare_app (w : nat) (a b : Z) (s1 s2 : string) :
  0 <= a < 10 ^ Z.of_nat w -> 0 <= b < 10 ^ Z.of_nat w ->
  String.compare (zpad w a ++ s1) (zpad w b ++ s2)
  = match a ?= b with
    | Eq => String.compare s1 s2
    | c => c
    end.
Proof.
  intros Ha Hb.
  rewrite compare_app_same_length by now rewrite !length_zpad.
  now rewrite zpad_compare.
Qed.

Lemma compare_cons (c : ascii) (s1 s2 : string) :
  String.compare (String c s1) (String c s2) = String.compare s1 s2.
Proof. simpl. now rewrite ascii_compare_refl. Qed.

Lemma date_text_compare (a b : date) (s1 s2 : string) :
  valid_date a -> valid_date b ->
  String.compare (date_text a ++ s1) (date_text b ++ s2)
  = match date_compare a b with
    | Eq => String.compare s1 s2
    | c => c
    end.
Proof.
  intros Ha Hb.
  destruct (valid_date_fits a Ha) as (Hy & Hm & Hd).
  destruct (valid_date_fits b Hb) as (Hy' & Hm' & Hd').
  unfold date_text, date_compare.
  rewrite !append_assoc.
  rewrite zpad_compare_app by assumption.
  destruct (year a ?= year b); [|reflexivity|reflexivity].
  change ("-" ++ ?x)%string with (String "-" x).
  rewrite compare_cons, zpad_compare_app by assumption.
  destruct (month a ?= month b); [|reflexivity|reflexivity].
  change ("-" ++ ?x)%string with (String "-" x).
  rewrite compare_cons, zpad_compare_app by assumption.
  reflexivity.
Qed.

Lemma date_compare_lt (a b : date) : date_compare a b = Lt <-> date_lt a b.
Proof.
  unfold date_compare, date_lt.
  destruct (Z.compare_spec (year a) (year b));
    [destruct (Z.compare_spec (month a) (month b));
       [destruct (Z.compare_spec (day a) (day b))| |] | |];
    split; intros; try discriminate; try reflexivity; lia.
Qed.

Lemma date_compare_eq (a b : date) : date_compare a b = Eq <-> a = b.
Proof.
  unfold date_compare. destruct a as [y m d], b as [y' m' d']. simpl.
  destruct (Z.compare_spec y y');
    [destruct (Z.compare_spec m m'); [destruct (Z.compare_spec d d')| |] | |];
    split; intros E; try discriminate; try reflexivity;
    try (injection E; lia); subst; reflexivity.
Qed.

Lemma date_compare_gt (a b : date) : date_compare a b = Gt <-> date_lt b a.
Proof.
  unfold date_compare, date_lt.
  destruct (Z.compare_spec (year a) (year b));
    [destruct (Z.compare_spec (month a) (month b));
       [destruct (Z.compare_spec (day a) (day b))| |] | |];
    split; intros; try discriminate; try reflexivity; lia.
Qed.

Lemma date_lt_next_day (x s : date) :
  valid_date x -> valid_date s ->
  (date_lt x (next_day s) <-> date_le x s).
Proof.
  destruct x as [y m d], s as [y' m' d'].
  unfold valid_date, date_le, date_lt, next_day. simpl.
  intros (Hy & Hm & Hd) (Hy' & Hm' & Hd').
  assert (Hdec : date_lt (mkDate y m d) (mkDate y' m' d')
                 \/ (y = y' /\ m = m' /\ d = d')
                 \/ date_lt (mkDate y' m' d') (mkDate y m d))
    by (unfold date_lt; simpl; lia).
  unfold date_lt in Hdec. simpl in Hdec.
  destruct (d' <? days_in_month y' m') eqn:E1; simpl.
  - apply Z.ltb_lt in E1. split.
    + intros H. destruct Hdec as [C|[(-> & -> & ->)|C]];
        [left; exact C | right; reflexivity | lia].
    + intros [H|E]; [lia | injection E as -> -> ->; lia].
  - apply Z.ltb_ge in E1. assert (Ed : d' = days_in_month y' m') by lia.
    destruct (m' <? 12) eqn:E2; simpl.
    + apply Z.ltb_lt in E2. split.
      * intros H. destruct Hdec as [C|[(-> & -> & ->)|C]];
          [left; exact C | right; reflexivity | ].
        exfalso. destruct (Z.eq_dec y y') as [->|]; [|lia].
        destruct (Z.eq_dec m m') as [->|]; lia.
      * intros [H|E]; [lia | injection E as -> -> ->; lia].
    + apply Z.ltb_ge in E2. assert (Em : m' = 12) by lia. subst m'.
      change (days_in_month y' 12) with 31 in *. split.
      * intros H. destruct Hdec as [C|[(-> & -> & ->)|C]];
          [left; exact C | right; reflexivity | ].
        exfalso. destruct (Z.eq_dec y y') as [->|]; [|lia].
        destruct (Z.eq_dec m 12) as [->|]; [|lia].
        change (days_in_month y' 12) with 31 in *. lia.
      * intros [H|E]; [lia | injection E as -> -> ->; lia].
Qed.

Lemma lower_bound_is_strict (start : date) (t : datetime) :
  valid_date start -> valid_date (on t) ->
  (String.leb (isoformat (combine_min start)) (sqlite_datetime t) = true
   <-> date_lt start (on t)).
Proof.
  intros Hs Ht. unfold String.leb, isoformat, sqlite_datetime. simpl on.
  rewrite date_text_compare by assumption.
  rewrite <- date_compare_lt.
  destruct (date_compare start (on t)); cbn; split; congruence.
Qed.

Lemma hms_not_before_midnight (t : datetime) (d0 : date) :
  0 <= hour t <= 23 -> 0 <= minute t <= 59 -> 0 <= second t <= 59 ->
  String.compare (hms_text t) (hms_text (combine_min d0)) <> Lt.
Proof.
  intros Hh Hm Hs. unfold hms_text, combine_min.
  cbn [hour minute second].
  rewrite <- (append_empty (zpad 2 (second t))).
  rewrite <- (append_empty (zpad 2 0)) at 3.
  rewrite zpad_compare_app by (change (10 ^ Z.of_nat 2) with 100; lia).
  destruct (Z.compare_spec (hour t) 0); [|lia|discriminate].
  change (":" ++ ?x)%string with (String ":" x).
  rewrite compare_cons.
  rewrite zpad_compare_app by (change (10 ^ Z.of_nat 2) with 100; lia).
  destruct (Z.compare_spec (minute t) 0); [|lia|discriminate].
  change (":" ++ ?x)%string with (String ":" x).
  rewrite compare_cons.
  rewrite zpad_compare_app by (change (10 ^ Z.of_nat 2) with 100; lia).
  destruct (Z.compare_spec (second t) 0); [discriminate|lia|discriminate].
Qed.

Lemma upper_bound_of_interval (stop : date) (t : datetime) :
  valid_date stop -> valid_date (next_day stop) -> valid_datetime t ->
  (String.ltb (sqlite_datetime t) (sqlite_datetime_plus_1_day stop) = true
   <-> date_le (on t) stop).
Proof.
  intros Hs Hn (Ht & Hh & Hm & Hsec & _).
  rewrite <- date_lt_next_day by assumption.
  unfold String.ltb, sqlite_datetime_plus_1_day, sqlite_datetime.
  change (on (combine_min (next_day stop))) with (next_day stop).
  rewrite date_text_compare by assumption.
  rewrite <- date_compare_lt.
  destruct (date_compare (on t) (next_day stop)); [|tauto|split; discriminate].
  change (" " ++ ?x)%string with (String " " x).
  rewrite compare_cons.
  pose proof (hms_not_before_midnight t (next_day stop) Hh Hm Hsec) as H.
  destruct (String.compare _ _); [split; discriminate | congruence | split; discriminate].
Qed.

Lemma upper_bound_of_day (tomorrow : date) (t : datetime) :
  valid_date tomorrow -> valid_date (on t) ->
  (String.ltb (sqlite_datetime t) (isoformat (combine_min tomorrow)) = true
   <-> date_le (on t) tomorrow).
Proof.
  intros Hs Ht. unfold String.ltb, isoformat, sqlite_datetime. simpl on.
  rewrite date_text_compare by assumption.
  unfold date_le. rewrite <- date_compare_lt, <- date_compare_eq.
  destruct (date_compare (on t) tomorrow); cbn; split;
    try tauto; try congruence; intros [H|H]; discriminate.
Qed.

Lemma in_interval_spec (start stop : date) (t : datetime) :
  valid_date start -> valid_date stop -> valid_date (next_day stop) ->
  valid_datetime t ->
  (in_interval start stop t = true
   <-> date_lt start (on t) /\ date_le (on t) stop).
Proof.
  intros Hs He Hn Ht. unfold in_interval.
  rewrite andb_true_iff, lower_bound_is_strict, upper_bound_of_interval;
    try assumption; [reflexivity | apply Ht].
Qed.

Lemma in_interval_start_date (stop : date) (t : datetime) :
  in_interval (on t) stop t = false.
Proof.
  unfold in_interval, String.leb, isoformat, sqlite_datetime. simpl on.
  rewrite compare_same_prefix. reflexivity.
Qed.

Lemma date_lt_irrefl (a : date) : ~ date_lt a a.
Proof. unfold date_lt. lia. Qed.

Lemma date_lt_trans (a b c : date) : date_lt a b -> date_lt b c -> date_lt a c.
Proof. unfold date_lt. lia. Qed.

Lemma date_lt_total (a b : date) : date_lt a b \/ a = b \/ date_lt b a.
Proof.
  destruct (date_compare a b) eqn:E.
  - right; left. now apply date_compare_eq.
  - left. now apply date_compare_lt.
  - right; right. now apply date_compare_gt.
Qed.

Lemma on_day_spec (today : date) (t : datetime) :
  valid_date today -> valid_date (next_day today) -> valid_date (on t) ->
  (on_day today t = true <-> on t = next_day today).
Proof.
  intros Hs Hn Ht. unfold on_day.
  rewrite andb_true_iff, lower_bound_is_strict, upper_bound_of_day
    by assumption.
  split.
  - intros [Hlt [Hle|E]]; [exfalso | exact E].
    apply (date_lt_next_day _ _ Ht Hs) in Hle.
    destruct Hle as [Hle|E].
    + exact (date_lt_irrefl _ (date_lt_trans _ _ _ Hlt Hle)).
    + rewrite E in Hlt. exact (date_lt_irrefl _ Hlt).
  - intros E. rewrite E. split; [|now right].
    destruct (date_lt_total today (next_day today)) as [H|[H|H]];
      [exact H | exfalso | exfalso].
    + assert (Hx : date_lt today (next_day today))
        by (apply date_lt_next_day; [assumption|assumption|now right]).
      rewrite <- H in Hx. exact (date_lt_irrefl _ Hx).
    + assert (Hx : date_lt today (next_day today))
        by (apply date_lt_next_day; [assumption|assumption|now right]).
      exact (date_lt_irrefl _ (date_lt_trans _ _ _ Hx H)).
Qed.

(** ** The intervals of the queries *)

Lemma report_query_rows (d : db) (start stop : date) (r : joined) :
  In r (report_query d start stop)
  <-> In r (left_join d) /\ in_interval start stop (clock_in (fst r)) = true.
Proof.
  unfold report_query, where_interval.
  now rewrite sort_by_in, filter_In.
Qed.

Lemma left_join_valid (d : db) (r : joined) :
  valid_ledger d -> In r (left_join d) -> valid_datetime (clock_in (fst r)).
Proof.
  intros Hv Hr. unfold left_join in Hr. apply in_map_iff in Hr.
  destruct Hr as (p & <- & Hp). now apply Hv.
Qed.

(** X1: over a ledger of well-formed timestamps, the query of the report
    (and of the approval table) returns exactly the punches whose clock-in
    date is strictly after the start date and on or before the end date: the
    end date is included, the start date itself is not. *)
Theorem report_interval_excludes_start_date
        (d : db) (start stop : date) (r : joined) :
  valid_date start -> valid_date stop -> valid_date (next_day stop) ->
  valid_ledger d ->
  (In r (report_query d start stop)
   <-> In r (left_join d)
       /\ date_lt start (date_of r) /\ date_le (date_of r) stop).
Proof.
  intros Hs He Hn Hv. rewrite report_query_rows. unfold date_of. split.
  - intros [Hr Hi]. split; [exact Hr|].
    apply in_interval_spec in Hi; try assumption.
    now apply (left_join_valid d).
  - intros [Hr Hi]. split; [exact Hr|].
    apply in_interval_spec; try assumption.
    now apply (left_join_valid d).
Qed.

Lemma no_row_in_one_day (d : db) (day : date) :
  valid_date day -> valid_date (next_day day) -> valid_ledger d ->
  where_interval day day (left_join d) = [].
Proof.
  intros Hd Hn Hv.
  destruct (where_interval day day (left_join d)) as [|r l] eqn:E;
    [reflexivity|exfalso].
  assert (Hr : In r (where_interval day day (left_join d)))
    by (rewrite E; now left).
  unfold where_interval in Hr. apply filter_In in Hr. destruct Hr as [Hr Hi].
  apply in_interval_spec in Hi; try assumption;
    [|now apply (left_join_valid d)].
  destruct Hi as [Hlt [Hle|Heq]].
  - exact (date_lt_irrefl _ (date_lt_trans _ _ _ Hlt Hle)).
  - rewrite Heq in Hlt. exact (date_lt_irrefl _ Hlt).
Qed.

(** X2: for an interval of one day (start = end) the report is empty
    whatever the ledger holds, and the approval view stops at its "nothing
    in the interval" caption: it never commits an adjustment and leaves the
    database as it was. *)
Theorem one_day_interval_is_always_empty {F : Float64}
        (d : db) (day : date) (user : principal) (pressed : bool)
        (sel_id : field Z) (new_in new_out : field datetime) (approve : bool) :
  valid_date day -> valid_date (next_day day) -> valid_ledger d ->
  reports_view d day day = IngenData
  /\ fst (approvals_view d user day day pressed sel_id new_in new_out approve)
     = d
  /\ snd (approvals_view d user day day pressed sel_id new_in new_out approve)
     <> Success.
Proof.
  intros Hd Hn Hv. pose proof (no_row_in_one_day d day Hd Hn Hv) as E.
  split; [|split].
  - unfold reports_view, report_query. now rewrite E.
  - unfold approvals_view, approvals_query. rewrite E.
    now destruct (negb _).
  - unfold approvals_view, approvals_query. rewrite E.
    destruct (negb _); discriminate.
Qed.

(** X3: the table "Dagens stämplingar" under the punch clock holds exactly
    the user's punches whose clock-in date is the day after today; a punch
    of today is never in it. *)
Theorem todays_table_shows_tomorrow
        (d : db) (user : principal) (today : date) (p : punch_row) :
  valid_date today -> valid_date (next_day today) -> valid_ledger d ->
  (In p (todays_punches d user today)
   <-> In p (punches d) /\ user_id p = me user
       /\ on (clock_in p) = next_day today).
Proof.
  intros Hd Hn Hv. unfold todays_punches.
  rewrite sort_by_in, filter_In, andb_true_iff, Z.eqb_eq.
  split.
  - intros (Hp & Hu & Ho). split; [exact Hp|]. split; [exact Hu|].
    apply on_day_spec in Ho; try assumption. apply (Hv p Hp).
  - intros (Hp & Hu & Ho). split; [exact Hp|]. split; [exact Hu|].
    apply on_day_spec; try assumption. apply (Hv p Hp).
Qed.

Ltac valid_by_computation :=
  vm_compute; repeat split; discriminate.

Lemma erik_gone_home_valid : valid_ledger erik_gone_home.
Proof.
  intros p Hp. vm_compute in Hp. destruct Hp as [<-|[]].
  valid_by_computation.
Qed.

Lemma report_interval_excludes_start_date_witness :
  valid_date monday /\ valid_date tuesday /\ valid_date (next_day tuesday)
  /\ valid_ledger erik_gone_home
  /\ In (mkPunch 1 3 (clock tuesday 9 0) (Some (clock tuesday 18 0))
                 (Some ""%string) (Some ""%string) 0, Some erik_row)
        (report_query erik_gone_home monday tuesday)
  /\ report_query erik_gone_home tuesday tuesday = [].
Proof.
  assert (H1 : valid_date monday) by valid_by_computation.
  assert (H2 : valid_date tuesday) by valid_by_computation.
  assert (H3 : valid_date (next_day tuesday)) by valid_by_computation.
  repeat (split; [assumption || exact erik_gone_home_valid|]).
  split; [|vm_compute; reflexivity].
  apply (report_interval_excludes_start_date erik_gone_home monday tuesday _
           H1 H2 H3 erik_gone_home_valid).
  split; [left; reflexivity|].
  split; [right; split; [reflexivity|]; right; split; [reflexivity|]; reflexivity | right; reflexivity].
Defined.

Lemma one_day_interval_is_always_empty_witness :
  valid_date tuesday /\ valid_date (next_day tuesday)
  /\ valid_ledger erik_gone_home
  /\ map (fun p => on (clock_in p)) (punches erik_gone_home) = [tuesday]
  /\ forall F : Float64,
     reports_view erik_gone_home tuesday tuesday = IngenData
     /\ snd (approvals_view erik_gone_home anna tuesday tuesday true (Parsed 1)
                            Blank Blank true) <> Success.
Proof.
  assert (H2 : valid_date tuesday) by valid_by_computation.
  assert (H3 : valid_date (next_day tuesday)) by valid_by_computation.
  repeat (split; [assumption || exact erik_gone_home_valid|]).
  split; [reflexivity|]. intros F.
  pose proof (one_day_interval_is_always_empty erik_gone_home tuesday anna
                true (Parsed 1) Blank Blank true H2 H3 erik_gone_home_valid)
    as (Ha & _ & Hc).
  split; [exact Ha | exact Hc].
Defined.

Lemma todays_table_shows_tomorrow_witness :
  valid_date monday /\ valid_date (next_day monday)
  /\ valid_ledger erik_gone_home
  /\ todays_punches erik_gone_home erik tuesday = []
  /\ In (mkPunch 1 3 (clock tuesday 9 0) (Some (clock tuesday 18 0))
                 (Some ""%string) (Some ""%string) 0)
        (todays_punches erik_gone_home erik monday).
Proof.
  assert (H2 : valid_date monday) by valid_by_computation.
  assert (H3 : valid_date (next_day monday)) by valid_by_computation.
  repeat (split; [assumption || exact erik_gone_home_valid|]).
  split; [vm_compute; reflexivity|].
  apply (todays_table_shows_tomorrow erik_gone_home erik monday _
           H2 H3 erik_gone_home_valid).
  split; [left; reflexivity|]. split; reflexivity.
Defined.

(** ** Keys *)

Lemma next_rowid_above (ids : list Z) (i : Z) :
  In i ids -> i < next_rowid ids.
Proof.
  unfold next_rowid. induction ids as [|j ids IH]; cbn [fold_right In];
    [intros []|].
  intros [->|H]; [lia|]. specialize (IH H). lia.
Qed.

Lemma next_rowid_fresh (ids : list Z) : ~ In (next_rowid ids) ids.
Proof. intros H. apply next_rowid_above in H. lia. Qed.

Lemma NoDup_snoc {A : Type} (l : list A) (x : A) :
  NoDup l -> ~ In x l -> NoDup (l ++ [x]).
Proof.
  intros Hl Hx. induction l as [|a l IH]; simpl.
  - constructor; [intros []|constructor].
  - inversion Hl as [|? ? Ha Hl']; subst. constructor.
    + rewrite in_app_iff. intros [H|[H|[]]]; [now apply Ha|].
      apply Hx. now left.
    + apply IH; [exact Hl'|]. intros H. apply Hx. now right.
Qed.

Lemma pin_or_none_not_empty (s : string) : pin_or_none s <> Some EmptyString.
Proof.
  unfold pin_or_none. destruct (String.eqb_spec s EmptyString) as [->|H];
    [discriminate|]. intros E. injection E as ->. now apply H.
Qed.

Lemma map_id_update_punches (d : db) (i : Z) (f : punch_row -> punch_row) :
  (forall p, p_id (f p) = p_id p) ->
  map p_id (punches (update_punches d i f)) = map p_id (punches d).
Proof.
  intros Hf. unfold update_punches. simpl. rewrite map_map.
  apply map_ext. intros p. destruct (p_id p =? i); [apply Hf | reflexivity].
Qed.

Lemma clock_view_keeps_users d user text place now pressed :
  users (fst (clock_view d user text place now pressed)) = users d.
Proof.
  unfold clock_view.
  destruct (active_punch d (me user)); destruct pressed; reflexivity.
Qed.

Lemma adjust_keeps_users d pressed sel_id new_in new_out approve :
  users (fst (adjust d pressed sel_id new_in new_out approve)) = users d.
Proof.
  destruct (feedback_is_success
              (snd (adjust d pressed sel_id new_in new_out approve))) eqn:Es.
  - apply feedback_is_success_true in Es.
    destruct (adjust_success_shape _ _ _ _ _ _ Es)
      as (i & Hfit & -> & -> & Hi & Ho).
    now rewrite adjust_saves by assumption.
  - rewrite adjust_else_unchanged; [reflexivity|].
    intros E. rewrite E in Es. discriminate.
Qed.

Lemma adjust_keeps_punch_ids d pressed sel_id new_in new_out approve :
  map p_id (punches (fst (adjust d pressed sel_id new_in new_out approve)))
  = map p_id (punches d).
Proof.
  destruct (feedback_is_success
              (snd (adjust d pressed sel_id new_in new_out approve))) eqn:Es.
  - apply feedback_is_success_true in Es.
    destruct (adjust_success_shape _ _ _ _ _ _ Es)
      as (i & Hfit & -> & -> & Hi & Ho).
    rewrite adjust_saves by assumption. simpl fst.
    now apply map_id_update_punches.
  - rewrite adjust_else_unchanged; [reflexivity|].
    intros E. rewrite E in Es. discriminate.
Qed.

Lemma approvals_view_as_adjust d user start stop pressed sel_id new_in new_out
      approve :
  fst (approvals_view d user start stop pressed sel_id new_in new_out approve)
  = d
  \/ fst (approvals_view d user start stop pressed sel_id new_in new_out approve)
     = fst (adjust d pressed sel_id new_in new_out approve).
Proof.
  unfold approvals_view. destruct (negb _); [now left|].
  destruct (approvals_query _ _ _); [now left|].
  destruct (to_datetime_columns _); [now left | now right].
Qed.

Lemma clock_view_keeps_keys d user text place now pressed :
  keys_are_unique d ->
  keys_are_unique (fst (clock_view d user text place now pressed)).
Proof.
  intros (Hu & Hn & Hp & He & Hpin).
  unfold keys_are_unique. rewrite clock_view_keeps_users.
  repeat (split; [assumption|]). split; [|split; assumption].
  unfold clock_view.
  destruct (active_punch d (me user)); destruct pressed; simpl fst;
    try exact Hp.
  - now rewrite map_id_update_punches.
  - unfold stamp_in. simpl punches. rewrite map_app. simpl.
    apply NoDup_snoc; [exact Hp | apply next_rowid_fresh].
Qed.

Lemma staff_view_keeps_keys d user f pressed :
  keys_are_unique d ->
  keys_are_unique (fst (staff_view d user f pressed)).
Proof.
  intros (Hu & Hn & Hp & He & Hpin). unfold staff_view.
  destruct (negb (role_eqb _ _)); [repeat split; assumption|].
  destruct (negb pressed); [repeat split; assumption|].
  destruct (f_mode f).
  - unfold insert_user.
    destruct (existsb _ (users d)) eqn:E; [repeat split; assumption|].
    simpl. unfold keys_are_unique. simpl. rewrite !map_app. simpl.
    split; [apply NoDup_snoc; [exact Hu | apply next_rowid_fresh]|].
    split.
    { apply NoDup_snoc; [exact Hn|]. intros H.
      apply in_map_iff in H. destruct H as (u & Eu & Hin).
      assert (existsb (fun u => String.eqb (username u) (f_username f))
                      (users d) = true)
        by (apply existsb_exists; exists u; split;
            [exact Hin | now apply String.eqb_eq]).
      congruence. }
    split; [exact Hp|]. split; [now destruct (users d)|].
    intros u Hin. apply in_app_iff in Hin.
    destruct Hin as [Hin|[<-|[]]]; [now apply Hpin|].
    apply pin_or_none_not_empty.
  - unfold update_user, keys_are_unique. simpl. rewrite !map_map.
    assert (E1 : map (fun u => u_id (if String.eqb (username u) (f_username f)
                       then mkUser (u_id u) (username u) (f_full_name f)
                              (match f_pw_digest f with
                               | Some h => h | None => password_hash u end)
                              (f_role f) (f_hourly f) (pin_or_none (f_pin f))
                       else u)) (users d) = map u_id (users d))
      by (apply map_ext; intros u; now destruct (String.eqb _ _)).
    assert (E2 : map (fun u => username (if String.eqb (username u) (f_username f)
                       then mkUser (u_id u) (username u) (f_full_name f)
                              (match f_pw_digest f with
                               | Some h => h | None => password_hash u end)
                              (f_role f) (f_hourly f) (pin_or_none (f_pin f))
                       else u)) (users d) = map username (users d))
      by (apply map_ext; intros u; now destruct (String.eqb _ _)).
    rewrite E1, E2. repeat (split; [assumption|]). split.
    + now destruct (users d).
    + intros u Hin. apply in_map_iff in Hin. destruct Hin as (v & <- & Hv).
      destruct (String.eqb _ _); [apply pin_or_none_not_empty | now apply Hpin].
Qed.

Lemma approvals_view_keeps_keys d user start stop pressed sel_id new_in
      new_out approve :
  keys_are_unique d ->
  keys_are_unique
    (fst (approvals_view d user start stop pressed sel_id new_in new_out
                         approve)).
Proof.
  intros H.
  destruct (approvals_view_as_adjust d user start stop pressed sel_id new_in
              new_out approve) as [-> | ->]; [exact H|].
  destruct H as (Hu & Hn & Hp & He & Hpin). unfold keys_are_unique.
  rewrite adjust_keeps_users, adjust_keeps_punch_ids. repeat split; assumption.
Qed.

Lemma step_keeps_keys (d d' : db) :
  step d d' -> keys_are_unique d -> keys_are_unique d'.
Proof.
  intros [d0 user text place now pressed
         | d0 user f pressed
         | d0 user start stop pressed sel_id new_in new_out approve] H.
  - now apply clock_view_keeps_keys.
  - now apply staff_view_keeps_keys.
  - now apply approvals_view_keeps_keys.
Qed.

Lemma seeded_keys : keys_are_unique seeded.
Proof.
  unfold keys_are_unique. simpl.
  repeat split; try discriminate.
  - repeat constructor; simpl; intuition discriminate.
  - repeat constructor; simpl; intuition discriminate.
  - constructor.
  - intros u [<-|[<-|[<-|[]]]]; discriminate.
Qed.

Lemma reachable_keys (d : db) : reachable d -> keys_are_unique d.
Proof.
  induction 1 as [|d d' _ IH Hs]; [exact seeded_keys|].
  exact (step_keeps_keys d d' Hs IH).
Qed.

(** X4: in every state the views reach from the seeded database, user ids,
    usernames and punch ids are each without repetition. *)
Theorem reachable_keys_are_unique (d : db) :
  reachable d ->
  NoDup (map u_id (users d)) /\ NoDup (map username (users d))
  /\ NoDup (map p_id (punches d)).
Proof.
  intros H. destruct (reachable_keys d H) as (Hu & Hn & Hp & _).
  auto.
Qed.

Lemma reachable_keys_are_unique_witness :
  reachable two_eriks
  /\ map u_id (users two_eriks) = [1; 2; 3; 4]
  /\ NoDup (map username (users two_eriks))
  /\ NoDup (map p_id (punches two_eriks)).
Proof.
  assert (R : reachable two_eriks).
  { unfold two_eriks.
    repeat (eapply reachable_step; [|apply step_clock]).
    eapply reachable_step; [constructor | apply step_staff]. }
  split; [exact R|]. split; [reflexivity|].
  exact (proj2 (reachable_keys_are_unique two_eriks R)).
Defined.

(** ** Logging in *)

Lemma ensure_seed_admin_reachable (d : db) :
  reachable d -> ensure_seed_admin d = d.
Proof.
  intros H. destruct (reachable_keys d H) as (_ & _ & _ & He & _).
  unfold ensure_seed_admin. now destruct (users d).
Qed.

Lemma runs_store (a : app_state) : runs a -> a = fresh \/ reachable (store a).
Proof.
  induction 1 as [|a l choice _ IH]; [now left|right].
  assert (R : reachable (ensure_seed_admin (store a))).
  { destruct IH as [->|R]; [exact reachable_seeded|].
    now rewrite ensure_seed_admin_reachable. }
  unfold main. destruct (session a) as [user|].
  - destruct choice; simpl store; try exact R.
    + eapply reachable_step; [exact R | apply step_clock].
    + eapply reachable_step; [exact R | apply step_approvals].
    + eapply reachable_step; [exact R | apply step_staff].
  - now destruct (login_ui _ _ _ _ _).
Qed.

Lemma login_ui_entered (d : db) (name digest text : string)
      (pressed : login_button) (who : principal) :
  login_ui d name digest text pressed = Entered who ->
  exists u, In u (users d) /\ who = mkPrincipal (u_id u) (u_role u)
            /\ ((pressed = LoggaIn /\ username u = name
                 /\ password_hash u = digest)
                \/ (pressed = LoggaInViaPIN /\ pin u = Some text)).
Proof.
  unfold login_ui, get_user_by_username, get_user_by_pin.
  destruct pressed; [discriminate| |].
  - destruct (find _ (users d)) as [u|] eqn:E; [|discriminate].
    destruct (String.eqb_spec (password_hash u) digest) as [Eh|];
      [|discriminate].
    intros H. injection H as <-. apply find_some in E. destruct E as [Hin E].
    apply String.eqb_eq in E. exists u. auto 6.
  - destruct (find _ (users d)) as [u|] eqn:E; [|discriminate].
    intros H. injection H as <-. apply find_some in E. destruct E as [Hin E].
    exists u. split; [exact Hin|]. split; [reflexivity|]. right.
    split; [reflexivity|]. unfold pin_is in E.
    destruct (pin u) as [q|]; [|discriminate].
    apply String.eqb_eq in E. now subst.
Qed.

Lemma staff_view_keeps_ids d user f pressed (i : Z) :
  In i (map u_id (users d)) ->
  In i (map u_id (users (fst (staff_view d user f pressed)))).
Proof.
  intros H. unfold staff_view.
  destruct (negb (role_eqb _ _)); [exact H|].
  destruct (negb pressed); [exact H|].
  destruct (f_mode f).
  - unfold insert_user. destruct (existsb _ (users d)); [exact H|].
    simpl. rewrite map_app, in_app_iff. now left.
  - unfold update_user. simpl. rewrite map_map.
    apply in_map_iff in H. destruct H as (u & <- & Hu).
    apply in_map_iff. exists u. split; [|exact Hu].
    now destruct (String.eqb _ _).
Qed.

Lemma adjust_keeps_owners d pressed sel_id new_in new_out approve :
  map user_id (punches (fst (adjust d pressed sel_id new_in new_out approve)))
  = map user_id (punches d).
Proof.
  destruct (feedback_is_success
              (snd (adjust d pressed sel_id new_in new_out approve))) eqn:Es.
  - apply feedback_is_success_true in Es.
    destruct (adjust_success_shape _ _ _ _ _ _ Es)
      as (i & Hfit & -> & -> & Hi & Ho).
    rewrite adjust_saves by assumption. unfold update_punches. simpl.
    rewrite map_map. apply map_ext. intros p. now destruct (p_id p =? i).
  - rewrite adjust_else_unchanged; [reflexivity|].
    intros E. rewrite E in Es. discriminate.
Qed.

Lemma clock_view_owners d user text place now pressed (p : punch_row) :
  In p (punches (fst (clock_view d user text place now pressed))) ->
  user_id p = me user \/ In (user_id p) (map user_id (punches d)).
Proof.
  unfold clock_view.
  destruct (active_punch d (me user)) as [a|]; destruct pressed; simpl fst;
    intros H; try (right; now apply in_map).
  - right. unfold update_punches in H. simpl in H.
    apply in_map_iff in H. destruct H as (q & <- & Hq).
    destruct (p_id q =? p_id a); [simpl|]; now apply in_map.
  - unfold stamp_in in H. simpl in H. apply in_app_iff in H.
    destruct H as [H|[<-|[]]]; [right; now apply in_map | now left].
Qed.

Lemma fresh_linked : linked fresh.
Proof. split; [discriminate | intros p []]. Qed.

Lemma main_keeps_linked (a : app_state) (l : login_form) (choice : menu) :
  linked a -> linked (main a l choice).
Proof.
  intros [Hs Hp].
  assert (Hd : forall i, In i (map u_id (users (store a))) ->
                         In i (map u_id (users (ensure_seed_admin (store a))))).
  { unfold ensure_seed_admin.
    destruct (users (store a)) eqn:E; [intros i []|].
    intros i Hi. now rewrite E. }
  assert (Hq : punches (ensure_seed_admin (store a)) = punches (store a)).
  { unfold ensure_seed_admin. now destruct (users (store a)). }
  set (d := ensure_seed_admin (store a)) in *.
  assert (Hp' : forall p, In p (punches d) -> In (user_id p) (map u_id (users d))).
  { intros p H. rewrite Hq in H. auto. }
  unfold main. fold d. destruct (session a) as [user|] eqn:Eu.
  - assert (Hme : In (me user) (map u_id (users d))) by auto.
    destruct choice; unfold linked; simpl store; simpl session.
    + rewrite clock_view_keeps_users. split; [intros who E; now injection E as <-|].
      intros p H. apply clock_view_owners in H. destruct H as [->|H]; [exact Hme|].
      apply in_map_iff in H. destruct H as (q & <- & Hq'). auto.
    + split; [intros who E; now injection E as <-|exact Hp'].
    + destruct (approvals_view_as_adjust d user start stop pressed sel_id
                  new_in new_out approve) as [-> | ->].
      * split; [intros who E; now injection E as <-|exact Hp'].
      * rewrite adjust_keeps_users.
        split; [intros who E; now injection E as <-|].
        intros p H. apply (in_map user_id) in H.
        rewrite adjust_keeps_owners in H.
        apply in_map_iff in H. destruct H as (q & <- & Hq'). auto.
    + split; [intros who E; now injection E as <-|exact Hp'].
    + rewrite staff_view_keeps_punches. split.
      * intros who E. injection E as <-. now apply staff_view_keeps_ids.
      * intros p H. apply staff_view_keeps_ids. auto.
    + split; [discriminate | exact Hp'].
  - destruct (login_ui d _ _ _ _) as [who| | |] eqn:El;
      unfold linked; simpl store; simpl session;
      try (split; [discriminate | exact Hp']).
    split; [|exact Hp'].
    intros w E. injection E as <-.
    apply login_ui_entered in El. destruct El as (u & Hin & -> & _).
    simpl. now apply in_map.
Qed.

Lemma runs_linked (a : app_state) : runs a -> linked a.
Proof.
  induction 1 as [|a l choice _ IH]; [exact fresh_linked|].
  now apply main_keeps_linked.
Qed.

Lemma find_user_some (d : db) (i : Z) :
  In i (map u_id (users d)) -> exists u, find_user d i = Some u.
Proof.
  intros H. unfold find_user.
  destruct (find _ (users d)) as [u|] eqn:E; [now exists u|].
  apply in_map_iff in H. destruct H as (u & <- & Hu).
  pose proof (find_none _ _ E u Hu) as F. simpl in F.
  now rewrite Z.eqb_refl in F.
Qed.

(** X9: in every state of the application, each punch belongs to a worker
    of the register, so no row of the report's LEFT JOIN has a NULL name, and
    the logged-in principal is a worker of the register. *)
Theorem every_punch_has_its_worker (a : app_state) :
  runs a ->
  (forall p, In p (punches (store a)) ->
             exists u, find_user (store a) (user_id p) = Some u
                       /\ In u (users (store a)) /\ u_id u = user_id p)
  /\ (forall r, In r (left_join (store a)) -> snd r <> None)
  /\ (forall who, session a = Some who ->
                  exists u, In u (users (store a)) /\ u_id u = me who).
Proof.
  intros H. destruct (runs_linked a H) as [Hs Hp]. split; [|split].
  - intros p Hin. destruct (find_user_some _ _ (Hp p Hin)) as (u & E).
    exists u. split; [exact E|]. apply find_some in E.
    destruct E as [Hu E]. split; [exact Hu | now apply Z.eqb_eq].
  - intros r Hr. unfold left_join in Hr. apply in_map_iff in Hr.
    destruct Hr as (p & <- & Hin). simpl.
    destruct (find_user_some _ _ (Hp p Hin)) as (u & ->). discriminate.
  - intros who E. specialize (Hs who E). apply in_map_iff in Hs.
    destruct Hs as (u & Eu & Hu). eauto.
Qed.

Lemma find_unique_username (us : list user_row) (u : user_row) :
  NoDup (map username us) -> In u us ->
  find (fun v => String.eqb (username v) (username u)) us = Some u.
Proof.
  induction us as [|v us IH]; simpl; [intros _ []|].
  intros Hnd [->|Hin].
  - now rewrite String.eqb_refl.
  - inversion Hnd as [|? ? Hv Hnd']; subst.
    destruct (String.eqb_spec (username v) (username u)) as [E|_];
      [|now apply IH].
    exfalso. apply Hv. rewrite E. now apply in_map.
Qed.

(** X5: in a reachable state, the password login enters as a principal
    exactly when the register has a row with the typed username whose stored
    digest is the digest of the typed password; the session then carries the
    id and the role of that row. *)
Theorem password_login_matches_the_row
        (d : db) (name digest text : string) (who : principal) :
  reachable d ->
  (login_ui d name digest text LoggaIn = Entered who
   <-> exists u, In u (users d) /\ username u = name
                 /\ password_hash u = digest
                 /\ who = mkPrincipal (u_id u) (u_role u)).
Proof.
  intros R. split.
  - intros H. apply login_ui_entered in H.
    destruct H as (u & Hin & -> & [(_ & Hn & Hh)|(C & _)]); [|discriminate].
    exists u. auto.
  - intros (u & Hin & <- & <- & ->).
    destruct (reachable_keys d R) as (_ & Hn & _).
    unfold login_ui, get_user_by_username.
    rewrite (find_unique_username _ _ Hn Hin).
    now rewrite String.eqb_refl.
Qed.

Lemma password_login_matches_the_row_witness :
  reachable seeded
  /\ login_ui seeded "erik"
       "14bf075c90460abf992eded5e80766dc474229ecc33a72b63e6844cce4a5f32c"
       "" LoggaIn = Entered erik
  /\ login_ui seeded "erik" changeme_digest "" LoggaIn = WrongCredentials.
Proof.
  split; [constructor|]. split; [|reflexivity].
  apply (password_login_matches_the_row seeded _ _ _ erik reachable_seeded).
  exists erik_row. split; [right; right; left; reflexivity|].
  repeat split.
Defined.

(** X6: a worker whose creation succeeded can log in at once with the
    username of the form and the password of the form (changeme when the
    password field was left empty), as the principal with the new id and the
    role of the form; any other digest is refused. *)
Theorem created_worker_can_log_in
        (d : db) (user : principal) (f : person_form) (text : string) :
  f_mode f = Ny -> snd (staff_view d user f true) = Success ->
  let d' := fst (staff_view d user f true) in
  let digest := match f_pw_digest f with
                | Some h => h
                | None => changeme_digest
                end in
  login_ui d' (f_username f) digest text LoggaIn
  = Entered (mkPrincipal (next_rowid (map u_id (users d))) (f_role f))
  /\ (forall other, other <> digest ->
        login_ui d' (f_username f) other text LoggaIn = WrongCredentials).
Proof.
  intros Hm Hs d' digest. subst d'. revert Hs.
  unfold staff_view, insert_user. rewrite Hm.
  destruct (negb (role_eqb _ _)); [discriminate|]. simpl negb. cbv iota.
  destruct (existsb _ (users d)) eqn:E; [discriminate|]. intros _.
  simpl fst. unfold login_ui, get_user_by_username. simpl users.
  assert (F : find (fun u => String.eqb (username u) (f_username f)) (users d)
              = None).
  { destruct (find _ (users d)) as [u|] eqn:F; [|reflexivity].
    apply find_some in F. destruct F as [Hin F].
    assert (existsb (fun u => String.eqb (username u) (f_username f))
                    (users d) = true)
      by (apply existsb_exists; eauto).
    congruence. }
  rewrite (find_app_none _ _ _ F). simpl. rewrite String.eqb_refl. simpl.
  split.
  - fold digest. now rewrite String.eqb_refl.
  - intros other Ho. fold digest.
    destruct (String.eqb_spec digest other) as [->|_]; [now destruct Ho|].
    reflexivity.
Qed.

Lemma created_worker_can_log_in_witness :
  f_mode bo_form = Ny
  /\ snd (staff_view seeded admin bo_form true) = Success
  /\ login_ui (fst (staff_view seeded admin bo_form true)) "bo"
              changeme_digest "" LoggaIn
     = Entered (mkPrincipal 4 Employee).
Proof.
  split; [reflexivity|]. split; [reflexivity|].
  exact (proj1 (created_worker_can_log_in seeded admin bo_form ""
                  eq_refl eq_refl)).
Defined.

Lemma pin_is_find_app (us extra : list user_row) (text : string)
      (u : user_row) :
  find (pin_is text) us = Some u -> find (pin_is text) (us ++ extra) = Some u.
Proof. apply find_app_some. Qed.



(** X8: in a reachable state the PIN login with an empty PIN field, or with
    a pin that no row holds, is refused: workers without a pin are never
    entered by default. *)
Theorem empty_pin_enters_nobody (d : db) (name digest : string) :
  reachable d ->
  login_ui d name digest "" LoggaInViaPIN = InvalidPin
  /\ (forall text,
         (forall u, In u (users d) -> pin u <> Some text) ->
         login_ui d name digest text LoggaInViaPIN = InvalidPin).
Proof.
  intros R. destruct (reachable_keys d R) as (_ & _ & _ & _ & Hpin).
  assert (G : forall text,
             (forall u, In u (users d) -> pin u <> Some text) ->
             login_ui d name digest text LoggaInViaPIN = InvalidPin).
  { intros text H. unfold login_ui, get_user_by_pin.
    destruct (find _ (users d)) as [u|] eqn:F; [|reflexivity].
    apply find_some in F. destruct F as [Hin F]. unfold pin_is in F.
    exfalso. apply (H u Hin). destruct (pin u) as [q|]; [|discriminate].
    apply String.eqb_eq in F. now subst. }
  split; [apply G; exact Hpin | exact G].
Qed.

Lemma empty_pin_enters_nobody_witness :
  reachable (fst (staff_view seeded admin namesake_form true))
  /\ map pin (users (fst (staff_view seeded admin namesake_form true)))
     = [Some "0000"; Some "1111"; Some "2222"; None]%string
  /\ login_ui (fst (staff_view seeded admin namesake_form true)) "" "" ""
              LoggaInViaPIN = InvalidPin.
Proof.
  assert (R : reachable (fst (staff_view seeded admin namesake_form true))).
  { eapply reachable_step; [constructor | apply step_staff]. }
  split; [exact R|]. split; [reflexivity|].
  exact (proj1 (empty_pin_enters_nobody _ "" "" R)).
Defined.

Lemma every_punch_has_its_worker_witness :
  runs (main (main (main fresh (mkLogin "" "" "2222" LoggaInViaPIN) LoggaUt)
                   (mkLogin "" "" "" NoLogin)
                   (Stampelklocka "" "" (clock tuesday 9 0) StamplaIN))
             (mkLogin "" "" "" NoLogin) LoggaUt)
  /\ map (fun r => (user_id (fst r), option_map full_name (snd r)))
         (left_join
            (store (main (main (main fresh
                                     (mkLogin "" "" "2222" LoggaInViaPIN)
                                     LoggaUt)
                               (mkLogin "" "" "" NoLogin)
                               (Stampelklocka "" "" (clock tuesday 9 0)
                                              StamplaIN))
                         (mkLogin "" "" "" NoLogin) LoggaUt)))
     = [(3, Some "Erik Ek"%string)]
  /\ forall r,
       In r (left_join
               (store (main (main (main fresh
                                        (mkLogin "" "" "2222" LoggaInViaPIN)
                                        LoggaUt)
                                  (mkLogin "" "" "" NoLogin)
                                  (Stampelklocka "" "" (clock tuesday 9 0)
                                                 StamplaIN))
                            (mkLogin "" "" "" NoLogin) LoggaUt))) ->
       snd r <> None.
Proof.
  assert (R : runs (main (main (main fresh
                                     (mkLogin "" "" "2222" LoggaInViaPIN)
                                     LoggaUt)
                               (mkLogin "" "" "" NoLogin)
                               (Stampelklocka "" "" (clock tuesday 9 0)
                                              StamplaIN))
                         (mkLogin "" "" "" NoLogin) LoggaUt))
    by (repeat constructor).
  split; [exact R|]. split; [reflexivity|].
  exact (proj1 (proj2 (every_punch_has_its_worker _ R))).
Defined.

(** ** The report: nothing lost, nothing counted twice *)

Lemma Qsum_map_ext {A : Type} (f g : A -> Q) (l : list A) :
  (forall x, In x l -> (f x == g x)%Q) ->
  (Qsum (map f l) == Qsum (map g l))%Q.
Proof.
  induction l as [|a l IH]; intros H; simpl; [reflexivity|].
  rewrite (H a) by now left. rewrite IH; [reflexivity|].
  intros x Hx. apply H. now right.
Qed.

Lemma Qsum_map_plus {A : Type} (f g : A -> Q) (l : list A) :
  (Qsum (map (fun x => f x + g x) l) == Qsum (map f l) + Qsum (map g l))%Q.
Proof.
  induction l as [|a l IH]; simpl; [reflexivity|]. rewrite IH. ring.
Qed.

Lemma Qsum_perm (l l' : list Q) : Permutation l l' -> (Qsum l == Qsum l')%Q.
Proof.
  induction 1; simpl.
  - reflexivity.
  - now rewrite IHPermutation.
  - ring.
  - now rewrite IHPermutation1.
Qed.

Lemma Qsum_indicator (ks : list key) (k0 : key) (c : Q) :
  NoDup ks ->
  (Qsum (map (fun k => if key_eqb k k0 then c else 0) ks)
   == if existsb (key_eqb k0) ks then c else 0)%Q.
Proof.
  induction ks as [|k ks IH]; intros Hnd; simpl; [reflexivity|].
  inversion Hnd as [|? ? Hk Hnd']; subst. rewrite (IH Hnd').
  destruct (key_eqb k k0) eqn:E.
  - apply key_eqb_eq in E. subst k0. rewrite key_eqb_refl. simpl.
    destruct (existsb (key_eqb k) ks) eqn:F; [|ring].
    apply existsb_key in F. contradiction.
  - assert (E' : key_eqb k0 k = false).
    { destruct (key_eqb k0 k) eqn:G; [|reflexivity].
      apply key_eqb_eq in G. subst. now rewrite key_eqb_refl in E. }
    rewrite E'. simpl. ring.
Qed.

Lemma filter_all_true {A : Type} (f : A -> bool) (l : list A) :
  (forall x, In x l -> f x = true) -> filter f l = l.
Proof.
  induction l as [|a l IH]; intros H; simpl; [reflexivity|].
  rewrite (H a) by now left. f_equal. apply IH. intros x Hx. apply H.
  now right.
Qed.

Lemma has_worker_key (r : joined) :
  has_worker r = match key_of r with Some _ => true | None => false end.
Proof. unfold has_worker, key_of. now destruct (snd r). Qed.

Lemma group_sums_partition {F : Float64} (ks : list key)
      (rows : list joined) :
  NoDup ks ->
  (forall r k, In r rows -> key_of r = Some k -> In k ks) ->
  (Qsum (map (fun k => Qsum (map hours (filter (in_group k) rows))) ks)
   == Qsum (map hours (filter has_worker rows)))%Q.
Proof.
  intros Hnd. induction rows as [|r rows IH]; intros Hin.
  - simpl. apply Qsum_all_zero. intros q Hq.
    apply in_map_iff in Hq. now destruct Hq as (k & <- & _).
  - assert (IH' := IH (fun r' k Hr => Hin r' k (or_intror Hr))).
    rewrite (Qsum_map_ext _
               (fun k => (if in_group k r then hours r else 0)
                         + Qsum (map hours (filter (in_group k) rows)))%Q).
    2:{ intros k _. simpl. destruct (in_group k r); simpl; ring. }
    rewrite Qsum_map_plus, IH'. simpl filter. rewrite has_worker_key.
    destruct (key_of r) as [k0|] eqn:E.
    + rewrite (Qsum_map_ext _ (fun k => if key_eqb k k0 then hours r else 0%Q)).
      2:{ intros k _. unfold in_group. rewrite E. reflexivity. }
      rewrite Qsum_indicator by exact Hnd.
      assert (Hk0 : existsb (key_eqb k0) ks = true).
      { apply existsb_key. apply (Hin r k0); [now left | exact E]. }
      rewrite Hk0. simpl. ring.
    + rewrite (Qsum_map_ext _ (fun _ => 0%Q)).
      2:{ intros k _. unfold in_group. rewrite E. reflexivity. }
      rewrite Qsum_all_zero; [ring|].
      intros q Hq. apply in_map_iff in Hq. now destruct Hq as (k & <- & _).
Qed.

Lemma report_total {F : Float64} (d : db) (start stop : date)
      (rows : list daily_row) :
  reports_view d start stop = Summering rows ->
  (Qsum (map d_hours rows)
   == Qsum (map hours (filter has_worker (report_query d start stop))))%Q.
Proof.
  intros E. rewrite (proj1 (reports_view_rows _ _ _ _ E)), map_map.
  set (df := report_query d start stop).
  change (map (fun k => d_hours (daily_of df k)) (group_keys df))
    with (map (fun k => Qsum (map hours (filter (in_group k) df)))
              (group_keys df)).
  apply group_sums_partition; [apply group_keys_nodup|].
  intros r k Hr Hk. apply group_keys_in. eauto.
Qed.

(** X10: when the report is drawn, the hours of its rows add up to the
    hours of the punches the query returned that have a worker: no punch is
    counted twice and only punches without a worker are dropped; in a state
    of the application none is dropped. *)
Theorem report_counts_each_punch_once {F : Float64}
        (d : db) (start stop : date) (rows : list daily_row) :
  reports_view d start stop = Summering rows ->
  (Qsum (map d_hours rows)
   == Qsum (map hours (filter has_worker (report_query d start stop))))%Q
  /\ (forall a, runs a -> store a = d ->
        (Qsum (map d_hours rows)
         == Qsum (map hours (report_query d start stop)))%Q).
Proof.
  intros Hrep. split; [now apply report_total|].
  intros a R <-. rewrite (report_total _ _ _ _ Hrep).
  destruct (runs_linked a R) as [_ Hp].
  assert (E : filter has_worker (report_query (store a) start stop)
              = report_query (store a) start stop).
  { apply filter_all_true.
    intros r Hr. apply report_query_in in Hr. destruct Hr as [Hin E].
    unfold has_worker. rewrite E.
    destruct (find_user_some _ _ (Hp _ Hin)) as (u & ->). reflexivity. }
  now rewrite E.
Qed.

(** The three Eriks work five hours each: the one row of the report has
    fifteen, the sum of the hours of the three punches. *)
Lemma report_counts_each_punch_once_witness :
  map (fun p => (user_id p, clock_in p, clock_out p)) (punches three_eriks)
  = [(3, clock tuesday 9 0, Some (clock tuesday 14 0));
     (4, clock tuesday 10 0, Some (clock tuesday 15 0));
     (5, clock tuesday 11 0, Some (clock tuesday 16 0))]
  /\ forall F : Float64,
     map (fun r => Qred (hours r)) (report_query three_eriks monday tuesday)
     = [5%Q; 5%Q; 5%Q]
     /\ exists rows,
          reports_view three_eriks monday tuesday = Summering rows
          /\ map (fun row => Qred (d_hours row)) rows = [15%Q]
          /\ (Qsum (map d_hours rows)
              == Qsum (map hours
                           (filter has_worker
                                   (report_query three_eriks monday
                                                 tuesday))))%Q.
Proof.
  split; [vm_compute; reflexivity|]. intros F.
  split; [vm_compute; reflexivity|].
  assert (Hrep : exists rows,
             reports_view three_eriks monday tuesday = Summering rows
             /\ map (fun row => Qred (d_hours row)) rows = [15%Q]).
  { eexists. split; vm_compute; reflexivity. }
  destruct Hrep as (rows & Hrep & Hnum).
  exists rows. split; [exact Hrep|]. split; [exact Hnum|].
  exact (proj1 (report_counts_each_punch_once three_eriks monday tuesday rows
                  Hrep)).
Defined.

(** ** Rounding and the overtime split *)

(** X11: the approval table and the report give a punch the same hours: 0
    for an open punch, and for a closed one a whole number of hundredths
    within 0.005 of the elapsed hours, not negative when the clock-out is
    not before the clock-in. *)
Theorem punch_hours_are_rounded_elapsed_time {F : Float64} (r : joined) :
  timmar r = hours r
  /\ (clock_out (fst r) = None -> (hours r == 0)%Q)
  /\ (forall out,
         clock_out (fst r) = Some out ->
         (Qabs (hours r - total_seconds (clock_in (fst r)) out / 3600)
          <= 1 # 200)%Q
         /\ (exists n : Z, hours r == inject_Z n / 100)%Q
         /\ (to_micros (clock_in (fst r)) <= to_micros out ->
             (0 <= hours r)%Q)).
Proof.
  split; [|split].
  - unfold timmar, hours, duration_hours, elapsed_hours.
    now destruct (clock_out (fst r)).
  - apply hours_of_open.
  - intros out E. split; [|split].
    + unfold hours, elapsed_hours. rewrite E. cbn [option_map fillna].
      apply round2_near.
    + unfold hours, round2. eexists. reflexivity.
    + intros H. apply hours_nonneg. intros out' E'.
      rewrite E in E'. now injection E' as <-.
Qed.

Lemma Qsum_nonneg (l : list Q) :
  (forall q, In q l -> (0 <= q)%Q) -> (0 <= Qsum l)%Q.
Proof.
  induction l as [|a l IH]; intros H; simpl; [apply Qle_refl|].
  assert (0 <= a)%Q by (apply H; now left).
  assert (0 <= Qsum l)%Q by (apply IH; intros q Hq; apply H; now right).
  lra.
Qed.

Lemma overtime_split (h : Q) :
  let ot := Qmax (h - 8) 0 in
  (0 <= ot /\ h - ot <= 8 /\ (h - ot) + ot == h
   /\ (h <= 8 -> ot == 0 /\ h - ot == h)
   /\ (8 <= h -> ot == h - 8 /\ h - ot == 8))%Q.
Proof.
  intros ot. subst ot.
  destruct (Qlt_le_dec (h - 8) 0) as [L|L].
  - rewrite (Q.max_r (h - 8) 0) by lra. repeat split; intros; lra.
  - rewrite (Q.max_l (h - 8) 0) by lra. repeat split; intros; lra.
Qed.

(** X12: in every row of the report, overtime is not negative, regular
    hours are at most 8, the two add up to the hours, the split is at 8
    hours exactly, and pay is hours x rate plus half the rate on overtime;
    when no selected punch ends before it starts, hours and regular hours
    are not negative, and neither is pay for a rate that is not negative. *)
Theorem daily_row_splits_hours_at_eight {F : Float64}
        (d : db) (start stop : date) (rows : list daily_row)
        (row : daily_row) :
  reports_view d start stop = Summering rows -> In row rows ->
  (0 <= d_ot_hours row /\ d_reg_hours row <= 8
   /\ d_reg_hours row + d_ot_hours row == d_hours row
   /\ (d_hours row <= 8 -> d_ot_hours row == 0 /\ d_reg_hours row == d_hours row)
   /\ (8 <= d_hours row ->
       d_ot_hours row == d_hours row - 8 /\ d_reg_hours row == 8)
   /\ d_pay row == d_hours row * d_hourly_rate row
                   + d_ot_hours row * d_hourly_rate row * (1 # 2))%Q
  /\ ((forall r out, In r (report_query d start stop) ->
                     clock_out (fst r) = Some out ->
                     to_micros (clock_in (fst r)) <= to_micros out) ->
      (0 <= d_hours row /\ 0 <= d_reg_hours row
       /\ (0 <= d_hourly_rate row -> 0 <= d_pay row))%Q).
Proof.
  intros Hrep Hrow.
  destruct (in_reports_view _ _ _ _ _ Hrep Hrow) as [_ E].
  set (g := filter (in_group (key_of_row row)) (report_query d start stop)).
  set (h := Qsum (map hours g)).
  assert (Eh : d_hours row = h) by (rewrite E; reflexivity).
  assert (Eo : d_ot_hours row = Qmax (h - 8) 0) by (rewrite E; reflexivity).
  assert (Er : d_reg_hours row = (h - Qmax (h - 8) 0)%Q)
    by (rewrite E; reflexivity).
  assert (Ep : (d_pay row == d_reg_hours row * d_hourly_rate row
                + d_ot_hours row * d_hourly_rate row * (3 # 2))%Q)
    by (rewrite E; reflexivity).
  destruct (overtime_split h) as (H1 & H2 & H3 & H4 & H5).
  rewrite Eo, Er in Ep. rewrite Eh, Eo, Er. split.
  - split; [exact H1|]. split; [exact H2|]. split; [exact H3|].
    split; [intros L; split; now apply H4|].
    split; [intros L; split; now apply H5|].
    rewrite Ep. ring.
  - intros Hord.
    assert (Hh : (0 <= h)%Q).
    { apply Qsum_nonneg. intros q Hq. apply in_map_iff in Hq.
      destruct Hq as (r & <- & Hr). apply hours_nonneg.
      intros out Eo'. apply (Hord r out); [|exact Eo'].
      unfold g in Hr. apply filter_In in Hr. apply Hr. }
    assert (Hreg : (0 <= h - Qmax (h - 8) 0)%Q).
    { destruct (Qlt_le_dec h 8) as [L|L].
      - destruct H4 as [_ H4]; [lra|]. lra.
      - destruct H5 as [_ H5]; [lra|]. lra. }
    split; [exact Hh|]. split; [exact Hreg|].
    intros Hrate. rewrite Ep.
    assert (0 <= (h - Qmax (h - 8) 0) * d_hourly_rate row)%Q
      by (apply Qmult_le_0_compat; assumption).
    assert (0 <= Qmax (h - 8) 0 * d_hourly_rate row)%Q
      by (apply Qmult_le_0_compat; assumption).
    lra.
Qed.

(** ** The report: order of the rows *)

Section SortedFacts.
Context {A : Type} (leb : A -> A -> bool).
Hypothesis leb_total : forall a b, leb a b = false -> leb b a = true.

Lemma insert_sorted_hd (x y : A) (l : list A) :
  leb y x = true -> HdRel (fun a b => leb a b = true) y l ->
  HdRel (fun a b => leb a b = true) y (insert_sorted leb x l).
Proof.
  intros Hyx Hl. destruct l as [|z l]; simpl; [now constructor|].
  destruct (leb x z); constructor; [exact Hyx|].
  now inversion Hl.
Qed.

Lemma insert_sorted_sorted (x : A) (l : list A) :
  Sorted (fun a b => leb a b = true) l ->
  Sorted (fun a b => leb a b = true) (insert_sorted leb x l).
Proof.
  induction 1 as [|y l Hs IH Hhd]; simpl.
  - constructor; constructor.
  - destruct (leb x y) eqn:E.
    + constructor; [now constructor|now constructor].
    + constructor; [exact IH|].
      apply insert_sorted_hd; [now apply leb_total | exact Hhd].
Qed.

Lemma sort_by_sorted (l : list A) :
  Sorted (fun a b => leb a b = true) (sort_by leb l).
Proof.
  induction l as [|x l IH]; simpl; [constructor|].
  now apply insert_sorted_sorted.
Qed.
End SortedFacts.

Lemma key_leb_total (a b : key) : key_leb a b = false -> key_leb b a = true.
Proof.
  unfold key_leb. rewrite (String.compare_antisym (fst b) (fst a)).
  destruct (String.compare (fst a) (fst b)); simpl; try discriminate;
    [|reflexivity].
  unfold date_leb. intros H. apply Z.leb_gt in H. apply Z.leb_le. lia.
Qed.

(** X13: the rows of the report come in the order of groupby: by full
    name in byte order, rows of one name by date. *)
Theorem report_rows_are_ordered_by_name_then_date {F : Float64}
        (d : db) (start stop : date) :
  (forall rows,
      reports_view d start stop = Summering rows ->
      Sorted (fun a b => key_leb a b = true) (map key_of_row rows))
  /\ (forall a b : key,
         key_leb a b = true
         <-> String.compare (fst a) (fst b) = Lt
             \/ (fst a = fst b /\ ymd2ord (snd a) <= ymd2ord (snd b))).
Proof.
  split.
  - intros rows E. rewrite (reports_view_keys _ _ _ _ E). unfold group_keys.
    apply sort_by_sorted. exact key_leb_total.
  - intros a b. unfold key_leb, date_leb.
    destruct (String.compare (fst a) (fst b)) eqn:E.
    + apply String.compare_eq_iff in E. rewrite Z.leb_le. split.
      * intros H. right. auto.
      * intros [C|[_ H]]; [discriminate | exact H].
    + split; [now left | reflexivity].
    + split; [discriminate|]. intros [C|[Ee _]]; [discriminate|].
      rewrite Ee, compare_refl in E. discriminate.
Qed.

(** ** Saves that name a row *)

Lemma map_on_absent_key {A : Type} (test : A -> bool) (f : A -> A)
      (l : list A) :
  (forall x, In x l -> test x = false) ->
  map (fun x => if test x then f x else x) l = l.
Proof.
  intros H. apply map_fixed. intros x Hx. now rewrite (H x Hx).
Qed.

Lemma map_on_unique_key (f : punch_row -> punch_row) (i : Z)
      (l1 l2 : list punch_row) (p : punch_row) :
  NoDup (map p_id (l1 ++ p :: l2)) -> p_id p = i ->
  map (fun q => if p_id q =? i then f q else q) (l1 ++ p :: l2)
  = l1 ++ f p :: l2.
Proof.
  intros Hnd Hp. rewrite map_app. simpl. rewrite Hp, Z.eqb_refl.
  rewrite map_app in Hnd. simpl in Hnd.
  assert (H1 : forall q, In q l1 -> (p_id q =? i) = false).
  { intros q Hq. apply Z.eqb_neq. intros E.
    apply NoDup_remove_2 in Hnd. apply Hnd. rewrite in_app_iff. left.
    rewrite Hp, <- E. now apply in_map. }
  assert (H2 : forall q, In q l2 -> (p_id q =? i) = false).
  { intros q Hq. apply Z.eqb_neq. intros E.
    apply NoDup_remove_2 in Hnd. apply Hnd. rewrite in_app_iff. right.
    rewrite Hp, <- E. now apply in_map. }
  now rewrite !map_on_absent_key.
Qed.

Lemma approvals_view_drawn d user start stop pressed sel_id new_in new_out
      approve :
  form_is_drawn d user start stop = true ->
  approvals_view d user start stop pressed sel_id new_in new_out approve
  = adjust d pressed sel_id new_in new_out approve.
Proof.
  unfold form_is_drawn, approvals_view.
  destruct (role_eqb (my_role user) Manager || role_eqb (my_role user) Admin);
    cbn [andb negb]; [|discriminate].
  destruct (approvals_query d start stop); [discriminate|].
  destruct (to_datetime_columns _); [discriminate|reflexivity].
Qed.

Lemma approvals_view_not_drawn d user start stop pressed sel_id new_in new_out
      approve :
  form_is_drawn d user start stop = false ->
  fst (approvals_view d user start stop pressed sel_id new_in new_out approve)
  = d
  /\ snd (approvals_view d user start stop pressed sel_id new_in new_out
                         approve) <> Success.
Proof.
  unfold form_is_drawn, approvals_view.
  destruct (role_eqb (my_role user) Manager || role_eqb (my_role user) Admin);
    cbn [andb negb]; [|split; [reflexivity|discriminate] ].
  destruct (approvals_query d start stop);
    [split; [reflexivity|discriminate]|].
  destruct (to_datetime_columns _);
    [split; [reflexivity|discriminate] | discriminate].
Qed.

(** X14: in a reachable state, when the approval form is drawn (the role is
    Manager or Admin, the interval holds a punch and its timestamp columns
    parse), a save with an integer row id that SQLite can bind and with
    parsable timestamps reports success and rewrites the one row of that id,
    in place; when no row has the id it still reports success and changes
    nothing.  When the form is not drawn, the run saves nothing. *)
Theorem adjust_rewrites_at_most_one_row
        (d : db) (user : principal) (start stop : date) (i : Z)
        (new_in new_out : field datetime) (approve : bool) :
  reachable d -> fits_int64 i ->
  new_in <> Unparsable -> new_out <> Unparsable ->
  let run := approvals_view d user start stop true (Parsed i) new_in new_out
                            approve in
  (form_is_drawn d user start stop = true ->
   snd run = Success
   /\ ((forall p, In p (punches d) -> p_id p <> i) -> fst run = d)
   /\ (forall l1 p l2,
          punches d = l1 ++ p :: l2 -> p_id p = i ->
          punches (fst run)
          = l1 ++ adjusted new_in new_out approve p :: l2))
  /\ (form_is_drawn d user start stop = false ->
      fst run = d /\ snd run <> Success).
Proof.
  intros R Hfit Hi Ho run. subst run. split.
  - intros Hdrawn. rewrite (approvals_view_drawn _ _ _ _ _ _ _ _ _ Hdrawn).
    rewrite adjust_saves by assumption. cbn [fst snd].
    split; [reflexivity|]. split.
    + intros H. unfold update_punches. rewrite map_on_absent_key.
      * apply db_eta.
      * intros p Hp. apply Z.eqb_neq. now apply H.
    + intros l1 p l2 E Hp. unfold update_punches. cbn [punches].
      rewrite E. apply map_on_unique_key; [|exact Hp].
      rewrite <- E. apply (reachable_keys d R).
  - apply approvals_view_not_drawn.
Qed.

Lemma adjust_rewrites_at_most_one_row_witness :
  reachable erik_at_work
  /\ fits_int64 7
  /\ (Blank : field datetime) <> Unparsable
  /\ form_is_drawn erik_at_work anna monday tuesday = true
  /\ approvals_view erik_at_work anna monday tuesday true (Parsed 7) Blank
                    Blank true
     = (erik_at_work, Success)
  /\ map (fun p => (p_id p, clock_in p, clock_out p, approved p))
         (punches (fst (approvals_view erik_at_work anna monday tuesday true
                                       (Parsed 1) Blank
                                       (Parsed (clock tuesday 17 0)) true)))
     = [(1, clock tuesday 9 0, Some (clock tuesday 17 0), 1)].
Proof.
  assert (R : reachable erik_at_work).
  { eapply reachable_step; [constructor | apply step_clock]. }
  assert (H7 : fits_int64 7) by (unfold fits_int64; lia).
  assert (H1 : fits_int64 1) by (unfold fits_int64; lia).
  assert (Hd : form_is_drawn erik_at_work anna monday tuesday = true)
    by (vm_compute; reflexivity).
  split; [exact R|]. split; [exact H7|]. split; [discriminate|].
  split; [exact Hd|]. split.
  - pose proof (adjust_rewrites_at_most_one_row erik_at_work anna monday
                  tuesday 7 Blank Blank true
                  R H7 ltac:(discriminate) ltac:(discriminate)) as H.
    cbv zeta in H. destruct (proj1 H Hd) as (Hs & Hn & _).
    rewrite (surjective_pairing (approvals_view _ _ _ _ _ _ _ _ _)), Hs, Hn;
      [reflexivity|].
    intros p [<-|[]]. discriminate.
  - pose proof (adjust_rewrites_at_most_one_row erik_at_work anna monday
                  tuesday 1 Blank (Parsed (clock tuesday 17 0)) true
                  R H1 ltac:(discriminate) ltac:(discriminate)) as H.
    cbv zeta in H. destruct (proj1 H Hd) as (_ & _ & Hp).
    rewrite (Hp [] _ [] eq_refl eq_refl). reflexivity.
Defined.

(** X15: in mode Uppdatera a username that no row has makes the save report
    success while the database stays as it was. *)
Theorem update_of_unknown_username_changes_nothing
        (d : db) (user : principal) (f : person_form) :
  my_role user = Admin -> f_mode f = Uppdatera ->
  (forall u, In u (users d) -> username u <> f_username f) ->
  staff_view d user f true = (d, Success).
Proof.
  intros Hr Hm Hn. unfold staff_view, update_user. rewrite Hr, Hm. simpl.
  rewrite map_on_absent_key; [now rewrite db_eta|].
  intros u Hu. apply String.eqb_neq. now apply Hn.
Qed.

Lemma update_of_unknown_username_changes_nothing_witness :
  my_role admin = Admin
  /\ staff_view seeded admin
                (mkForm Uppdatera "bo" "Bo Berg" Manager 200 "9999" None) true
     = (seeded, Success).
Proof.
  split; [reflexivity|].
  apply update_of_unknown_username_changes_nothing; [reflexivity..|].
  intros u [<-|[<-|[<-|[]]]]; discriminate.
Defined.

(** X16: a run of the staff view in mode Uppdatera keeps the ids and the
    usernames of all rows, adds and removes none, leaves the punches and the
    rows of other usernames alone, and keeps every password when the
    password field is empty. *)
Theorem update_keeps_identity_of_rows
        (d : db) (user : principal) (f : person_form) (pressed : bool) :
  f_mode f = Uppdatera ->
  let d' := fst (staff_view d user f pressed) in
  map u_id (users d') = map u_id (users d)
  /\ map username (users d') = map username (users d)
  /\ punches d' = punches d
  /\ (forall u, In u (users d) -> username u <> f_username f ->
                In u (users d'))
  /\ (f_pw_digest f = None ->
      map password_hash (users d') = map password_hash (users d)).
Proof.
  intros Hm d'. subst d'. unfold staff_view. rewrite Hm.
  destruct (negb (role_eqb _ _)); [repeat split; auto|].
  destruct (negb pressed); [repeat split; auto|].
  unfold update_user. simpl. rewrite !map_map.
  split; [apply map_ext; intros u; now destruct (String.eqb _ _)|].
  split; [apply map_ext; intros u; now destruct (String.eqb _ _)|].
  split; [reflexivity|]. split.
  - intros u Hu Hn. apply in_map_iff. exists u. split; [|exact Hu].
    apply String.eqb_neq in Hn. now rewrite Hn.
  - intros Hp. rewrite Hp. apply map_ext. intros u.
    now destruct (String.eqb _ _).
Qed.

Lemma update_keeps_identity_of_rows_witness :
  f_mode (mkForm Uppdatera "erik" "Erik Eriksson" Manager 200 "" None)
  = Uppdatera
  /\ map (fun u => (u_id u, username u, full_name u, pin u))
         (users (fst (staff_view seeded admin
                        (mkForm Uppdatera "erik" "Erik Eriksson" Manager 200
                                "" None) true)))
     = [(1, "admin", "System Admin", Some "0000");
        (2, "anna", "Anna Andersson", Some "1111");
        (3, "erik", "Erik Eriksson", None)]%string
  /\ map password_hash
         (users (fst (staff_view seeded admin
                        (mkForm Uppdatera "erik" "Erik Eriksson" Manager 200
                                "" None) true)))
     = map password_hash (users seeded).
Proof.
  split; [reflexivity|]. split; [reflexivity|].
  pose proof (update_keeps_identity_of_rows seeded admin
                (mkForm Uppdatera "erik" "Erik Eriksson" Manager 200 "" None)
                true eq_refl) as H.
  cbv zeta in H. destruct H as (_ & _ & _ & _ & H). exact (H eq_refl).
Defined.

(** ** A shift at the punch clock *)

Lemma active_punch_single (d : db) (uid : Z) (p : punch_row) :
  open_punches d uid = [p] -> active_punch d uid = Some p.
Proof. unfold active_punch, open_punches. now intros ->. Qed.

Lemma filter_absent_id (i : Z) (l : list punch_row) :
  ~ In i (map p_id l) ->
  map (fun q => if p_id q =? i then q else q) l = l
  /\ forall f, map (fun q => if p_id q =? i then f q else q) l = l.
Proof.
  intros H. split; [apply map_fixed; intros q _; now destruct (_ =? _)|].
  intros f. apply map_on_absent_key. intros q Hq. apply Z.eqb_neq.
  intros E. apply H. rewrite <- E. now apply in_map.
Qed.

(** X17: for a user without an open punch, Stämpla IN followed by Stämpla UT
    appends exactly one record to the ledger, closed, with the two times and
    the two texts joined, and leaves the user without an open punch. *)
Theorem clock_in_then_out_leaves_one_closed_punch
        (d : db) (user : principal) (text place text' place' : string)
        (t1 t2 : datetime) :
  active_punch d (me user) = None ->
  let d1 := fst (clock_view d user text place t1 StamplaIN) in
  let d2 := fst (clock_view d1 user text' place' t2 StamplaUT) in
  let new := mkPunch (next_rowid (map p_id (punches d))) (me user) t1 None
                     (Some text) (Some place) 0 in
  punches d1 = punches d ++ [new]
  /\ active_punch d1 (me user) = Some new
  /\ punches d2 = punches d ++ [stamp_out t2 text' place' new]
  /\ active_punch d2 (me user) = None
  /\ users d2 = users d.
Proof.
  intros Ha d1 d2 new.
  assert (E1 : d1 = stamp_in d (me user) t1 text place).
  { unfold d1, clock_view. now rewrite Ha. }
  assert (Hopen : open_punches d (me user) = []) by now apply active_punch_none.
  assert (A1 : active_punch d1 (me user) = Some new).
  { apply active_punch_single. rewrite E1, open_punches_stamp_in, Hopen.
    now rewrite Z.eqb_refl. }
  assert (E2 : d2 = update_punches d1 (p_id new) (stamp_out t2 text' place')).
  { unfold d2, clock_view. now rewrite A1. }
  assert (P2 : punches d2 = punches d ++ [stamp_out t2 text' place' new]).
  { rewrite E2, E1. unfold update_punches, stamp_in. cbn [punches].
    fold new. rewrite map_app. cbn [map]. rewrite Z.eqb_refl.
    f_equal. apply map_on_absent_key. intros q Hq. apply Z.eqb_neq.
    intros E. apply (next_rowid_fresh (map p_id (punches d))).
    change (p_id new) with (next_rowid (map p_id (punches d))) in E.
    rewrite <- E. now apply in_map. }
  split; [now rewrite E1|]. split; [exact A1|]. split; [exact P2|].
  split.
  - unfold active_punch. rewrite P2, filter_app.
    fold (open_punches d (me user)). rewrite Hopen. simpl.
    now rewrite andb_false_r.
  - now rewrite E2, E1.
Qed.

Lemma clock_in_then_out_leaves_one_closed_punch_witness :
  active_punch seeded (me erik) = None
  /\ punches (fst (clock_view
                     (fst (clock_view seeded erik "in" "Bar" (clock tuesday 9 0)
                                      StamplaIN))
                     erik "out" "Kök" (clock tuesday 18 0) StamplaUT))
     = [mkPunch 1 3 (clock tuesday 9 0) (Some (clock tuesday 18 0))
                (Some ("in" ++ newline ++ "out")%string)
                (Some ("Bar" ++ newline ++ "Kök")%string) 0].
Proof.
  split; [reflexivity|].
  pose proof (clock_in_then_out_leaves_one_closed_punch seeded erik
                "in" "Bar" "out" "Kök" (clock tuesday 9 0) (clock tuesday 18 0)
                eq_refl) as H.
  cbv zeta in H. destruct H as (_ & _ & H & _). rewrite H. reflexivity.
Defined.

(** ** What a run leaves alone *)

Lemma unique_punch_id (l : list punch_row) (p q : punch_row) :
  NoDup (map p_id l) -> In p l -> In q l -> p_id p = p_id q -> p = q.
Proof.
  induction l as [|x l IH]; simpl; [intros _ []|].
  intros Hnd Hp Hq E. inversion Hnd as [|? ? Hx Hnd']; subst.
  destruct Hp as [->|Hp], Hq as [->|Hq]; auto.
  - exfalso. apply Hx. rewrite E. now apply in_map.
  - exfalso. apply Hx. rewrite <- E. now apply in_map.
Qed.

Lemma filter_map_frame {A : Type} (f : A -> bool) (g : A -> A) (l : list A) :
  (forall x, In x l -> f (g x) = f x /\ (f x = true -> g x = x)) ->
  filter f (map g l) = filter f l.
Proof.
  induction l as [|a l IH]; intros H; simpl; [reflexivity|].
  destruct (H a (or_introl eq_refl)) as [E1 E2]. rewrite E1.
  rewrite IH by (intros x Hx; apply H; now right).
  destruct (f a); [now rewrite E2 | reflexivity].
Qed.

Lemma clock_view_touches_own_punches_only_aux
        (d : db) (user : principal) (text place : string) (now : datetime)
        (pressed : button) :
  reachable d ->
  let d' := fst (clock_view d user text place now pressed) in
  users d' = users d
  /\ filter (fun p => negb (user_id p =? me user)) (punches d')
     = filter (fun p => negb (user_id p =? me user)) (punches d)
  /\ (forall p, In p (punches d) -> clock_out p <> None -> In p (punches d')).
Proof.
  intros R d'. subst d'. destruct (reachable_keys d R) as (_ & _ & Hnd & _).
  split; [apply clock_view_keeps_users|].
  unfold clock_view.
  destruct (active_punch d (me user)) as [a|] eqn:Ea; destruct pressed;
    simpl fst; try (split; [reflexivity | auto]).
  - destruct (active_punch_some _ _ _ Ea) as (Hin & Hu & Ho).
    assert (Hrow : forall p, In p (punches d) ->
              (if p_id p =? p_id a then stamp_out now text place p else p) = p
              \/ p = a).
    { intros p Hp. destruct (p_id p =? p_id a) eqn:E; [right|now left].
      apply Z.eqb_eq in E. now apply (unique_punch_id (punches d)). }
    split.
    + unfold update_punches. cbn [punches]. apply filter_map_frame.
      intros p Hp. split; [now destruct (p_id p =? p_id a)|].
      intros Hother. destruct (Hrow p Hp) as [E|E]; [exact E|].
      subst p. rewrite Hu, Z.eqb_refl in Hother. discriminate.
    + intros p Hp Hc. unfold update_punches. cbn [punches].
      apply in_map_iff. exists p. split; [|exact Hp].
      destruct (Hrow p Hp) as [E|E]; [exact E|]. subst p. congruence.
  - split.
    + unfold stamp_in. cbn [punches]. rewrite filter_app. cbn [filter user_id].
      rewrite Z.eqb_refl. simpl. apply app_nil_r.
    + intros p Hp _. unfold stamp_in. cbn [punches]. rewrite in_app_iff.
      now left.
Qed.

(** X18: in a reachable state a run of the punch clock leaves the register,
    the punches of every other worker and every closed punch as they were. *)
Theorem clock_view_touches_own_punches_only
        (d : db) (user : principal) (text place : string) (now : datetime)
        (pressed : button) :
  reachable d ->
  let d' := fst (clock_view d user text place now pressed) in
  users d' = users d
  /\ filter (fun p => negb (user_id p =? me user)) (punches d')
     = filter (fun p => negb (user_id p =? me user)) (punches d)
  /\ (forall p, In p (punches d) -> clock_out p <> None -> In p (punches d')).
Proof. exact (clock_view_touches_own_punches_only_aux d user text place now pressed). Qed.

Lemma clock_view_touches_own_punches_only_witness :
  reachable two_eriks
  /\ filter (fun p => negb (user_id p =? me erik))
            (punches (fst (clock_view two_eriks erik "" "" (clock tuesday 19 0)
                                      StamplaIN)))
     = filter (fun p => negb (user_id p =? me erik)) (punches two_eriks).
Proof.
  assert (R : reachable two_eriks).
  { unfold two_eriks.
    repeat (eapply reachable_step; [|apply step_clock]).
    eapply reachable_step; [constructor | apply step_staff]. }
  split; [exact R|].
  pose proof (clock_view_touches_own_punches_only two_eriks erik "" ""
                (clock tuesday 19 0) StamplaIN R) as H.
  cbv zeta in H. exact (proj1 (proj2 H)).
Defined.

(** X19: no run of a view deletes or reorders punches: the ids of the
    ledger stay a prefix of the ids after the run, each record keeps its
    owner, and a record that had a clock-out still has one. *)
Theorem ledger_keeps_records_and_never_reopens (d d' : db) :
  step d d' ->
  (exists added, map p_id (punches d') = map p_id (punches d) ++ added)
  /\ (forall id p,
         find (fun q => p_id q =? id) (punches d) = Some p ->
         exists p', find (fun q => p_id q =? id) (punches d') = Some p'
                    /\ user_id p' = user_id p
                    /\ (clock_out p <> None -> clock_out p' <> None)).
Proof.
  intros [d0 user text place now pressed
         | d0 user f pressed
         | d0 user start stop pressed sel_id new_in new_out approve].
  - unfold clock_view.
    destruct (active_punch d0 (me user)) as [a|]; destruct pressed; simpl fst;
      try (split; [exists []; now rewrite app_nil_r | intros id p H; eauto]).
    + split.
      * exists []. rewrite app_nil_r. now apply map_id_update_punches.
      * intros id p H. unfold update_punches. cbn [punches].
        rewrite find_map_keeping_id
          by (intros q; now destruct (p_id q =? p_id a)).
        rewrite H. cbn [option_map]. eexists. split; [reflexivity|].
        destruct (p_id p =? p_id a); [|auto].
        split; [reflexivity|]. discriminate.
    + split.
      * eexists. unfold stamp_in. cbn [punches]. now rewrite map_app.
      * intros id p H. exists p. unfold stamp_in. cbn [punches].
        split; [now apply find_app_some | auto].
  - rewrite staff_view_keeps_punches.
    split; [exists []; now rewrite app_nil_r | intros id p H; eauto].
  - destruct (approvals_view_as_adjust d0 user start stop pressed sel_id
                new_in new_out approve) as [-> | ->];
      [split; [exists []; now rewrite app_nil_r | intros id p H; eauto]|].
    split.
    + exists []. rewrite app_nil_r. apply adjust_keeps_punch_ids.
    + intros id p H.
      destruct (feedback_is_success
                  (snd (adjust d0 pressed sel_id new_in new_out approve)))
        eqn:Es.
      * apply feedback_is_success_true in Es.
        destruct (adjust_success_shape _ _ _ _ _ _ Es)
          as (i & Hfit & -> & -> & Hi & Ho).
        rewrite adjust_saves by assumption. unfold update_punches.
        cbn [fst punches].
        rewrite find_map_keeping_id
          by (intros q; now destruct (p_id q =? i)).
        rewrite H. cbn [option_map]. eexists. split; [reflexivity|].
        destruct (p_id p =? i); [|auto].
        split; [reflexivity|]. unfold adjusted. cbn [clock_out].
        now destruct new_out.
      * rewrite adjust_else_unchanged
          by (intros E; rewrite E in Es; discriminate).
        eauto.
Qed.

Lemma ledger_keeps_records_and_never_reopens_witness :
  step erik_gone_home
       (fst (approvals_view erik_gone_home anna monday tuesday true (Parsed 1)
                            (Parsed (clock tuesday 8 0)) Blank false))
  /\ map (fun p => (p_id p, clock_in p, clock_out p))
         (punches (fst (approvals_view erik_gone_home anna monday tuesday true
                                       (Parsed 1) (Parsed (clock tuesday 8 0))
                                       Blank false)))
     = [(1, clock tuesday 8 0, Some (clock tuesday 18 0))]
  /\ exists added,
       map p_id (punches (fst (approvals_view erik_gone_home anna monday
                                 tuesday true (Parsed 1)
                                 (Parsed (clock tuesday 8 0)) Blank false)))
       = map p_id (punches erik_gone_home) ++ added.
Proof.
  assert (S : step erik_gone_home
                   (fst (approvals_view erik_gone_home anna monday tuesday true
                                        (Parsed 1) (Parsed (clock tuesday 8 0))
                                        Blank false)))
    by apply step_approvals.
  split; [exact S|]. split; [reflexivity|].
  exact (proj1 (ledger_keeps_records_and_never_reopens _ _ S)).
Defined.

(** ** What a role may change *)

Lemma clock_view_keeps_rows d user text place now pressed (id : Z)
      (p : punch_row) :
  find (fun q => p_id q =? id) (punches d) = Some p ->
  exists p',
    find (fun q => p_id q =? id)
         (punches (fst (clock_view d user text place now pressed))) = Some p'
    /\ approved p' = approved p /\ clock_in p' = clock_in p
    /\ user_id p' = user_id p.
Proof.
  intros H. unfold clock_view.
  destruct (active_punch d (me user)) as [a|]; destruct pressed; simpl fst;
    try solve [exists p; auto].
  - unfold update_punches. cbn [punches].
    rewrite find_map_keeping_id by (intros q; now destruct (p_id q =? p_id a)).
    rewrite H. cbn [option_map]. eexists. split; [reflexivity|].
    now destruct (p_id p =? p_id a).
  - unfold stamp_in. cbn [punches]. exists p.
    split; [now apply find_app_some | auto].
Qed.

Lemma runs_session_reachable (a : app_state) (user : principal) :
  runs a -> session a = Some user ->
  reachable (store a) /\ ensure_seed_admin (store a) = store a.
Proof.
  intros R E. destruct (runs_store a R) as [->|Hr]; [discriminate|].
  split; [exact Hr | now apply ensure_seed_admin_reachable].
Qed.

(** X20: a run of the application under a session that is not Admin leaves
    the register unchanged; under an Employee session it also leaves the
    schedule unchanged, keeps the approved flag, the clock-in and the owner
    of every punch, and does not touch the punches of other workers. *)
Theorem roles_limit_what_a_run_changes
        (a : app_state) (l : login_form) (choice : menu) (user : principal) :
  runs a -> session a = Some user ->
  let a' := main a l choice in
  (my_role user <> Admin -> users (store a') = users (store a))
  /\ (my_role user = Employee ->
      schedule a' = schedule a
      /\ (forall id p,
             find (fun q => p_id q =? id) (punches (store a)) = Some p ->
             exists p',
               find (fun q => p_id q =? id) (punches (store a')) = Some p'
               /\ approved p' = approved p /\ clock_in p' = clock_in p
               /\ user_id p' = user_id p)
      /\ filter (fun p => negb (user_id p =? me user)) (punches (store a'))
         = filter (fun p => negb (user_id p =? me user)) (punches (store a))).
Proof.
  intros R Es a'. subst a'.
  destruct (runs_session_reachable a user R Es) as [Hr Hd].
  unfold main. rewrite Es, Hd. split.
  - intros Hrole. destruct choice; cbn [store]; try reflexivity.
    + apply clock_view_keeps_users.
    + destruct (approvals_view_as_adjust (store a) user start stop pressed
                  sel_id new_in new_out approve) as [-> | ->];
        [reflexivity | apply adjust_keeps_users].
    + unfold staff_view.
      destruct (my_role user); [now destruct Hrole|reflexivity|reflexivity].
  - intros Hrole.
    destruct choice; cbn [store schedule];
      try (split; [reflexivity|]; split; [intros id p H; eauto|reflexivity]).
    + split; [reflexivity|]. split.
      * intros id p H. now apply clock_view_keeps_rows.
      * exact (proj1 (proj2 (clock_view_touches_own_punches_only_aux
                               (store a) user text place now pressed Hr))).
    + unfold schedule_view. rewrite Hrole. cbn.
      split; [reflexivity|]. split; [intros id p H; eauto|reflexivity].
    + unfold approvals_view. rewrite Hrole. cbn.
      split; [reflexivity|]. split; [intros id p H; eauto|reflexivity].
    + unfold staff_view. rewrite Hrole. cbn.
      split; [reflexivity|]. split; [intros id p H; eauto|reflexivity].
Qed.

Lemma roles_limit_what_a_run_changes_witness :
  runs (main (main fresh (mkLogin "" "" "2222" LoggaInViaPIN) LoggaUt)
             (mkLogin "" "" "" NoLogin)
             (Stampelklocka "" "" (clock tuesday 9 0) StamplaIN))
  /\ session (main (main fresh (mkLogin "" "" "2222" LoggaInViaPIN) LoggaUt)
                   (mkLogin "" "" "" NoLogin)
                   (Stampelklocka "" "" (clock tuesday 9 0) StamplaIN))
     = Some erik
  /\ map approved
         (punches
            (store
               (main (main (main fresh (mkLogin "" "" "2222" LoggaInViaPIN)
                                 LoggaUt)
                           (mkLogin "" "" "" NoLogin)
                           (Stampelklocka "" "" (clock tuesday 9 0) StamplaIN))
                     (mkLogin "" "" "" NoLogin)
                     (GodkannTider monday tuesday true (Parsed 1) Blank Blank
                                   true))))
     = [0]
  /\ users
       (store
          (main (main (main fresh (mkLogin "" "" "2222" LoggaInViaPIN) LoggaUt)
                      (mkLogin "" "" "" NoLogin)
                      (Stampelklocka "" "" (clock tuesday 9 0) StamplaIN))
                (mkLogin "" "" "" NoLogin)
                (Personal bo_form true)))
     = users seeded.
Proof.
  assert (R : runs (main (main fresh (mkLogin "" "" "2222" LoggaInViaPIN)
                               LoggaUt)
                         (mkLogin "" "" "" NoLogin)
                         (Stampelklocka "" "" (clock tuesday 9 0) StamplaIN)))
    by (repeat constructor).
  split; [exact R|]. split; [reflexivity|]. split; [reflexivity|].
  exact (proj1 (roles_limit_what_a_run_changes _ (mkLogin "" "" "" NoLogin)
                  (Personal bo_form true) erik R eq_refl)
               ltac:(discriminate)).
Defined.

(** ** The approval table and the report *)

Lemma timmar_is_hours {F : Float64} (r : joined) : timmar r = hours r.
Proof.
  unfold timmar, hours, duration_hours, elapsed_hours.
  now destruct (clock_out (fst r)).
Qed.

Lemma joined_latest_first_total (a b : joined) :
  joined_latest_first a b = false -> joined_latest_first b a = true.
Proof.
  unfold joined_latest_first, latest_first. intros H.
  destruct (String.leb_total (isoformat (clock_in (fst b)))
                             (isoformat (clock_in (fst a)))) as [E|E];
    [congruence | exact E].
Qed.

Lemma approvals_query_in (d : db) (start stop : date) (r : joined) :
  In r (approvals_query d start stop) <-> In r (report_query d start stop).
Proof.
  unfold approvals_query, report_query. now rewrite !sort_by_in.
Qed.

Lemma approvals_query_precision (d : db) (start stop : date) :
  one_precision (approvals_query d start stop)
  <-> one_precision (report_query d start stop).
Proof.
  split; apply one_precision_same_rows; intros r; apply approvals_query_in.
Qed.

(** X21: the timestamp columns of the approval table parse exactly when
    those of the report of the same interval do, that is when the clock-in
    texts of the interval are of one precision and its clock-out texts too;
    otherwise building the table raises ValueError and, for a Manager or an
    Admin, so does the view.  When they parse, the table holds the rows that
    the query of the report returns for the same interval, each with the
    hours the report uses for it, latest clock-in text first, and it is
    empty exactly when the view stops at its caption. *)
Theorem approval_table_shows_the_rows_of_the_report {F : Float64}
        (d : db) (start stop : date) :
  ((exists table, approvals_table d start stop = inr table)
   <-> one_precision (report_query d start stop))
  /\ (approvals_table d start stop = inl ValueError
      <-> ~ one_precision (report_query d start stop))
  /\ (forall user pressed sel_id new_in new_out approve,
        my_role user <> Employee ->
        where_interval start stop (left_join d) <> [] ->
        ~ one_precision (report_query d start stop) ->
        approvals_view d user start stop pressed sel_id new_in new_out approve
        = (d, Raised ValueError))
  /\ (forall table,
        approvals_table d start stop = inr table ->
        Permutation (map fst table) (report_query d start stop)
        /\ (forall r h, In (r, h) table -> h = hours r)
        /\ Sorted (fun a b => joined_latest_first a b = true) (map fst table)
        /\ (table = [] <-> where_interval start stop (left_join d) = [])).
Proof.
  pose proof (to_datetime_columns_cases (approvals_query d start stop)) as C.
  rewrite approvals_query_precision in C.
  split; [|split; [|split] ].
  - unfold approvals_table.
    destruct C as [[-> H]|[-> H]]; cbn [bind ret]; split; eauto.
    + intros (table & E). discriminate.
    + contradiction.
  - unfold approvals_table.
    destruct C as [[-> H]|[-> H]]; cbn [bind ret]; split; auto.
    + discriminate.
    + contradiction.
  - intros user pressed sel_id new_in new_out approve Hrole Hne Hmixed.
    unfold approvals_view.
    assert (Er : role_eqb (my_role user) Manager
                 || role_eqb (my_role user) Admin = true)
      by (destruct (my_role user); [reflexivity|reflexivity|contradiction]).
    rewrite Er. cbn [negb].
    destruct (approvals_query d start stop) as [|r l] eqn:Eq.
    + exfalso. apply Hne.
      destruct (where_interval start stop (left_join d)) as [|r l] eqn:Ew;
        [reflexivity|exfalso].
      assert (Hin : In r (approvals_query d start stop)).
      { unfold approvals_query. rewrite Ew. apply sort_by_in. now left. }
      rewrite Eq in Hin. destruct Hin.
    + destruct C as [[_ H]|[-> _]]; [contradiction|reflexivity].
  - intros table E. unfold approvals_table in E.
    destruct C as [[Ec _]|[Ec _]]; rewrite Ec in E; cbn [bind ret] in E;
      [|discriminate].
    injection E as <-. rewrite map_map. cbn [fst]. rewrite map_id.
    unfold approvals_query.
    split; [|split; [|split] ].
    + unfold report_query.
      etransitivity; [symmetry; apply sort_by_perm | apply sort_by_perm].
    + intros r h H. apply in_map_iff in H. destruct H as (r' & E & _).
      injection E as <- <-. apply timmar_is_hours.
    + apply sort_by_sorted. exact joined_latest_first_total.
    + split.
      * intros E. apply map_eq_nil in E.
        destruct (where_interval start stop (left_join d)) as [|r l] eqn:Ew;
          [reflexivity|exfalso].
        assert (Hin : In r (sort_by joined_latest_first (r :: l)))
          by (apply sort_by_in; now left).
        rewrite E in Hin. destruct Hin.
      * intros ->. reflexivity.
Qed.

(** After Anna's correction the first clock-in is stored without a fraction
    and the second with one: neither the table nor the report is drawn. *)
Lemma approval_table_shows_the_rows_of_the_report_witness :
  map (fun p => isoformat (clock_in p)) (punches corrected_in_the_form)
  = ["2024-03-05T09:00:00"%string; "2024-03-05T18:00:00.250000"%string]
  /\ approvals_view corrected_in_the_form anna monday tuesday true (Parsed 1)
                    Blank Blank true
     = (corrected_in_the_form, Raised ValueError)
  /\ forall F : Float64,
     approvals_table corrected_in_the_form monday tuesday = inl ValueError
     /\ (exists table,
           approvals_table stamped_by_the_clock monday tuesday = inr table
           /\ map (fun x => (p_id (fst (fst x)), Qred (snd x))) table
              = [(2, 0%Q); (1, 8%Q)])
     /\ one_precision (report_query stamped_by_the_clock monday tuesday).
Proof.
  split; [vm_compute; reflexivity|]. split; [vm_compute; reflexivity|].
  intros F. split; [vm_compute; reflexivity|].
  split; [eexists; split; vm_compute; reflexivity|].
  apply (proj1 (approval_table_shows_the_rows_of_the_report
                  stamped_by_the_clock monday tuesday)).
  eexists. vm_compute. reflexivity.
Defined.

(** ** Days and their ordinals *)

Ltac month_cases m H :=
  let E := fresh "E" in
  assert (E : m = 1 \/ m = 2 \/ m = 3 \/ m = 4 \/ m = 5 \/ m = 6 \/ m = 7
              \/ m = 8 \/ m = 9 \/ m = 10 \/ m = 11 \/ m = 12) by lia;
  destruct E as [E|[E|[E|[E|[E|[E|[E|[E|[E|[E|[E|E]]]]]]]]]]]; subst m.

Lemma days_before_next_month (y m : Z) :
  1 <= m <= 11 ->
  days_before_month y (m + 1) = days_before_month y m + days_in_month y m.
Proof.
  intros Hm. unfold days_before_month, days_in_month.
  destruct (is_leap y); month_cases m Hm; try lia; vm_compute; reflexivity.
Qed.

Lemma leap_step (y : Z) :
  days_before_year (y + 1)
  = days_before_year y + 365 + (if is_leap y then 1 else 0).
Proof.
  unfold days_before_year, is_leap.
  replace (y + 1 - 1) with y by lia.
  destruct (y mod 4 =? 0) eqn:E4; destruct (y mod 100 =? 0) eqn:E100;
    destruct (y mod 400 =? 0) eqn:E400; simpl;
    rewrite ?Z.eqb_eq, ?Z.eqb_neq in *;
    Z.to_euclidean_division_equations; lia.
Qed.

Lemma next_day_valid (d : date) :
  valid_date d -> d <> last_date ->
  valid_date (next_day d) /\ ymd2ord (next_day d) = ymd2ord d + 1.
Proof.
  destruct d as [y m dd]. unfold valid_date, next_day, ymd2ord. simpl.
  intros (Hy & Hm & Hd) Hne.
  pose proof (days_in_month_bounds y m Hm) as Hb.
  destruct (dd <? days_in_month y m) eqn:E1; simpl.
  - apply Z.ltb_lt in E1. repeat split; lia.
  - apply Z.ltb_ge in E1. destruct (m <? 12) eqn:E2; simpl.
    + apply Z.ltb_lt in E2.
      pose proof (days_in_month_bounds y (m + 1) ltac:(lia)).
      rewrite days_before_next_month by lia. repeat split; lia.
    + apply Z.ltb_ge in E2. assert (m = 12) by lia. subst m.
      change (days_in_month y 12) with 31 in *.
      assert (dd = 31) by lia. subst dd.
      assert (y <> 9999) by (intros ->; now apply Hne).
      rewrite leap_step.
      change (days_in_month (y + 1) 1) with 31.
      unfold days_before_month. simpl. repeat split; try lia.
      destruct (is_leap y); destruct (is_leap (y + 1)); simpl; lia.
Qed.

Lemma prev_day_valid (d : date) :
  valid_date d -> d <> first_date ->
  valid_date (prev_day d) /\ next_day (prev_day d) = d
  /\ prev_day d <> last_date.
Proof.
  destruct d as [y m dd]. unfold valid_date, prev_day, next_day. simpl.
  intros (Hy & Hm & Hd) Hne.
  pose proof (days_in_month_bounds y m Hm) as Hb.
  destruct (1 <? dd) eqn:E1; simpl.
  - apply Z.ltb_lt in E1.
    assert (E : (dd - 1 <? days_in_month y m) = true) by (apply Z.ltb_lt; lia).
    rewrite E. split; [repeat split; lia|]. split.
    + f_equal; lia.
    + unfold last_date. intros C. injection C as -> -> C. 
      change (days_in_month 9999 12) with 31 in *. lia.
  - apply Z.ltb_ge in E1. assert (dd = 1) by lia. subst dd.
    destruct (1 <? m) eqn:E2; simpl.
    + apply Z.ltb_lt in E2.
      pose proof (days_in_month_bounds y (m - 1) ltac:(lia)).
      rewrite Z.ltb_irrefl.
      assert (E : (m - 1 <? 12) = true) by (apply Z.ltb_lt; lia).
      rewrite E. split; [repeat split; lia|]. split.
      * f_equal; lia.
      * unfold last_date. intros C. injection C as -> C _. lia.
    + apply Z.ltb_ge in E2. assert (m = 1) by lia. subst m.
      assert (y <> 1) by (intros ->; now apply Hne).
      change (days_in_month (y - 1) 12) with 31. simpl.
      split; [repeat split; lia|]. split.
      * f_equal; lia.
      * unfold last_date. intros C. injection C as C. lia.
Qed.

Lemma prev_day_ord (d : date) :
  valid_date d -> d <> first_date -> ymd2ord (prev_day d) = ymd2ord d - 1.
Proof.
  intros Hv Hne. destruct (prev_day_valid d Hv Hne) as (Hp & E & Hl).
  destruct (next_day_valid (prev_day d) Hp Hl) as [_ H].
  rewrite E in H. lia.
Qed.

Lemma day_of_year_bounds (d : date) :
  valid_date d ->
  days_before_year (year d) + 1 <= ymd2ord d
  /\ ymd2ord d <= days_before_year (year d) + 366.
Proof.
  destruct d as [y m dd]. unfold valid_date, ymd2ord. simpl.
  intros (Hy & Hm & Hd). revert Hd.
  unfold days_before_month, days_in_month.
  destruct (is_leap y); month_cases m Hm; vm_compute nth; cbn; lia.
Qed.

Lemma ordinal_range (d : date) :
  valid_date d -> 2 <= year d <= 9998 ->
  7 < ymd2ord d /\ ymd2ord d + 7 < ymd2ord last_date.
Proof.
  intros Hv Hy. destruct (day_of_year_bounds d Hv) as [Hlo Hhi].
  change (ymd2ord last_date) with 3652059.
  unfold days_before_year in *.
  Z.to_euclidean_division_equations. lia.
Qed.

Lemma not_first_date (d : date) : 1 < ymd2ord d -> d <> first_date.
Proof. intros H ->. vm_compute in H. discriminate. Qed.

Lemma not_last_date (d : date) : ymd2ord d < ymd2ord last_date -> d <> last_date.
Proof. intros H ->. lia. Qed.

Lemma minus_days_succ (n : nat) (d : date) :
  minus_days (S n) d = prev_day (minus_days n d).
Proof. reflexivity. Qed.

Lemma plus_days_succ (n : nat) (d : date) :
  plus_days (S n) d = next_day (plus_days n d).
Proof. reflexivity. Qed.

Lemma plus_days_succ_r (n : nat) (d : date) :
  plus_days (S n) d = plus_days n (next_day d).
Proof. unfold plus_days. apply Nat.iter_succ_r. Qed.

Lemma minus_days_spec (n : nat) (d : date) :
  valid_date d -> Z.of_nat n < ymd2ord d ->
  valid_date (minus_days n d)
  /\ ymd2ord (minus_days n d) = ymd2ord d - Z.of_nat n
  /\ plus_days n (minus_days n d) = d.
Proof.
  intros Hv. induction n as [|n IH]; intros Hn.
  - simpl. repeat split; [apply Hv..|lia].
  - destruct IH as (Hv' & Ho & Hr); [lia|].
    rewrite minus_days_succ.
    assert (Hne : minus_days n d <> first_date)
      by (apply not_first_date; lia).
    destruct (prev_day_valid _ Hv' Hne) as (Hp & E & _).
    split; [exact Hp|]. split.
    + rewrite prev_day_ord by assumption. lia.
    + rewrite plus_days_succ_r, E. exact Hr.
Qed.

Lemma plus_days_spec (n : nat) (d : date) :
  valid_date d -> ymd2ord d + Z.of_nat n <= ymd2ord last_date ->
  valid_date (plus_days n d)
  /\ ymd2ord (plus_days n d) = ymd2ord d + Z.of_nat n.
Proof.
  intros Hv. induction n as [|n IH]; intros Hn.
  - simpl. split; [exact Hv | lia].
  - destruct IH as (Hv' & Ho); [lia|].
    rewrite plus_days_succ.
    assert (Hne : plus_days n d <> last_date)
      by (apply not_last_date; lia).
    destruct (next_day_valid _ Hv' Hne) as (Hp & E).
    split; [exact Hp | lia].
Qed.

Lemma start_of_week_spec (base : date) :
  valid_date base -> 2 <= year base <= 9998 ->
  valid_date (start_of_week base)
  /\ ymd2ord (start_of_week base) = ymd2ord base - weekday base
  /\ plus_days (Z.to_nat (weekday base)) (start_of_week base) = base
  /\ 0 <= weekday base <= 6.
Proof.
  intros Hv Hy. destruct (ordinal_range base Hv Hy) as [Hlo Hhi].
  assert (Hw : 0 <= weekday base <= 6)
    by (unfold weekday; pose proof (Z.mod_pos_bound (ymd2ord base + 6) 7); lia).
  unfold start_of_week.
  destruct (minus_days_spec (Z.to_nat (weekday base)) base Hv) as (H1 & H2 & H3);
    [lia|].
  split; [exact H1|]. split; [lia|]. split; [exact H3 | exact Hw].
Qed.

(** X22: for a date of the years 2 to 9998 the seven days of the schedule
    are consecutive valid dates from a Monday to a Sunday, and the chosen
    date is the one at the index of its weekday. *)
Theorem week_runs_from_monday_to_sunday (base : date) :
  valid_date base -> 2 <= year base <= 9998 ->
  map weekday (week_days base) = [0; 1; 2; 3; 4; 5; 6]
  /\ map ymd2ord (week_days base)
     = map (fun i => ymd2ord base - weekday base + Z.of_nat i) (seq 0 7)
  /\ Forall valid_date (week_days base)
  /\ nth (Z.to_nat (weekday base)) (week_days base) base = base.
Proof.
  intros Hv Hy. destruct (ordinal_range base Hv Hy) as [Hlo Hhi].
  destruct (start_of_week_spec base Hv Hy) as (Hs & Ho & Hb & Hw).
  assert (Hday : forall n, (n <= 6)%nat ->
            valid_date (plus_days n (start_of_week base))
            /\ ymd2ord (plus_days n (start_of_week base))
               = ymd2ord base - weekday base + Z.of_nat n).
  { intros n Hn.
    destruct (plus_days_spec n (start_of_week base) Hs) as [H1 H2]; [lia|].
    split; [exact H1 | lia]. }
  assert (Hwd : forall n, (n <= 6)%nat ->
            weekday (plus_days n (start_of_week base)) = Z.of_nat n).
  { intros n Hn. unfold weekday at 1. rewrite (proj2 (Hday n Hn)).
    unfold weekday. Z.to_euclidean_division_equations. lia. }
  unfold week_days. cbn [seq map].
  split; [|split; [|split]].
  - rewrite !Hwd by lia. reflexivity.
  - rewrite !(fun n H => proj2 (Hday n H)) by lia. reflexivity.
  - repeat constructor; apply Hday; lia.
  - assert (E : forall n, (n <= 6)%nat ->
              nth n [plus_days 0 (start_of_week base);
                     plus_days 1 (start_of_week base);
                     plus_days 2 (start_of_week base);
                     plus_days 3 (start_of_week base);
                     plus_days 4 (start_of_week base);
                     plus_days 5 (start_of_week base);
                     plus_days 6 (start_of_week base)] base
              = plus_days n (start_of_week base)).
    { intros n Hn.
      do 7 (destruct n as [|n]; [reflexivity|]). lia. }
    rewrite E by lia. exact Hb.
Qed.

(** ** Ordinals follow the calendar *)

Lemma day_of_year_within_year (d : date) :
  valid_date d -> ymd2ord d <= days_before_year (year d + 1).
Proof.
  destruct d as [y m dd]. unfold valid_date, ymd2ord. simpl.
  intros (Hy & Hm & Hd). rewrite leap_step. revert Hd.
  unfold days_before_month, days_in_month.
  destruct (is_leap y); month_cases m Hm; vm_compute nth; cbn; lia.
Qed.

Lemma days_before_year_mono (y y' : Z) :
  1 <= y -> y <= y' -> days_before_year y <= days_before_year y'.
Proof.
  intros Hy Hle. unfold days_before_year.
  Z.to_euclidean_division_equations. lia.
Qed.

Lemma days_before_month_mono (y m m' : Z) :
  1 <= m -> m < m' -> m' <= 12 ->
  days_before_month y m + days_in_month y m <= days_before_month y m'.
Proof.
  intros H1 H2 H3. unfold days_before_month, days_in_month.
  assert (Hm : 1 <= m <= 12) by lia. assert (Hm' : 1 <= m' <= 12) by lia.
  destruct (is_leap y); month_cases m Hm; month_cases m' Hm'; try lia;
    vm_compute; discriminate.
Qed.

Lemma ymd2ord_mono (a b : date) :
  valid_date a -> valid_date b -> date_lt a b -> ymd2ord a < ymd2ord b.
Proof.
  intros Ha Hb Hlt.
  pose proof (day_of_year_within_year a Ha) as Hup.
  destruct (day_of_year_bounds b Hb) as [Hlo _].
  destruct a as [y m dd], b as [y' m' dd'].
  unfold valid_date, date_lt in *. simpl in *.
  destruct Ha as (Hy & Hm & Hd), Hb as (Hy' & Hm' & Hd').
  destruct Hlt as [H|[-> [H|[-> H]]]].
  - pose proof (days_before_year_mono (y + 1) y' ltac:(lia) ltac:(lia)). lia.
  - pose proof (days_before_month_mono y' m m' ltac:(lia) H ltac:(lia)).
    unfold ymd2ord. simpl. lia.
  - unfold ymd2ord. simpl. lia.
Qed.

Lemma date_le_ord (a b : date) :
  valid_date a -> valid_date b -> (date_le a b <-> ymd2ord a <= ymd2ord b).
Proof.
  intros Ha Hb. split.
  - intros [H| ->]; [|lia]. pose proof (ymd2ord_mono a b Ha Hb H). lia.
  - intros H. destruct (date_lt_total a b) as [L|[E|L]].
    + now left.
    + now right.
    + pose proof (ymd2ord_mono b a Hb Ha L). lia.
Qed.

Lemma ymd2ord_inj (a b : date) :
  valid_date a -> valid_date b -> ymd2ord a = ymd2ord b -> a = b.
Proof.
  intros Ha Hb E. destruct (date_lt_total a b) as [L|[F|L]]; [|exact F|].
  - pose proof (ymd2ord_mono a b Ha Hb L). lia.
  - pose proof (ymd2ord_mono b a Hb Ha L). lia.
Qed.

Lemma date_text_leb (a b : date) :
  valid_date a -> valid_date b ->
  (String.leb (date_text a) (date_text b) = true <-> date_le a b).
Proof.
  intros Ha Hb. unfold String.leb.
  rewrite <- (append_empty (date_text a)), <- (append_empty (date_text b)).
  rewrite date_text_compare by assumption. unfold date_le.
  rewrite <- date_compare_lt, <- date_compare_eq.
  destruct (date_compare a b); simpl; split; try tauto; try congruence;
    intros [H|H]; discriminate.
Qed.

(** ** The week of the schedule *)

Lemma in_week_spec (base : date) (s : shift_row) :
  valid_date base -> 2 <= year base <= 9998 -> valid_date (sh_date s) ->
  (in_week base s = true <-> In (sh_date s) (week_days base)).
Proof.
  intros Hv Hy Hs. destruct (ordinal_range base Hv Hy) as [Hlo Hhi].
  destruct (start_of_week_spec base Hv Hy) as (Hsv & Ho & Hb & Hw).
  destruct (plus_days_spec 6 (start_of_week base) Hsv ltac:(lia)) as [H6 O6].
  unfold in_week, date_isoformat.
  rewrite andb_true_iff, !date_text_leb, !date_le_ord by assumption.
  rewrite O6. split.
  - intros [H1 H2].
    set (k := Z.to_nat (ymd2ord (sh_date s) - ymd2ord (start_of_week base))).
    destruct (plus_days_spec k (start_of_week base) Hsv ltac:(lia)) as [Hk Ok].
    assert (E : sh_date s = plus_days k (start_of_week base))
      by (apply ymd2ord_inj; [assumption..|lia]).
    rewrite E. unfold week_days. apply in_map_iff. exists k.
    split; [reflexivity|]. apply in_seq. lia.
  - intros H. unfold week_days in H. apply in_map_iff in H.
    destruct H as (k & E & Hk). apply in_seq in Hk.
    destruct (plus_days_spec k (start_of_week base) Hsv ltac:(lia)) as [_ Ok].
    rewrite <- E, Ok. lia.
Qed.

(** X23: the week of the schedule shows exactly the stored shifts whose
    date is one of its seven days. *)
Theorem week_table_shows_the_shifts_of_the_week
        (d : db) (t : shift_table) (base : date) (s : shift_row) :
  valid_date base -> 2 <= year base <= 9998 ->
  (forall x, In x (sh_rows t) -> valid_date (sh_date x)) ->
  (In s (map fst (week_table d t base))
   <-> In s (sh_rows t) /\ In (sh_date s) (week_days base)).
Proof.
  intros Hv Hy Hall. unfold week_table. rewrite map_map. cbn [fst].
  rewrite map_id, sort_by_in, filter_In. split.
  - intros [Hs Hw]. split; [exact Hs|].
    apply in_week_spec in Hw; auto.
  - intros [Hs Hw]. split; [exact Hs|]. apply in_week_spec; auto.
Qed.

(** ** Shifts *)

Lemma id_of_person_spec (d : db) (person : string) :
  (forall uid, id_of_person d person = Some uid ->
               exists u, In u (users d) /\ full_name u = person
                         /\ u_id u = uid)
  /\ (id_of_person d person = None <->
      forall u, In u (users d) -> full_name u <> person).
Proof.
  unfold id_of_person, users_by_name. split.
  - intros uid H.
    destruct (find _ _) as [u|] eqn:F; [|discriminate].
    injection H as <-. apply find_some in F. destruct F as [Hin E].
    apply sort_by_in in Hin. apply String.eqb_eq in E. eauto.
  - split.
    + intros H u Hu E.
      destruct (find _ _) as [v|] eqn:F; [discriminate|].
      assert (Hin : In u (sort_by (fun a b => String.leb (full_name a)
                                                (full_name b)) (users d)))
        by now apply sort_by_in.
      pose proof (find_none _ _ F u Hin) as G. cbn in G.
      apply String.eqb_neq in G. contradiction.
    + intros H. destruct (find _ _) as [v|] eqn:F; [|reflexivity].
      apply find_some in F. destruct F as [Hin E].
      apply sort_by_in in Hin. apply String.eqb_eq in E.
      now destruct (H v Hin).
Qed.

(** X24: for a Manager or Admin, Spara skift looks the worker up by full
    name only: with no worker of that name it raises and saves nothing; else
    it appends one shift with the next id, assigned to a worker of that name
    (to the worker, when only one has the name), with the day and the times
    as given, whatever their order. *)
Theorem saving_a_shift_checks_the_name_only
        (d : db) (t : shift_table) (user : principal) (base : date)
        (person position place : string) (day : date)
        (start_t end_t : time_of_day) :
  my_role user <> Employee ->
  let r := schedule_view d t user base
             (SparaSkift person position place day start_t end_t) in
  ((forall u, In u (users d) -> full_name u <> person) -> r = (t, IndexFel))
  /\ ((exists u, In u (users d) /\ full_name u = person) ->
      exists u, In u (users d) /\ full_name u = person
        /\ r = (mkShifts (sh_rows t ++
                          [mkShift (sh_seq t + 1) (Some (u_id u)) day start_t
                                   end_t position place])
                         (sh_seq t + 1),
                SkiftSparat))
  /\ (forall u, In u (users d) -> full_name u = person ->
        (forall v, In v (users d) -> full_name v = person -> v = u) ->
        r = (mkShifts (sh_rows t ++
                       [mkShift (sh_seq t + 1) (Some (u_id u)) day start_t
                                end_t position place])
                      (sh_seq t + 1),
             SkiftSparat)).
Proof.
  intros Hrole r. subst r. unfold schedule_view.
  assert (E : negb (role_eqb (my_role user) Manager
                    || role_eqb (my_role user) Admin) = false)
    by (destruct (my_role user); [reflexivity..|now destruct Hrole]).
  rewrite E. destruct (id_of_person_spec d person) as [Hsome Hnone].
  assert (Hex : (exists u, In u (users d) /\ full_name u = person) ->
          exists u, In u (users d) /\ full_name u = person
                    /\ id_of_person d person = Some (u_id u)).
  { intros (u & Hu & En).
    destruct (id_of_person d person) as [uid|] eqn:F.
    - destruct (Hsome uid eq_refl) as (v & Hv & Ev & <-). eauto.
    - exfalso. apply (proj1 Hnone eq_refl u Hu En). }
  split; [|split].
  - intros H. apply Hnone in H. now rewrite H.
  - intros H. destruct (Hex H) as (u & Hu & En & F). exists u.
    rewrite F. auto.
  - intros u Hu En Huniq.
    destruct (Hex (ex_intro _ u (conj Hu En))) as (v & Hv & Ev & F).
    rewrite F, (Huniq v Hv Ev). reflexivity.
Qed.

Lemma saving_a_shift_checks_the_name_only_witness :
  my_role anna <> Employee
  /\ schedule_view seeded (mkShifts [] 0) anna tuesday
       (SparaSkift "Erik Ek" "Bar" "Matsal" tuesday (mkTimeOfDay 18 0)
                   (mkTimeOfDay 10 0))
     = (mkShifts [mkShift 1 (Some 3) tuesday (mkTimeOfDay 18 0)
                          (mkTimeOfDay 10 0) "Bar" "Matsal"] 1,
        SkiftSparat)
  /\ schedule_view seeded (mkShifts [] 0) anna tuesday
       (SparaSkift "Nobody" "Bar" "Matsal" tuesday (mkTimeOfDay 10 0)
                   (mkTimeOfDay 18 0))
     = (mkShifts [] 0, IndexFel).
Proof.
  assert (Hr : my_role anna <> Employee) by discriminate.
  split; [exact Hr|]. split.
  - refine (proj2 (proj2 (saving_a_shift_checks_the_name_only seeded
              (mkShifts [] 0) anna tuesday "Erik Ek" "Bar" "Matsal" tuesday
              (mkTimeOfDay 18 0) (mkTimeOfDay 10 0) Hr)) erik_row _ eq_refl _).
    + right; right; left; reflexivity.
    + intros v [<-|[<-|[<-|[]]]]; try discriminate. reflexivity.
  - apply (proj1 (saving_a_shift_checks_the_name_only seeded
              (mkShifts [] 0) anna tuesday "Nobody" "Bar" "Matsal" tuesday
              (mkTimeOfDay 10 0) (mkTimeOfDay 18 0) Hr)).
    intros u [<-|[<-|[<-|[]]]]; discriminate.
Defined.

Lemma multiselect_in (options sel : list Z) (i : Z) :
  In i (multiselect options sel) <-> In i sel /\ In i options.
Proof.
  unfold multiselect. rewrite filter_In. split; intros [H1 H2]; split; auto.
  - apply existsb_exists in H2. destruct H2 as (j & Hj & E).
    apply Z.eqb_eq in E. now subst.
  - apply existsb_exists. exists i. split; [exact H2 | apply Z.eqb_refl].
Qed.

Lemma delete_shifts_in (t : shift_table) (ids : list Z) (s : shift_row) :
  In s (sh_rows (delete_shifts t ids))
  <-> In s (sh_rows t) /\ ~ In (sh_id s) ids.
Proof.
  unfold delete_shifts. cbn [sh_rows]. rewrite filter_In, negb_true_iff.
  split; intros [H1 H2]; split; auto.
  - intros Hin.
    assert (existsb (Z.eqb (sh_id s)) ids = true)
      by (apply existsb_exists; exists (sh_id s); split;
          [exact Hin | apply Z.eqb_refl]).
    congruence.
  - destruct (existsb _ ids) eqn:E; [|reflexivity].
    apply existsb_exists in E. destruct E as (j & Hj & E).
    apply Z.eqb_eq in E. subst. contradiction.
Qed.

(** X25: for a Manager or Admin, Radera valda removes exactly the shifts
    whose id is both chosen and drawn in the week; chosen ids that are not
    drawn are ignored, every other shift stays, and the id counter is kept. *)
Theorem deleting_shifts_removes_the_chosen_rows_of_the_week
        (d : db) (t : shift_table) (user : principal) (base : date)
        (sel : list Z) :
  my_role user <> Employee ->
  let t' := fst (schedule_view d t user base (RaderaValda sel)) in
  sh_seq t' = sh_seq t
  /\ (forall s,
         In s (sh_rows t')
         <-> In s (sh_rows t)
             /\ ~ (In (sh_id s) sel
                   /\ In (sh_id s)
                         (map (fun r => sh_id (fst r)) (week_table d t base)))).
Proof.
  intros Hrole t'. subst t'. unfold schedule_view.
  assert (E : negb (role_eqb (my_role user) Manager
                    || role_eqb (my_role user) Admin) = false)
    by (destruct (my_role user); [reflexivity..|now destruct Hrole]).
  rewrite E.
  destruct (week_table d t base) as [|r0 shown] eqn:W.
  - cbn. split; [reflexivity|]. intros s. split; [|tauto].
    intros H. split; [exact H|]. intros [_ []].
  - set (opts := map (fun r => sh_id (fst r)) (r0 :: shown)).
    destruct (multiselect opts sel) as [|i ids] eqn:M.
    + cbn [fst]. split; [reflexivity|]. intros s. split; [|tauto].
      intros H. split; [exact H|]. intros C.
      apply multiselect_in in C. rewrite M in C. destruct C.
    + cbn [fst]. split; [reflexivity|]. intros s.
      rewrite delete_shifts_in, <- M, multiselect_in. reflexivity.
Qed.

Lemma deleting_shifts_removes_the_chosen_rows_of_the_week_witness :
  my_role anna <> Employee
  /\ map sh_id
         (sh_rows
            (fst (schedule_view seeded
                    (mkShifts [mkShift 1 (Some 3) tuesday (mkTimeOfDay 10 0)
                                       (mkTimeOfDay 18 0) "Bar" "Matsal";
                               mkShift 2 (Some 3) (mkDate 2024 3 12)
                                       (mkTimeOfDay 10 0) (mkTimeOfDay 18 0)
                                       "Bar" "Matsal"] 2)
                    anna tuesday (RaderaValda [1; 2; 7]))))
     = [2]
  /\ sh_seq
       (fst (schedule_view seeded
               (mkShifts [mkShift 1 (Some 3) tuesday (mkTimeOfDay 10 0)
                                  (mkTimeOfDay 18 0) "Bar" "Matsal";
                          mkShift 2 (Some 3) (mkDate 2024 3 12)
                                  (mkTimeOfDay 10 0) (mkTimeOfDay 18 0)
                                  "Bar" "Matsal"] 2)
               anna tuesday (RaderaValda [1; 2; 7])))
     = 2.
Proof.
  assert (Hr : my_role anna <> Employee) by discriminate.
  split; [exact Hr|]. split; [vm_compute; reflexivity|].
  pose proof (deleting_shifts_removes_the_chosen_rows_of_the_week seeded
                (mkShifts [mkShift 1 (Some 3) tuesday (mkTimeOfDay 10 0)
                                   (mkTimeOfDay 18 0) "Bar" "Matsal";
                           mkShift 2 (Some 3) (mkDate 2024 3 12)
                                   (mkTimeOfDay 10 0) (mkTimeOfDay 18 0)
                                   "Bar" "Matsal"] 2)
                anna tuesday [1; 2; 7] Hr) as H.
  cbv zeta in H. exact (proj1 H).
Defined.

Lemma schedule_view_grows (d : db) (t : shift_table) (user : principal)
      (base : date) (c : schedule_click) :
  let t' := fst (schedule_view d t user base c) in
  sh_seq t <= sh_seq t'
  /\ (forall s, In s (sh_rows t') ->
                In s (sh_rows t)
                \/ (sh_id s = sh_seq t + 1 /\ sh_seq t' = sh_seq t + 1
                    /\ exists uid, sh_user_id s = Some uid
                                   /\ In uid (map u_id (users d)))).
Proof.
  intros t'. subst t'. unfold schedule_view.
  destruct (negb _); [cbn; split; [lia|auto]|].
  destruct c as [|person position place day start_t end_t|sel].
  - destruct (week_table d t base); cbn; split; try lia; auto.
  - destruct (id_of_person d person) as [uid|] eqn:F;
      [|cbn; split; [lia|auto]].
    cbn. split; [lia|]. intros s Hs. apply in_app_iff in Hs.
    destruct Hs as [Hs|[<-|[]]]; [now left | right].
    cbn. split; [reflexivity|]. split; [reflexivity|]. exists uid.
    split; [reflexivity|].
    destruct (proj1 (id_of_person_spec d person) uid F) as (u & Hu & _ & <-).
    now apply in_map.
  - destruct (week_table d t base) as [|r0 shown]; [cbn; split; [lia|auto]|].
    destruct (multiselect _ sel) as [|i ids]; [cbn; split; [lia|auto]|].
    cbn [fst]. split; [cbn; lia|]. intros s Hs. left.
    apply delete_shifts_in in Hs. apply Hs.
Qed.

Lemma main_keeps_user_ids (a : app_state) (l : login_form) (choice : menu)
      (i : Z) :
  In i (map u_id (users (store a))) ->
  In i (map u_id (users (store (main a l choice)))).
Proof.
  intros H.
  assert (Hd : In i (map u_id (users (ensure_seed_admin (store a))))).
  { unfold ensure_seed_admin.
    destruct (users (store a)) eqn:E; [destruct H|]. now rewrite E. }
  unfold main. destruct (session a) as [user|].
  - destruct choice; cbn [store]; try exact Hd.
    + now rewrite clock_view_keeps_users.
    + destruct (approvals_view_as_adjust (ensure_seed_admin (store a)) user
                  start stop pressed sel_id new_in new_out approve)
        as [-> | ->]; [exact Hd | now rewrite adjust_keeps_users].
    + now apply staff_view_keeps_ids.
  - now destruct (login_ui _ _ _ _ _).
Qed.

Lemma main_schedule (a : app_state) (l : login_form) (choice : menu) :
  schedule (main a l choice) = schedule a
  \/ exists user base c,
       session a = Some user
       /\ schedule (main a l choice)
          = fst (schedule_view (ensure_seed_admin (store a)) (schedule a)
                               user base c)
       /\ store (main a l choice) = ensure_seed_admin (store a).
Proof.
  unfold main. destruct (session a) as [user|].
  - destruct choice; cbn [schedule store]; try (now left).
    right. exists user, base, c. auto.
  - destruct (login_ui _ _ _ _ _); now left.
Qed.

Lemma main_keeps_schedule_sound (a : app_state) (l : login_form)
      (choice : menu) :
  schedule_is_sound a -> schedule_is_sound (main a l choice).
Proof.
  intros (Hnd & Hid & Hseq & Hfk).
  destruct (main_schedule a l choice) as [E|(user & base & c & _ & E & Es)].
  - unfold schedule_is_sound. rewrite E.
    repeat (split; [assumption|]).
    intros s Hs. destruct (Hfk s Hs) as (uid & Eu & Hu).
    exists uid. split; [exact Eu | now apply main_keeps_user_ids].
  - pose proof (schedule_view_grows (ensure_seed_admin (store a)) (schedule a)
                  user base c) as G.
    cbv zeta in G. destruct G as [Hle Hrows].
    unfold schedule_is_sound. rewrite E, Es.
    assert (Hkeep : forall i, In i (map u_id (users (store a))) ->
               In i (map u_id (users (ensure_seed_admin (store a))))).
    { intros i H. unfold ensure_seed_admin.
      destruct (users (store a)) eqn:F; [destruct H|]. now rewrite F. }
    split; [|split; [|split]].
    + unfold schedule_view.
      destruct (negb _); [exact Hnd|].
      destruct c as [|person position place day start_t end_t|sel].
      * destruct (week_table _ _ _); exact Hnd.
      * destruct (id_of_person _ person); [|exact Hnd].
        cbn. rewrite map_app. cbn. apply NoDup_snoc; [exact Hnd|].
        intros Hin. apply in_map_iff in Hin. destruct Hin as (s & Ei & Hs).
        specialize (Hid s Hs). lia.
      * destruct (week_table _ _ _); [exact Hnd|].
        destruct (multiselect _ sel); [exact Hnd|].
        cbn. clear - Hnd. induction (sh_rows (schedule a)) as [|s rows IH];
          [constructor|].
        inversion Hnd as [|? ? Hs Hnd']; subst. cbn.
        destruct (negb _); [|now apply IH].
        cbn. constructor; [|now apply IH].
        intros Hin. apply Hs. apply in_map_iff in Hin.
        destruct Hin as (x & Ex & Hx). apply filter_In in Hx.
        rewrite <- Ex. apply in_map. apply Hx.
    + intros s Hs. destruct (Hrows s Hs) as [H|(H1 & H2 & _)].
      * specialize (Hid s H). lia.
      * lia.
    + lia.
    + intros s Hs. destruct (Hrows s Hs) as [H|(_ & _ & uid & Eu & Hu)].
      * destruct (Hfk s H) as (uid & Eu & Hu). exists uid. auto.
      * exists uid. auto.
Qed.

Lemma runs_schedule_sound (a : app_state) : runs a -> schedule_is_sound a.
Proof.
  induction 1 as [|a l choice _ IH].
  - unfold schedule_is_sound. cbn.
    repeat split; try lia; try constructor; intros s [].
  - now apply main_keeps_schedule_sound.
Qed.

(** X26: in every state of the application shift ids are unique and at
    most the counter, every shift is assigned to a worker of the register,
    and a run never lowers the counter: a shift that appears in a run has an
    id above every id used before, also after deletions. *)
Theorem shift_ids_are_never_reused (a : app_state) :
  runs a ->
  NoDup (map sh_id (sh_rows (schedule a)))
  /\ (forall s, In s (sh_rows (schedule a)) ->
                1 <= sh_id s <= sh_seq (schedule a))
  /\ (forall s, In s (sh_rows (schedule a)) ->
                exists uid, sh_user_id s = Some uid
                            /\ In uid (map u_id (users (store a))))
  /\ (forall l choice,
         sh_seq (schedule a) <= sh_seq (schedule (main a l choice))
         /\ forall s, In s (sh_rows (schedule (main a l choice))) ->
                      In s (sh_rows (schedule a))
                      \/ sh_seq (schedule a) < sh_id s).
Proof.
  intros R. destruct (runs_schedule_sound a R) as (Hnd & Hid & Hseq & Hfk).
  repeat (split; [assumption|]).
  intros l choice.
  destruct (main_schedule a l choice) as [E|(user & base & c & _ & E & _)].
  - rewrite E. split; [lia | auto].
  - pose proof (schedule_view_grows (ensure_seed_admin (store a)) (schedule a)
                  user base c) as G.
    cbv zeta in G. destruct G as [Hle Hrows]. rewrite E.
    split; [exact Hle|]. intros s Hs.
    destruct (Hrows s Hs) as [H|(H1 & _)]; [now left | right; lia].
Qed.

(** ** Instances *)

Lemma daily_row_splits_hours_at_eight_witness :
  map (fun p => (user_id p, clock_in p, clock_out p)) (punches erik_gone_home)
  = [(3, clock tuesday 9 0, Some (clock tuesday 18 0))]
  /\ forall F : Float64,
     exists rows row,
       reports_view erik_gone_home monday tuesday = Summering rows
       /\ In row rows
       /\ (Qred (d_hours row) = 9 /\ d_reg_hours row == 8
           /\ d_ot_hours row == d_hours row - 8)%Q.
Proof.
  split; [vm_compute; reflexivity|]. intros F.
  eexists. eexists. split; [vm_compute; reflexivity|].
  split; [left; reflexivity|].
  split; [vm_compute; reflexivity|].
  match goal with
  | |- (d_reg_hours ?row == _ /\ _)%Q =>
      pose proof (daily_row_splits_hours_at_eight
                    erik_gone_home monday tuesday [row] row
                    ltac:(vm_compute; reflexivity)
                    ltac:(left; reflexivity)) as H
  end.
  destruct H as [(_ & _ & _ & _ & H & _) _].
  destruct H as [H1 H2]; [vm_compute; discriminate|]. split; assumption.
Defined.

Lemma week_runs_from_monday_to_sunday_witness :
  valid_date tuesday /\ 2 <= year tuesday <= 9998
  /\ week_days tuesday
     = [mkDate 2024 3 4; mkDate 2024 3 5; mkDate 2024 3 6; mkDate 2024 3 7;
        mkDate 2024 3 8; mkDate 2024 3 9; mkDate 2024 3 10]
  /\ map weekday (week_days tuesday) = [0; 1; 2; 3; 4; 5; 6].
Proof.
  assert (Hv : valid_date tuesday) by valid_by_computation.
  assert (Hy : 2 <= year tuesday <= 9998) by (cbn; lia).
  split; [exact Hv|]. split; [exact Hy|]. split; [vm_compute; reflexivity|].
  exact (proj1 (week_runs_from_monday_to_sunday tuesday Hv Hy)).
Defined.

Lemma week_table_shows_the_shifts_of_the_week_witness :
  valid_date tuesday /\ 2 <= year tuesday <= 9998
  /\ map sh_date (sh_rows two_shifts) = [tuesday; mkDate 2024 3 12]
  /\ map (fun r => sh_id (fst r)) (week_table seeded two_shifts tuesday) = [1]
  /\ In (mkShift 1 (Some 3) tuesday (mkTimeOfDay 10 0) (mkTimeOfDay 18 0)
                 "Bar" "Matsal")
        (map fst (week_table seeded two_shifts tuesday)).
Proof.
  assert (Hv : valid_date tuesday) by valid_by_computation.
  assert (Hy : 2 <= year tuesday <= 9998) by (cbn; lia).
  split; [exact Hv|]. split; [exact Hy|]. split; [reflexivity|].
  split; [vm_compute; reflexivity|].
  apply (week_table_shows_the_shifts_of_the_week seeded two_shifts tuesday _
           Hv Hy).
  - intros x [<-|[<-|[]]]; valid_by_computation.
  - split; [left; reflexivity|]. vm_compute. right; left; reflexivity.
Defined.

Lemma shift_ids_are_never_reused_witness :
  runs anna_deletes
  /\ schedule anna_plans
     = mkShifts [mkShift 1 (Some 3) tuesday (mkTimeOfDay 10 0)
                         (mkTimeOfDay 18 0) "Bar" "Matsal"] 1
  /\ schedule anna_deletes = mkShifts [] 1
  /\ map sh_id
         (sh_rows
            (schedule
               (main anna_deletes (mkLogin "" "" "" NoLogin)
                     (Schema tuesday
                             (SparaSkift "Erik Ek" "Kök" "Matsal" tuesday
                                         (mkTimeOfDay 10 0)
                                         (mkTimeOfDay 18 0))))))
     = [2]
  /\ forall s,
       In s (sh_rows
               (schedule
                  (main anna_deletes (mkLogin "" "" "" NoLogin)
                        (Schema tuesday
                                (SparaSkift "Erik Ek" "Kök" "Matsal" tuesday
                                            (mkTimeOfDay 10 0)
                                            (mkTimeOfDay 18 0)))))) ->
       In s (sh_rows (schedule anna_deletes))
       \/ sh_seq (schedule anna_deletes) < sh_id s.
Proof.
  assert (R : runs anna_deletes) by (repeat constructor).
  split; [exact R|]. split; [vm_compute; reflexivity|].
  split; [vm_compute; reflexivity|]. split; [vm_compute; reflexivity|].
  destruct (shift_ids_are_never_reused anna_deletes R) as (_ & _ & _ & H).
  exact (proj2 (H (mkLogin "" "" "" NoLogin)
                  (Schema tuesday
                          (SparaSkift "Erik Ek" "Kök" "Matsal" tuesday
                                      (mkTimeOfDay 10 0)
                                      (mkTimeOfDay 18 0))))).
Defined.

